(** * Chart-analysis pipeline of [backend/src/services/deepseek-services.js]

    A shallow embedding of the [DeepSeekService] class: the OCR text parser
    ([parseOCRText]), the reply validator ([parseAIResponse]), the fallback
    generator ([getFallbackAnalysis]) and the orchestration around them
    ([preprocessImage], [extractChartDataWithOCR], [analyzeWithAI],
    [analyzeTradingChart]).

    JavaScript strings are sequences of UTF-16 code units, numbers are IEEE-754
    doubles, regular expressions backtrack in priority order and objects keep
    their keys in insertion order; the file models each of these before the
    service code that uses them. *)

From Stdlib Require Import ZArith NArith List Bool Lia String Ascii.
From Stdlib Require Import Sorting.Sorted.
From Stdlib Require DecimalPos DecimalString.
Import ListNotations.

Set Implicit Arguments.
Set Warnings "-register-all".

(* ===================================================================== *)
(** * Strings: sequences of UTF-16 code units *)
(* ===================================================================== *)

Module JsString.

Definition t := list N.

(** An ASCII literal as a sequence of code units. *)
Definition str (s : string) : t := map N_of_ascii (list_ascii_of_string s).

(** The same, with every apostrophe standing for a double quote. *)
Definition dq (s : string) : t :=
  map (fun c => if N.eqb c 39 then 34%N else c) (str s).

Definition eqb (a b : t) : bool :=
  if list_eq_dec N.eq_dec a b then true else false.

(** [s.substring(0, n)] *)
Definition substring0 (n : nat) (s : t) : t := firstn n s.

(** WhiteSpace and LineTerminator code points: what [\s] matches and what
    [trim] and [parseFloat] skip. *)
Definition is_space (c : N) : bool :=
  (N.leb 9 c && N.leb c 13) || N.eqb c 32 || N.eqb c 160 || N.eqb c 5760
  || (N.leb 8192 c && N.leb c 8202) || N.eqb c 8232 || N.eqb c 8233
  || N.eqb c 8239 || N.eqb c 8287 || N.eqb c 12288 || N.eqb c 65279.

Definition is_digit (c : N) : bool := N.leb 48 c && N.leb c 57.

Fixpoint trimStart (s : t) : t :=
  match s with
  | c :: r => if is_space c then trimStart r else s
  | [] => []
  end.

Definition trimEnd (s : t) : t := rev (trimStart (rev s)).

Definition trim (s : t) : t := trimEnd (trimStart s).

Fixpoint starts_with (p s : t) : bool :=
  match p, s with
  | [], _ => true
  | a :: p', b :: s' => N.eqb a b && starts_with p' s'
  | _ :: _, [] => false
  end.

(** [s.replace(from, to)] with a one-character string pattern: the first
    occurrence only. *)
Fixpoint replace_first_char (from : N) (to : t) (s : t) : t :=
  match s with
  | [] => []
  | c :: r => if N.eqb c from then to ++ r else c :: replace_first_char from to r
  end.

(** [toUpperCase] on the ASCII letters. It is applied only to the tag a
    pattern captured, which consists of ASCII letters; other code units are
    left as they are. *)
Definition upper_char (c : N) : N :=
  if N.leb 97 c && N.leb c 122 then (c - 32)%N else c.

Definition toUpperCase (s : t) : t := map upper_char s.

(** [m] occurs in [r] as a contiguous substring. *)
Definition embeds (m r : t) : Prop := exists pre post, r = pre ++ m ++ post.

(** Decimal digits of a non-negative integer. *)
Fixpoint uint_chars (u : Decimal.uint) : t :=
  match u with
  | Decimal.Nil => []
  | Decimal.D0 r => 48%N :: uint_chars r
  | Decimal.D1 r => 49%N :: uint_chars r
  | Decimal.D2 r => 50%N :: uint_chars r
  | Decimal.D3 r => 51%N :: uint_chars r
  | Decimal.D4 r => 52%N :: uint_chars r
  | Decimal.D5 r => 53%N :: uint_chars r
  | Decimal.D6 r => 54%N :: uint_chars r
  | Decimal.D7 r => 55%N :: uint_chars r
  | Decimal.D8 r => 56%N :: uint_chars r
  | Decimal.D9 r => 57%N :: uint_chars r
  end.

Definition of_pos (p : positive) : t := uint_chars (Pos.to_uint p).

(** The decimal representation of an integer, as [String(n)] prints an
    integral Number below 10^21. *)
Definition of_Z (z : Z) : t :=
  match z with
  | Z0 => [48%N]
  | Zpos p => of_pos p
  | Zneg p => 45%N :: of_pos p
  end.

End JsString.

Definition jsstring : Type := JsString.t.

(* ===================================================================== *)
(** * Numbers: IEEE-754 binary64 *)
(* ===================================================================== *)

(** Every finite double is an integer multiple of 2^-1074 (the smallest
    subnormal) with at most 53 significant bits and magnitude below 2^1024.
    [Fin k] is the double of value [k * 2^-1074]; [Fin 0] is +0 and
    [NegZero] is -0. Order and equality of finite doubles are then order and
    equality of integers. *)

Module Number.

Open Scope Z_scope.

Inductive t : Type :=
| NaN
| Inf (neg : bool)
| NegZero
| Fin (k : Z).

(** Nearest integer to [n / d], ties to even ([0 <= n], [0 < d]). *)
Definition rne (n d : Z) : Z :=
  let q := n / d in
  match Z.compare (2 * (n mod d)) d with
  | Lt => q
  | Gt => q + 1
  | Eq => if Z.even q then q else q + 1
  end.

(** Round [n / d], counted in units of 2^-1074, to a representable
    magnitude: below 2^53 units the spacing is one unit (subnormals and the
    first binade), above it the spacing keeps 53 significant bits. [None] is
    overflow. *)
Definition round_mag (n d : Z) : option Z :=
  let q := n / d in
  let k := if q <? 2 ^ 53 then rne n d
           else let u := 2 ^ (Z.log2 q - 52) in rne n (d * u) * u in
  if k <? 2 ^ 2098 then Some k else None.

(** The Number value of the rational [n / d] with the sign [neg]
    (round to nearest, ties to even). *)
Definition of_ratio (neg : bool) (n d : Z) : t :=
  match round_mag (n * 2 ^ 1074) d with
  | None => Inf neg
  | Some 0 => if neg then NegZero else Fin 0
  | Some k => Fin (if neg then - k else k)
  end.

(** The Number value of [m * 10^e]. *)
Definition of_decimal (neg : bool) (m e : Z) : t :=
  if 0 <=? e then of_ratio neg (m * 10 ^ e) 1 else of_ratio neg m (10 ^ (- e)).

(** The Number value of the integer [z]. *)
Definition of_Z (z : Z) : t := of_ratio (z <? 0) (Z.abs z) 1.

(** The numeric literal [m / 10^f], e.g. [dec 123456 2] for [1234.56]. *)
Definition dec (m : Z) (f : nat) : t := of_decimal (m <? 0) (Z.abs m) (- Z.of_nat f).

Definition isNaN (x : t) : bool :=
  match x with NaN => true | _ => false end.

(** Finite numbers, in units of 2^-1074. *)
Definition units (x : t) : Z :=
  match x with Fin k => k | _ => 0 end.

(** [a < b] *)
Definition ltb (a b : t) : bool :=
  match a, b with
  | NaN, _ | _, NaN => false
  | Inf true, Inf true => false
  | Inf true, _ => true
  | _, Inf true => false
  | Inf false, _ => false
  | _, Inf false => true
  | _, _ => units a <? units b
  end.

(** [a > b] *)
Definition gtb (a b : t) : bool := ltb b a.

(** [a <= b] *)
Definition leb (a b : t) : bool :=
  match a, b with
  | NaN, _ | _, NaN => false
  | Inf true, _ => true
  | _, Inf true => false
  | _, Inf false => true
  | Inf false, _ => false
  | _, _ => units a <=? units b
  end.

(** [a >= b] *)
Definition geb (a b : t) : bool := leb b a.

(** SameValueZero, the equality of [Set]: NaN equals itself, +0 equals -0. *)
Definition sameValueZero (a b : t) : bool :=
  match a, b with
  | NaN, NaN => true
  | Inf s, Inf s' => Bool.eqb s s'
  | (NegZero | Fin _), (NegZero | Fin _) => units a =? units b
  | _, _ => false
  end.

(** The difference of two finite numbers given in units: exact, then
    rounded. *)
Definition sub_finite (x y : Z) : t :=
  let d := x - y in
  match round_mag (Z.abs d) 1 with
  | None => Inf (d <? 0)
  | Some k => Fin (if d <? 0 then - k else k)
  end.

(** [a - b] *)
Definition sub (a b : t) : t :=
  match a, b with
  | NaN, _ | _, NaN => NaN
  | Inf s, Inf s' => if Bool.eqb s s' then NaN else Inf s
  | Inf s, _ => Inf s
  | _, Inf s => Inf (negb s)
  | NegZero, Fin 0 => NegZero
  | _, _ => sub_finite (units a) (units b)
  end.

Definition zero : t := Fin 0.

(** ** Reading a number: [parseFloat] *)

Fixpoint span_digits (s : jsstring) : jsstring * jsstring :=
  match s with
  | c :: r =>
      if JsString.is_digit c then let (ds, r') := span_digits r in (c :: ds, r')
      else ([], s)
  | [] => ([], [])
  end.

Definition digits_value (ds : jsstring) : Z :=
  fold_left (fun acc c => acc * 10 + (Z.of_N c - 48)) ds 0.

(** An optional sign. *)
Definition take_sign (s : jsstring) : bool * jsstring :=
  match s with
  | c :: r =>
      if N.eqb c 45 then (true, r)
      else if N.eqb c 43 then (false, r) else (false, s)
  | [] => (false, s)
  end.

(** An optional point with the digits after it. *)
Definition take_fraction (s : jsstring) : jsstring * jsstring :=
  match s with
  | c :: r => if N.eqb c 46 then span_digits r else ([], s)
  | [] => ([], s)
  end.

(** ExponentPart: [e] or [E], an optional sign and at least one digit;
    anything else is no exponent. *)
Definition exponent_part (s : jsstring) : Z :=
  match s with
  | c :: r =>
      if N.eqb c 101 || N.eqb c 69 then
        let (neg, r1) := take_sign r in
        match fst (span_digits r1) with
        | [] => 0
        | ds => if neg then - digits_value ds else digits_value ds
        end
      else 0
  | [] => 0
  end.

(** [parseFloat(s)]: skip leading white space, then read the longest prefix
    that is a StrDecimalLiteral; NaN when there is none. *)
Definition parseFloat (s : jsstring) : t :=
  let (neg, s2) := take_sign (JsString.trimStart s) in
  if JsString.starts_with (JsString.str "Infinity") s2 then Inf neg
  else
    let (ip, s3) := span_digits s2 in
    let (fp, s4) := take_fraction s3 in
    match ip ++ fp with
    | [] => NaN
    | ds => of_decimal neg (digits_value ds)
              (exponent_part s4 - Z.of_nat (List.length fp))
    end.

(** ** Printing a number: [toFixed] *)

(** The digits of [n] with a decimal point before the last [f] of them
    (steps 8-10 of Number.prototype.toFixed). *)
Definition fixed_digits (n : Z) (f : nat) : jsstring :=
  let m := JsString.of_Z n in
  match f with
  | O => m
  | _ =>
      let m' := repeat 48%N (S f - List.length m) ++ m in
      let k := List.length m' in
      firstn (k - f) m' ++ 46%N :: skipn (k - f) m'
  end.

Fixpoint strip_zeros (rev_digits : jsstring) : jsstring :=
  match rev_digits with
  | 48%N :: r => strip_zeros r
  | _ => rev_digits
  end.

(** The shortest decimal [s * 10^e] whose Number value is the integer [X]
    (Number::toString, for a value of at least 10^21): the fewest digits
    first, the candidate nearest to [X] among those of the same length. *)
Fixpoint shortest_decimal (X n : Z) (fuel : nat) (k : Z) : Z * Z :=
  match fuel with
  | O => (X, 0)
  | S fuel' =>
      let unit := 10 ^ (n - k) in
      let lo := X / unit in
      let hi := lo + 1 in
      let ok c :=
        match of_ratio false (c * unit) 1 with
        | Fin v => (v =? X * 2 ^ 1074) && (10 ^ (k - 1) <=? c)
        | _ => false
        end in
      match ok lo, ok hi with
      | true, true =>
          match Z.compare (X - lo * unit) (hi * unit - X) with
          | Lt => (lo, n - k)
          | Gt => (hi, n - k)
          | Eq => (if Z.even lo then lo else hi, n - k)
          end
      | true, false => (lo, n - k)
      | false, true => (hi, n - k)
      | false, false => shortest_decimal X n fuel' (k + 1)
      end
  end.

(** [String(x)] for an integral [X >= 10^21]: exponential notation, the
    first digit, then the others (if any) after a point. *)
Definition toString_large (X : Z) : jsstring :=
  let n := Z.of_nat (List.length (JsString.of_Z X)) in
  let (s, e) := shortest_decimal X n 17 1 in
  let all := JsString.of_Z s in
  let ex := JsString.of_Z (Z.of_nat (List.length all) + e - 1) in
  match all with
  | d :: more =>
      d :: match rev (strip_zeros (rev more)) with
           | [] => []
           | frac => 46%N :: frac
           end ++ JsString.str "e+" ++ ex
  | [] => []
  end.

(** [x.toFixed(f)] *)
Definition toFixed (x : t) (f : nat) : jsstring :=
  match x with
  | NaN => JsString.str "NaN"
  | Inf neg => (if neg then JsString.str "-" else []) ++ JsString.str "Infinity"
  | NegZero => fixed_digits 0 f
  | Fin k =>
      let a := Z.abs k in
      (if k <? 0 then JsString.str "-" else []) ++
      (if 10 ^ 21 * 2 ^ 1074 <=? a then toString_large (a / 2 ^ 1074)
       else fixed_digits ((2 * a * 10 ^ Z.of_nat f + 2 ^ 1074) / 2 ^ 1075) f)
  end.

End Number.

Definition number : Type := Number.t.

(* ===================================================================== *)
(** * Regular expressions *)
(* ===================================================================== *)

(** A backtracking matcher in the style of the ECMAScript pattern semantics.
    [run r st] lists the states in which a match of [r] started at [st] can
    end, in the order in which a backtracking engine tries them: its head is
    the match the engine reports. The [i] flag is applied where a pattern is
    written down ([chari], [stri]); none of the patterns below has a group
    under a quantifier, so quantifiers need not reset captures. *)

Module RegExp.

Inductive regex : Type :=
| Eps
| Chr (p : N -> bool)
| Seq (a b : regex)
| Alt (a b : regex)
| Rep (a : regex) (min : nat) (max : option nat)
| Grp (i : nat) (a : regex)
| Bol.

Record mstate : Type := MState {
  pos : nat;
  rest : jsstring;
  caps : list (nat * jsstring)
}.

Definition set_cap (i : nat) (s : jsstring) (st : mstate) : mstate :=
  MState (pos st) (rest st) ((i, s) :: caps st).

(** Capture [i], when the group took part in the match. *)
Fixpoint lookup_cap (i : nat) (c : list (nat * jsstring)) : option jsstring :=
  match c with
  | [] => None
  | (j, s) :: c' => if Nat.eqb i j then Some s else lookup_cap i c'
  end.

Definition cap (i : nat) (st : mstate) : option jsstring := lookup_cap i (caps st).

(** Greedy quantifier [{min,max}] (RepeatMatcher): iterate first, stop
    second; once [min] is met an iteration that consumed nothing is
    rejected. *)
Fixpoint rep (step : mstate -> list mstate) (min : nat) (max : option nat)
    (fuel : nat) (st : mstate) : list mstate :=
  match fuel with
  | O => match min with O => [st] | S _ => [] end
  | S fuel' =>
      match max with
      | Some O => [st]
      | _ =>
          let more :=
            flat_map
              (fun st' =>
                 if Nat.eqb min 0 && Nat.eqb (pos st') (pos st) then []
                 else rep step (Nat.pred min) (option_map Nat.pred max) fuel' st')
              (step st) in
          match min with
          | O => more ++ [st]
          | S _ => more
          end
      end
  end.

Fixpoint run (r : regex) (st : mstate) : list mstate :=
  match r with
  | Eps => [st]
  | Chr p =>
      match rest st with
      | c :: t => if p c then [MState (S (pos st)) t (caps st)] else []
      | [] => []
      end
  | Seq a b => flat_map (run b) (run a st)
  | Alt a b => run a st ++ run b st
  | Rep a min max => rep (run a) min max (S (min + List.length (rest st))) st
  | Grp i a =>
      map (fun st' => set_cap i (firstn (pos st' - pos st) (rest st)) st')
          (run a st)
  | Bol => if Nat.eqb (pos st) 0 then [st] else []
  end.

(** ** Writing patterns down *)

Definition char (c : N) : regex := Chr (N.eqb c).

(** A letter under the [i] flag: either case. *)
Definition chari (c : N) : regex :=
  Chr (fun x => N.eqb (JsString.upper_char x) (JsString.upper_char c)).

Definition seq_of (f : N -> regex) (s : jsstring) : regex :=
  fold_right (fun c r => Seq (f c) r) Eps s.

Definition lit (s : string) : regex := seq_of char (JsString.str s).
Definition stri (s : string) : regex := seq_of chari (JsString.str s).

(** [\d], [\s] and a class [[...]] listing its members. *)
Definition digit : regex := Chr JsString.is_digit.
Definition space : regex := Chr JsString.is_space.
Definition one_of (cs : jsstring) : N -> bool :=
  fun x => existsb (N.eqb x) cs.

Definition star (a : regex) : regex := Rep a 0 None.
Definition plus (a : regex) : regex := Rep a 1 None.
Definition opt (a : regex) : regex := Rep a 0 (Some 1).
Definition range (a : regex) (lo hi : nat) : regex := Rep a lo (Some hi).
Definition exactly (a : regex) (n : nat) : regex := Rep a n (Some n).

Fixpoint seqs (rs : list regex) : regex :=
  match rs with
  | [] => Eps
  | [r] => r
  | r :: rs' => Seq r (seqs rs')
  end.

(** ** Matching against a string *)

(** A successful match: where it starts and ends, and its captures. *)
Record result : Type := Result {
  index : nat;
  matched : jsstring;
  groups : list (nat * jsstring)
}.

(** The match of [r] at position [i], where [s] is the subject from [i] on. *)
Definition match_at (r : regex) (i : nat) (s : jsstring) : option result :=
  match run r (MState i s []) with
  | st :: _ => Some (Result i (firstn (pos st - i) s) (caps st))
  | [] => None
  end.

Definition group (i : nat) (m : result) : option jsstring :=
  lookup_cap i (groups m).

(** All matches from left to right, as a [g] pattern yields them: after a
    match the search resumes where it ended (one further on when the match
    was empty). [s] is the subject from [i] on and [skip] the number of
    positions still covered by the last match. *)
Fixpoint scan (r : regex) (i skip : nat) (s : jsstring) : list result :=
  match skip with
  | S k =>
      match s with
      | [] => []
      | _ :: t => scan r (S i) k t
      end
  | O =>
      match match_at r i s with
      | Some m =>
          m :: match s with
               | [] => []
               | _ :: t => scan r (S i) (Nat.pred (List.length (matched m))) t
               end
      | None =>
          match s with
          | [] => []
          | _ :: t => scan r (S i) 0 t
          end
      end
  end.

Definition match_all (r : regex) (s : jsstring) : list result := scan r 0 0 s.

(** [s.match(r)] for a pattern without [g]: the leftmost match. *)
Definition exec (r : regex) (s : jsstring) : option result :=
  hd_error (match_all r s).

(** [s.match(r) || []] for a pattern with [g]: the matched substrings. *)
Definition match_g (r : regex) (s : jsstring) : list jsstring :=
  map matched (match_all r s).

(** [s.replace(r, '')] for a pattern with [g]: every match removed. *)
Fixpoint remove_scan (r : regex) (i skip : nat) (s : jsstring) : jsstring :=
  match skip with
  | S k =>
      match s with
      | [] => []
      | _ :: t => remove_scan r (S i) k t
      end
  | O =>
      match match_at r i s with
      | Some m =>
          match List.length (matched m), s with
          | _, [] => []
          | O, c :: t => c :: remove_scan r (S i) 0 t
          | S k, _ :: t => remove_scan r (S i) k t
          end
      | None =>
          match s with
          | [] => []
          | c :: t => c :: remove_scan r (S i) 0 t
          end
      end
  end.

Definition remove_all (r : regex) (s : jsstring) : jsstring := remove_scan r 0 0 s.

(** [s.replace(r, '')] for a pattern without [g]: the leftmost match removed. *)
Definition remove_first (r : regex) (s : jsstring) : jsstring :=
  match exec r s with
  | Some m => firstn (index m) s ++ skipn (index m + List.length (matched m)) s
  | None => s
  end.

End RegExp.

(* ===================================================================== *)
(** * Objects and arrays *)
(* ===================================================================== *)

(** An object with string keys: its own properties in insertion order.
    Assigning to a key that exists keeps the key where it is. *)

Module Obj.

Section WithValue.
Variable V : Type.

Definition t := list (jsstring * V).

Fixpoint get (k : jsstring) (o : t) : option V :=
  match o with
  | [] => None
  | (k', v) :: o' => if JsString.eqb k k' then Some v else get k o'
  end.

Fixpoint set (k : jsstring) (v : V) (o : t) : t :=
  match o with
  | [] => [(k, v)]
  | (k', v') :: o' =>
      if JsString.eqb k k' then (k', v) :: o' else (k', v') :: set k v o'
  end.

(** [Object.keys(o)] *)
Definition keys (o : t) : list jsstring := map fst o.

End WithValue.

End Obj.

(** [Array.prototype.sort(comparefn)], [new Set(array)] and [slice(0, n)]
    on arrays of numbers. *)

Module Arr.

(** SortCompare: a comparator result that is NaN counts as +0. *)
Definition sort_compare (comparefn : number -> number -> number) (x y : number) : number :=
  let v := comparefn x y in
  if Number.isNaN v then Number.zero else v.

(** The sort is stable: an element goes in front of the first one it
    compares below. With a consistent comparator every conforming sort
    produces this array. *)
Fixpoint insert (comparefn : number -> number -> number) (x : number)
    (l : list number) : list number :=
  match l with
  | [] => [x]
  | y :: l' =>
      if Number.ltb (sort_compare comparefn x y) Number.zero then x :: l
      else y :: insert comparefn x l'
  end.

Definition sort (comparefn : number -> number -> number) (l : list number) : list number :=
  fold_left (fun acc x => insert comparefn x acc) l [].

Definition set_has (x : number) (l : list number) : bool :=
  existsb (Number.sameValueZero x) l.

(** [Set.prototype.add] stores -0 as +0. *)
Definition set_key (x : number) : number :=
  match x with Number.NegZero => Number.zero | _ => x end.

Definition set_add (seen : list number) (x : number) : list number :=
  if set_has x seen then seen else set_key x :: seen.

(** [[...new Set(l)]]: the first occurrence of every value, in order
    ([seen] holds the latest addition first). *)
Definition dedupe (l : list number) : list number :=
  rev (fold_left set_add l []).

Definition slice0 (n : nat) (l : list number) : list number := firstn n l.

End Arr.

(* ===================================================================== *)
(** * OCR text parser: [parseOCRText] *)
(* ===================================================================== *)

Module OCR.

Import RegExp.

Record ExtractedData : Type := {
  priceLevels : list number;
  indicators : Obj.t number;
  labels : list jsstring;
  hasData : bool
}.

Record OCRResult : Type := {
  rawText : jsstring;
  extractedData : ExtractedData
}.

(** [[.,]] *)
Definition sep : regex := Chr (one_of (JsString.str ".,")).

(** [[\s:=]] *)
Definition label_gap : regex :=
  Chr (fun c => JsString.is_space c || one_of (JsString.str ":=") c).

(** [[$€£¥]] *)
Definition currency : N -> bool := one_of [36; 8364; 163; 165]%N.

(** [pricePatterns] *)
Definition pricePatterns : list regex :=
  [ (* /(\d{1,6}[.,]\d{2,5})/g *)
    Grp 1 (seqs [range digit 1 6; sep; range digit 2 5]);
    (* /(\d{1,3}(?:[.,]\d{3})*[.,]\d{2})/g *)
    Grp 1 (seqs [range digit 1 3; star (Seq sep (exactly digit 3)); sep;
                 exactly digit 2]);
    (* /([$€£¥]\s*(\d+[.,]\d+))/gi *)
    Grp 1 (seqs [Chr currency; star space;
                 Grp 2 (seqs [plus digit; sep; plus digit])]) ].

(** [/[$,€£¥\s]/g] *)
Definition price_noise : regex :=
  Chr (fun c => one_of [36; 44; 8364; 163; 165]%N c || JsString.is_space c).

(** [str.replace(',', '.')] *)
Definition comma_to_dot (s : jsstring) : jsstring :=
  JsString.replace_first_char 44 [46%N] s.

(** The body of [matches.forEach]: the price a matched substring stands
    for, if any. *)
Definition price_of_match (m : jsstring) : option number :=
  let clean := remove_all price_noise m in
  let normalized := comma_to_dot clean in
  let num := Number.parseFloat normalized in
  if negb (Number.isNaN num) && Number.gtb num Number.zero then
    let precision : nat :=
      if Number.ltb num (Number.of_Z 10) then 5
      else if Number.ltb num (Number.of_Z 1000) then 4 else 2 in
    let rounded := Number.parseFloat (Number.toFixed num precision) in
    Some rounded
  else None.

Definition keep_some {A} (l : list (option A)) : list A :=
  flat_map (fun o => match o with Some a => [a] | None => [] end) l.

(** [allPrices] after the two nested [forEach] loops. *)
Definition allPrices (text : jsstring) : list number :=
  flat_map (fun pattern => keep_some (map price_of_match (match_g pattern text)))
           pricePatterns.

(** [[...new Set(allPrices)].sort((a, b) => a - b).slice(0, 15)] *)
Definition extractPrices (text : jsstring) : list number :=
  Arr.slice0 15 (Arr.sort Number.sub (Arr.dedupe (allPrices text))).

(** [\d{1,3}(?:[.,]\d{1,2})?] and [\d{1,6}(?:[.,]\d{1,5})?] *)
Definition decimal_upto (ip fp : nat) : regex :=
  Seq (range digit 1 ip) (opt (Seq sep (range digit 1 fp))).

(** [rsiPatterns] *)
Definition rsiPatterns : list regex :=
  [ (* /RSI[\s:=]*(\d{1,3}(?:[.,]\d{1,2})?)/i *)
    seqs [stri "RSI"; star label_gap; Grp 1 (decimal_upto 3 2)];
    (* /Relative Strength Index[\s:=]*(\d{1,3}(?:[.,]\d{1,2})?)/i *)
    seqs [stri "Relative Strength Index"; star label_gap;
          Grp 1 (decimal_upto 3 2)] ].

(** [/MACD[\s:=]*([-]?\d{1,6}(?:[.,]\d{1,5})?)/i] *)
Definition macdPattern : regex :=
  seqs [stri "MACD"; star label_gap;
        Grp 1 (Seq (opt (char 45)) (decimal_upto 6 5))].

(** [/(MA|SMA|EMA)[\s:=]*(\d{1,6}(?:[.,]\d{1,5})?)/gi] *)
Definition maPattern : regex :=
  seqs [Grp 1 (Alt (stri "MA") (Alt (stri "SMA") (stri "EMA")));
        star label_gap; Grp 2 (decimal_upto 6 5)].

(** A capture that is present and not the empty string ([m && m[i]]). *)
Definition truthy_group (i : nat) (m : option result) : option jsstring :=
  match m with
  | Some r =>
      match group i r with
      | Some ((_ :: _) as g) => Some g
      | _ => None
      end
  | None => None
  end.

(** What one pass of the [for (const pattern of rsiPatterns)] body finds:
    the value to record, when the pattern matches with a value in
    [0, 100]. *)
Definition rsi_of_pattern (text : jsstring) (pattern : regex) : option number :=
  match truthy_group 1 (exec pattern text) with
  | Some g =>
      let value := Number.parseFloat (comma_to_dot g) in
      if negb (Number.isNaN value) && Number.geb value Number.zero
         && Number.leb value (Number.of_Z 100)
      then Some value else None
  | None => None
  end.

(** The loop over [rsiPatterns], with its [break]. *)
Fixpoint extractRSI (text : jsstring) (patterns : list regex)
    (ind : Obj.t number) : Obj.t number :=
  match patterns with
  | [] => ind
  | pattern :: more =>
      match rsi_of_pattern text pattern with
      | Some value => Obj.set (JsString.str "RSI") value ind
      | None => extractRSI text more ind
      end
  end.

Definition extractMACD (text : jsstring) (ind : Obj.t number) : Obj.t number :=
  match truthy_group 1 (exec macdPattern text) with
  | Some g =>
      let value := Number.parseFloat (comma_to_dot g) in
      if negb (Number.isNaN value) then Obj.set (JsString.str "MACD") value ind
      else ind
  | None => ind
  end.

(** The body of the [while ((maMatch = maPattern.exec(text)) !== null)]
    loop. Captures 1 and 2 take part in every match of [maPattern]. *)
Definition recordMA (ind : Obj.t number) (maMatch : result) : Obj.t number :=
  match group 1 maMatch, group 2 maMatch with
  | Some g1, Some g2 =>
      let type := JsString.toUpperCase g1 in
      let value := Number.parseFloat (comma_to_dot g2) in
      if negb (Number.isNaN value) then Obj.set type value ind else ind
  | _, _ => ind
  end.

(** Successive [exec] calls on a [g] pattern walk the matches from left to
    right; [maPattern] never matches the empty string, so the walk ends. *)
Definition extractMAs (text : jsstring) (ind : Obj.t number) : Obj.t number :=
  fold_left recordMA (match_all maPattern text) ind.

(** [parseOCRText(text)]. No operation of the [try] block throws on a string
    argument, so its [catch] handler is never entered. *)
Definition parseOCRText (text : jsstring) : OCRResult :=
  let prices := extractPrices text in
  let ind := extractMAs text (extractMACD text (extractRSI text rsiPatterns [])) in
  {| rawText := JsString.substring0 1500 text;
     extractedData :=
       {| priceLevels := prices;
          indicators := ind;
          labels := [];
          hasData :=
            Nat.ltb 0 (List.length prices)
            || Nat.ltb 0 (List.length (Obj.keys ind)) |} |}.

End OCR.

(* ===================================================================== *)
(** * Values and [JSON.parse] *)
(* ===================================================================== *)

Module Js.

Inductive value : Type :=
| Undefined
| Null
| Bool (b : bool)
| Num (n : number)
| Str (s : jsstring)
| Arr (l : list value)
| Object (o : list (jsstring * value)).

(** ToBoolean *)
Definition truthy (v : value) : bool :=
  match v with
  | Undefined | Null => false
  | Bool b => b
  | Num n =>
      match n with
      | Number.NaN | Number.NegZero => false
      | Number.Fin k => negb (Z.eqb k 0)
      | Number.Inf _ => true
      end
  | Str s => match s with [] => false | _ => true end
  | Arr _ | Object _ => true
  end.

(** Reading the property [k] of [v], for the property names this service
    reads ([choices], [message], [content], [usage], [decision], ...): none
    of them is defined on a built-in prototype, so only an object can have
    one. [None] is the TypeError of reading a property of [undefined] or
    [null]. *)
Definition get_prop (k : jsstring) (v : value) : option value :=
  match v with
  | Undefined | Null => None
  | Object o => Some (match Obj.get k o with Some x => x | None => Undefined end)
  | _ => Some Undefined
  end.

(** Reading the element [v[i]]. *)
Definition get_index (i : nat) (v : value) : option value :=
  match v with
  | Undefined | Null => None
  | Arr l => Some (nth i l Undefined)
  | Str s => Some (match nth_error s i with Some c => Str [c] | None => Undefined end)
  | Object o =>
      Some (match Obj.get (JsString.of_Z (Z.of_nat i)) o with
            | Some x => x
            | None => Undefined
            end)
  | _ => Some Undefined
  end.

(** ** JSON text *)

Definition is_json_ws (c : N) : bool :=
  N.eqb c 32 || N.eqb c 9 || N.eqb c 10 || N.eqb c 13.

Fixpoint skip_ws (s : jsstring) : jsstring :=
  match s with
  | c :: r => if is_json_ws c then skip_ws r else s
  | [] => []
  end.

Definition hex_digit (c : N) : option N :=
  if N.leb 48 c && N.leb c 57 then Some (c - 48)%N
  else if N.leb 65 c && N.leb c 70 then Some (c - 55)%N
  else if N.leb 97 c && N.leb c 102 then Some (c - 87)%N
  else None.

(** The characters of a string literal after its opening quote. *)
Fixpoint parse_chars (fuel : nat) (s : jsstring) (acc : jsstring)
    : option (jsstring * jsstring) :=
  match fuel with
  | O => None
  | S fuel' =>
      match s with
      | [] => None
      | 34%N :: r => Some (rev acc, r)
      | 92%N :: e :: r =>
          let simple c := parse_chars fuel' r (c :: acc) in
          if N.eqb e 34 then simple 34%N
          else if N.eqb e 92 then simple 92%N
          else if N.eqb e 47 then simple 47%N
          else if N.eqb e 98 then simple 8%N
          else if N.eqb e 102 then simple 12%N
          else if N.eqb e 110 then simple 10%N
          else if N.eqb e 114 then simple 13%N
          else if N.eqb e 116 then simple 9%N
          else if N.eqb e 117 then
            match r with
            | a :: b :: c :: d :: r' =>
                match hex_digit a, hex_digit b, hex_digit c, hex_digit d with
                | Some a', Some b', Some c', Some d' =>
                    parse_chars fuel' r'
                      ((((a' * 16 + b') * 16 + c') * 16 + d')%N :: acc)
                | _, _, _, _ => None
                end
            | _ => None
            end
          else None
      | c :: r => if N.ltb c 32 then None else parse_chars fuel' r (c :: acc)
      end
  end.

Definition parse_string (s : jsstring) : option (jsstring * jsstring) :=
  parse_chars (S (List.length s)) s [].

(** A number: [-? (0 | [1-9] digits) (. digits)? ([eE] [+-]? digits)?]. *)
Definition parse_number (s : jsstring) : option (number * jsstring) :=
  let (neg, s1) := match s with 45%N :: r => (true, r) | _ => (false, s) end in
  let (ip, s2) := Number.span_digits s1 in
  let int_ok :=
    match ip with
    | [] => false
    | 48%N :: _ :: _ => false
    | _ => true
    end in
  if negb int_ok then None
  else
    let frac :=
      match s2 with
      | 46%N :: r =>
          match Number.span_digits r with
          | ([], _) => None
          | (fp, s3) => Some (fp, s3)
          end
      | _ => Some ([], s2)
      end in
    match frac with
    | None => None
    | Some (fp, s3) =>
        let mant := Number.digits_value (ip ++ fp) in
        let scale := Z.of_nat (List.length fp) in
        match s3 with
        | c :: r =>
            if N.eqb c 101 || N.eqb c 69 then
              let (eneg, r1) :=
                match r with
                | 45%N :: r1 => (true, r1)
                | 43%N :: r1 => (false, r1)
                | _ => (false, r)
                end in
              match Number.span_digits r1 with
              | ([], _) => None
              | (ds, s4) =>
                  let e := Number.digits_value ds in
                  Some (Number.of_decimal neg mant
                          ((if eneg then (- e)%Z else e) - scale)%Z, s4)
              end
            else Some (Number.of_decimal neg mant (- scale)%Z, s3)
        | [] => Some (Number.of_decimal neg mant (- scale)%Z, s3)
        end
    end.

(** The elements of an array after the first, up to the closing bracket. *)
Fixpoint parse_elements (pv : jsstring -> option (value * jsstring))
    (fuel : nat) (s : jsstring) (acc : list value)
    : option (list value * jsstring) :=
  match fuel with
  | O => None
  | S fuel' =>
      match skip_ws s with
      | 93%N :: r => Some (rev acc, r)
      | 44%N :: r =>
          match pv r with
          | Some (v, r') => parse_elements pv fuel' r' (v :: acc)
          | None => None
          end
      | _ => None
      end
  end.

(** One member [ "key" : value ] of an object. *)
Definition parse_member (pv : jsstring -> option (value * jsstring))
    (s : jsstring) : option ((jsstring * value) * jsstring) :=
  match skip_ws s with
  | 34%N :: r =>
      match parse_string r with
      | Some (k, r1) =>
          match skip_ws r1 with
          | 58%N :: r2 =>
              match pv r2 with
              | Some (v, r3) => Some ((k, v), r3)
              | None => None
              end
          | _ => None
          end
      | None => None
      end
  | _ => None
  end.

(** An array index: the canonical decimal form of an integer below
    2^32 - 1. An object lists the properties with such keys first, in
    ascending order, and the others after them in the order in which they
    were created. *)
Definition array_index (k : jsstring) : option Z :=
  match k with
  | [] => None
  | [c] => if JsString.is_digit c then Some (Number.digits_value [c]) else None
  | c :: _ =>
      if N.eqb c 48 then None
      else if forallb JsString.is_digit k then
        let n := Number.digits_value k in
        if (n <? 4294967295)%Z then Some n else None
      else None
  end.

(** Where a new property with the array index [n] goes. *)
Fixpoint insert_index (n : Z) (k : jsstring) (v : value)
    (o : list (jsstring * value)) : list (jsstring * value) :=
  match o with
  | [] => [(k, v)]
  | (k', v') :: o' =>
      match array_index k' with
      | Some n' =>
          if (n' <? n)%Z then (k', v') :: insert_index n k v o' else (k, v) :: o
      | None => (k, v) :: o
      end
  end.

(** CreateDataProperty on the object that [JSON.parse] builds: a repeated
    key keeps its place and takes the later value, a new array index goes
    among the indices and any other new key to the end. *)
Definition define (k : jsstring) (v : value) (o : list (jsstring * value))
    : list (jsstring * value) :=
  match Obj.get k o, array_index k with
  | None, Some n => insert_index n k v o
  | _, _ => Obj.set k v o
  end.

(** The members of an object after the first, up to the closing brace. *)
Fixpoint parse_members (pv : jsstring -> option (value * jsstring))
    (fuel : nat) (s : jsstring) (acc : list (jsstring * value))
    : option (list (jsstring * value) * jsstring) :=
  match fuel with
  | O => None
  | S fuel' =>
      match skip_ws s with
      | 125%N :: r => Some (acc, r)
      | 44%N :: r =>
          match parse_member pv r with
          | Some ((k, v), r') => parse_members pv fuel' r' (define k v acc)
          | None => None
          end
      | _ => None
      end
  end.

(** A JSON value, with white space allowed in front of it. The nesting
    depth and the number of elements of a text are below its length, which
    bounds the fuel. *)
Fixpoint parse_value (fuel : nat) (s : jsstring) : option (value * jsstring) :=
  match fuel with
  | O => None
  | S fuel' =>
      let n := List.length s in
      match skip_ws s with
      | 123%N :: r =>
          match skip_ws r with
          | 125%N :: r' => Some (Object [], r')
          | _ =>
              match parse_member (parse_value fuel') r with
              | Some ((k, v), r') =>
                  match parse_members (parse_value fuel') n r' [(k, v)] with
                  | Some (o, r'') => Some (Object o, r'')
                  | None => None
                  end
              | None => None
              end
          end
      | 91%N :: r =>
          match skip_ws r with
          | 93%N :: r' => Some (Arr [], r')
          | _ =>
              match parse_value fuel' r with
              | Some (v, r') =>
                  match parse_elements (parse_value fuel') n r' [v] with
                  | Some (l, r'') => Some (Arr l, r'')
                  | None => None
                  end
              | None => None
              end
          end
      | 34%N :: r =>
          match parse_string r with
          | Some (str, r') => Some (Str str, r')
          | None => None
          end
      | (_ :: _) as s' =>
          if JsString.starts_with (JsString.str "true") s' then Some (Bool true, skipn 4 s')
          else if JsString.starts_with (JsString.str "false") s' then Some (Bool false, skipn 5 s')
          else if JsString.starts_with (JsString.str "null") s' then Some (Null, skipn 4 s')
          else
            match parse_number s' with
            | Some (x, r') => Some (Num x, r')
            | None => None
            end
      | [] => None
      end
  end.

(** [JSON.parse(text)]; [None] is its SyntaxError. *)
Definition JSON_parse (text : jsstring) : option value :=
  match parse_value (S (List.length text)) text with
  | Some (v, r) => match skip_ws r with [] => Some v | _ => None end
  | None => None
  end.

End Js.

(* ===================================================================== *)
(** * [config/constants.js] *)
(* ===================================================================== *)

Module Constants.

Import JsString.

Definition TRADING_PAIRS : list jsstring :=
  [str "XAUUSD"; str "EURUSD"; str "BTCUSD"; str "GBPUSD"; str "USDJPY";
   str "ETHUSD"; str "US30"; str "NAS100"].

(** [MESSAGES.DISCLAIMER]; it opens with U+26A0 U+FE0F. *)
Definition DISCLAIMER : jsstring :=
  [9888; 65039]%N ++
  str " This is AI-generated analysis for educational purposes only. Trading involves substantial risk of loss. Past performance is not indicative of future results.".

Definition OCR_LANGUAGE : jsstring := str "eng".

End Constants.

(* ===================================================================== *)
(** * The service: [DeepSeekService] *)
(* ===================================================================== *)

Module Service.

Import JsString.

(** A thrown [Error]; the service reads nothing of it but its message. *)
Record Error : Type := mkError { message : jsstring }.

Definition bytes : Type := list N.

(** ** What lies outside the service *)

(** The calls made on a [sharp] instance, and an instance as the input
    buffer with the operations queued on it. [Resize w h] is
    [resize(w, h, { fit: 'inside', withoutEnlargement: true })]. *)
Inductive SharpOp : Type :=
| Resize (w h : Z)
| Grayscale
| Normalise
| Sharpen (sigma : Z)
| Median (size : Z).

Definition Pipeline : Type := (bytes * list SharpOp)%type.

Record ImageInfo : Type := {
  width : option Z;
  height : option Z
}.

(** What [generateTradingPrompt] interpolates into its fixed template; the
    rendered text is a function of these. *)
Record Prompt : Type := {
  p_symbol : jsstring;
  p_timeframe : jsstring;
  p_tradeType : jsstring;
  p_currentTime : jsstring;
  p_data : OCR.ExtractedData;
  p_extraNotes : option jsstring
}.

(** The engine, the clock and the three libraries ([sharp], [tesseract.js],
    [axios]), each as the outcome of the calls the service makes on it.
    [inl] and [Some e] are a thrown error or a rejected promise. *)
Record Runtime : Type := {
  (** message of the SyntaxError that [JSON.parse] throws on a text *)
  syntaxErrorMessage : jsstring -> jsstring;
  (** message of the TypeError raised by using property [k] of a value
      that has none *)
  typeErrorMessage : jsstring -> jsstring;
  (** successive readings of the clock, in milliseconds *)
  clock : nat -> Z;
  toISOString : Z -> jsstring;
  (** [sharp(buffer).metadata()] *)
  sharp_metadata : bytes -> Error + ImageInfo;
  (** queueing an operation on an instance *)
  sharp_op : SharpOp -> Pipeline -> option Error;
  (** [instance.toBuffer()] *)
  sharp_toBuffer : Pipeline -> Error + bytes;
  (** [createWorker(lang)], by the number of sessions opened before *)
  createWorker : jsstring -> nat -> option Error;
  worker_setParameters : nat -> option Error;
  worker_recognize : nat -> bytes -> Error + jsstring;
  (** [worker.terminate()], by the number of earlier calls on that worker *)
  worker_terminate : nat -> nat -> option Error;
  (** [client.post('/chat/completions', ...)], giving [response.data] *)
  client_post : Prompt -> Error + Js.value
}.

(** ** State and exceptions *)

(** What happens to OCR sessions: a session is opened, or [terminate] is
    called on one and returns ([completed]) or throws. *)
Inductive Event : Type :=
| Acquired (worker : nat)
| Terminate (worker : nat) (completed : bool).

Record World : Type := {
  requestCount : Z;
  clockReads : nat;
  trace : list Event
}.

(** A computation may throw, and what it did to the world before stays
    done. *)
Definition M (A : Type) : Type := World -> (Error + A) * World.

Definition ret {A} (a : A) : M A := fun w => (inr a, w).

Definition throw {A} (e : Error) : M A := fun w => (inl e, w).

Definition bind {A B} (c : M A) (k : A -> M B) : M B :=
  fun w =>
    match c w with
    | (inr a, w') => k a w'
    | (inl e, w') => (inl e, w')
    end.

(** [try { body } catch (error) { handler }] *)
Definition try_catch {A} (body : M A) (handler : Error -> M A) : M A :=
  fun w =>
    match body w with
    | (inr a, w') => (inr a, w')
    | (inl e, w') => handler e w'
    end.

(** The outcome of a call that leaves the world as it is. *)
Definition lift {A} (r : Error + A) : M A := fun w => (r, w).

Definition lift_unit (r : option Error) : M unit :=
  fun w => (match r with Some e => inl e | None => inr tt end, w).

Declare Scope service_scope.
Delimit Scope service_scope with service.
Notation "x <- c ;; k" := (bind c (fun x => k))
  (at level 61, c at next level, right associativity) : service_scope.
Notation "c ;;; k" := (bind c (fun _ => k))
  (at level 61, right associativity) : service_scope.
Local Open Scope service_scope.

(** How many times [terminate] was called on a worker, and how many of the
    calls returned. *)
Fixpoint terminate_calls (worker : nat) (tr : list Event) : nat :=
  match tr with
  | [] => 0
  | Terminate w' _ :: tr' =>
      (if Nat.eqb w' worker then 1 else 0) + terminate_calls worker tr'
  | Acquired _ :: tr' => terminate_calls worker tr'
  end.

Fixpoint terminations (worker : nat) (tr : list Event) : nat :=
  match tr with
  | [] => 0
  | Terminate w' true :: tr' =>
      (if Nat.eqb w' worker then 1 else 0) + terminations worker tr'
  | _ :: tr' => terminations worker tr'
  end.

(** Sessions opened so far; the next one gets this number. *)
Fixpoint acquisitions (tr : list Event) : nat :=
  match tr with
  | [] => 0
  | Acquired _ :: tr' => S (acquisitions tr')
  | Terminate _ _ :: tr' => acquisitions tr'
  end.

Definition log (ev : Event) (w : World) : World :=
  {| requestCount := requestCount w; clockReads := clockReads w;
     trace := ev :: trace w |}.

(** The world after one more reading of the clock. *)
Definition tick (w : World) : World :=
  {| requestCount := requestCount w; clockReads := S (clockReads w);
     trace := trace w |}.

Section WithRuntime.

Variable rt : Runtime.

(** [Date.now()] *)
Definition Date_now : M Z :=
  fun w => (inr (clock rt (clockReads w)), tick w).

(** [new Date().toISOString()] *)
Definition timestamp_now : M jsstring :=
  t <- Date_now ;; ret (toISOString rt t).

(** [++this.requestCount] (exact while the count is below 2^53) *)
Definition next_request_id : M Z :=
  fun w =>
    let n := (requestCount w + 1)%Z in
    (inr n, {| requestCount := n; clockReads := clockReads w; trace := trace w |}).

(** ** [preprocessImage] *)

Definition exceeds_2000 (d : option Z) : bool :=
  match d with Some z => (2000 <? z)%Z | None => false end.

Definition queue (op : SharpOp) (p : Pipeline) : M Pipeline :=
  lift_unit (sharp_op rt op p) ;;; ret (fst p, snd p ++ [op]).

Definition preprocessImage_try (imageBuffer : bytes) : M bytes :=
  imageInfo <- lift (sharp_metadata rt imageBuffer) ;;
  let processed : Pipeline := (imageBuffer, []) in
  processed <- (if exceeds_2000 (width imageInfo) || exceeds_2000 (height imageInfo)
                then queue (Resize 2000 2000) processed
                else ret processed) ;;
  processed <- queue Grayscale processed ;;
  processed <- queue Normalise processed ;;
  processed <- queue (Sharpen 1) processed ;;
  processed <- queue (Median 1) processed ;;
  lift (sharp_toBuffer rt processed).

Definition preprocessImage (imageBuffer : bytes) : M bytes :=
  try_catch (preprocessImage_try imageBuffer)
            (fun error => ret imageBuffer).

(** ** [extractChartDataWithOCR] *)

Definition OCR_createWorker (lang : jsstring) : M nat :=
  fun w =>
    let id := acquisitions (trace w) in
    match createWorker rt lang id with
    | Some e => (inl e, w)
    | None => (inr id, log (Acquired id) w)
    end.

Definition OCR_terminate (worker : nat) : M unit :=
  fun w =>
    match worker_terminate rt worker (terminate_calls worker (trace w)) with
    | Some e => (inl e, log (Terminate worker false) w)
    | None => (inr tt, log (Terminate worker true) w)
    end.

(** The result of the [catch] block. *)
Definition emptyOCRResult : OCR.OCRResult :=
  {| OCR.rawText := [];
     OCR.extractedData :=
       {| OCR.priceLevels := []; OCR.indicators := []; OCR.labels := [];
          OCR.hasData := false |} |}.

(** The statements of the [try] block during which [worker] holds the
    session. *)
Definition with_worker (worker : nat) (imageBuffer : bytes) : M jsstring :=
  lift_unit (worker_setParameters rt worker) ;;;
  text <- lift (worker_recognize rt worker imageBuffer) ;;
  OCR_terminate worker ;;;
  ret text.

(** [worker] is [null] until [createWorker] has returned and again once the
    first [terminate] has; in between, the [catch] block finds it set and
    terminates it, ignoring what that call throws. *)
Definition extractChartDataWithOCR (imageBuffer : bytes) : M OCR.OCRResult :=
  try_catch
    (worker <- OCR_createWorker Constants.OCR_LANGUAGE ;;
     text <- try_catch (with_worker worker imageBuffer)
               (fun error =>
                  try_catch (OCR_terminate worker) (fun _ => ret tt) ;;;
                  throw error) ;;
     ret (OCR.parseOCRText text))
    (fun error => ret emptyOCRResult).

(** ** [getFallbackAnalysis] *)

(** [a || b] on strings *)
Definition or_else (a b : jsstring) : jsstring :=
  match a with [] => b | _ => a end.

Definition field (k : string) (v : Js.value) : jsstring * Js.value := (str k, v).
Definition text (s : string) : Js.value := Js.Str (str s).

Definition fallback_reason (error : Error) : jsstring :=
  str "Technical analysis failed: "
  ++ or_else (message error) (str "Insufficient or unclear chart data")
  ++ str ". Please upload a clearer screenshot with visible price levels.".

(** The object literal that [getFallbackAnalysis] returns, given the
    reading of the clock in its [error] block. *)
Definition fallback_object (error : Error) (requestId : Z) (timestamp : jsstring)
    : Js.value :=
  Js.Object
    [ field "vision_summary" (Js.Object
        [ field "trend_structure" (text "Analysis failed");
          field "trend_confidence" (text "low");
          field "support_zone" (Js.Object
            [ field "level" (text "N/A");
              field "description" (text "Technical analysis incomplete");
              field "confidence" (text "low") ]);
          field "resistance_zone" (Js.Object
            [ field "level" (text "N/A");
              field "description" (text "Technical analysis incomplete");
              field "confidence" (text "low") ]);
          field "rsi" (Js.Object
            [ field "approx_value" (text "N/A");
              field "status" (text "unknown");
              field "divergence" (Js.Bool false) ]);
          field "macd" (Js.Object
            [ field "cross" (text "unknown");
              field "histogram" (text "unknown");
              field "momentum" (text "unknown") ]);
          field "key_notes" (text "Unable to complete technical analysis. Please ensure chart image is clear, well-lit, and contains visible price/indicator data.") ]);
      field "decision" (Js.Object
        [ field "action" (text "HOLD");
          field "entry" (text "N/A");
          field "sl" (text "N/A");
          field "tp1" (text "N/A");
          field "tp2" (text "N/A");
          field "probability" (text "0%");
          field "risk_reward" (text "N/A");
          field "reason" (Js.Str (fallback_reason error));
          field "invalid_if" (text "N/A") ]);
      field "risk_assessment" (Js.Object
        [ field "level" (text "high");
          field "recommended_position" (text "none");
          field "timeframe_suitability" (text "poor") ]);
      field "error" (Js.Object
        [ field "message" (Js.Str (or_else (message error) (str "Analysis failed")));
          field "requestId" (Js.Num (Number.of_Z requestId));
          field "timestamp" (Js.Str timestamp) ]) ].

Definition getFallbackAnalysis (symbol timeframe tradeType : jsstring)
    (error : Error) (requestId : Z) : M Js.value :=
  timestamp <- timestamp_now ;;
  ret (fallback_object error requestId timestamp).

(** ** [parseAIResponse] *)

(** [v.k], throwing the TypeError when [v] is [undefined] or [null]. *)
Definition read (k : string) (v : Js.value) : Error + Js.value :=
  match Js.get_prop (str k) v with
  | Some x => inr x
  | None => inl (mkError (typeErrorMessage rt (str k)))
  end.

Definition read_index (i : nat) (v : Js.value) : Error + Js.value :=
  match Js.get_index i v with
  | Some x => inr x
  | None => inl (mkError (typeErrorMessage rt (JsString.of_Z (Z.of_nat i))))
  end.

Definition and_then {A B} (r : Error + A) (k : A -> Error + B) : Error + B :=
  match r with
  | inr a => k a
  | inl e => inl e
  end.

Notation "x <-- r ; k" := (and_then r (fun x => k))
  (at level 61, r at next level, right associativity).

(** [content.replace(/```json\s*/gi, '').replace(/```\s*/gi, '')
           .replace(/^json\s*/i, '').trim()] *)
Definition clean_content (content : jsstring) : jsstring :=
  let fence_json := RegExp.Seq (RegExp.stri "```json") (RegExp.star RegExp.space) in
  let fence := RegExp.Seq (RegExp.stri "```") (RegExp.star RegExp.space) in
  let tag := RegExp.seqs [RegExp.Bol; RegExp.stri "json"; RegExp.star RegExp.space] in
  trim (RegExp.remove_first tag
          (RegExp.remove_all fence (RegExp.remove_all fence_json content))).

(** [content.replace] exists on a string only. *)
Definition as_string (k : string) (v : Js.value) : Error + jsstring :=
  match v with
  | Js.Str s => inr s
  | _ => inl (mkError (typeErrorMessage rt (str k)))
  end.

Definition JSON_parse (s : jsstring) : Error + Js.value :=
  match Js.JSON_parse s with
  | Some v => inr v
  | None => inl (mkError (syntaxErrorMessage rt s))
  end.

(** [parsedData.k = v]. It runs after the structure check, which only an
    object passes. *)
Definition assign (k : string) (v : Js.value) (target : Js.value) : Js.value :=
  match target with
  | Js.Object o => Js.Object (Obj.set (str k) v o)
  | _ => target
  end.

Definition invalid_structure : Error :=
  mkError (str "Invalid response structure from AI").

(** The [try] block of [parseAIResponse]. *)
Definition parseAIResponse_try (apiResponse : Js.value) : Error + Js.value :=
  choices <-- read "choices" apiResponse ;
  choice <-- read_index 0 choices ;
  msg <-- read "message" choice ;
  content <-- read "content" msg ;
  usage0 <-- read "usage" apiResponse ;
  let usage := if Js.truthy usage0 then usage0 else Js.Object [] in
  content <-- as_string "replace" content ;
  let cleanedContent := clean_content content in
  parsedData <-- JSON_parse cleanedContent ;
  decision <-- read "decision" parsedData ;
  if negb (Js.truthy decision) then inl invalid_structure
  else
    vision_summary <-- read "vision_summary" parsedData ;
    if negb (Js.truthy vision_summary) then inl invalid_structure
    else
      prompt_tokens <-- read "prompt_tokens" usage ;
      completion_tokens <-- read "completion_tokens" usage ;
      total_tokens <-- read "total_tokens" usage ;
      let parsedData := assign "disclaimer" (Js.Str Constants.DISCLAIMER) parsedData in
      let parsedData := assign "api_usage" (Js.Object
            [ field "prompt_tokens" prompt_tokens;
              field "completion_tokens" completion_tokens;
              field "total_tokens" total_tokens ]) parsedData in
      inr parsedData.

Definition parseAIResponse (apiResponse : Js.value) (requestId : Z) : M Js.value :=
  try_catch (lift (parseAIResponse_try apiResponse))
    (fun error =>
       getFallbackAnalysis (str "Unknown") (str "Unknown") (str "Unknown")
         error requestId).

(** ** [analyzeWithAI] *)

Definition generateTradingPrompt (ocrData : OCR.OCRResult)
    (symbol timeframe tradeType : jsstring) (extraNotes : option jsstring)
    : M Prompt :=
  currentTime <- timestamp_now ;;
  ret {| p_symbol := symbol; p_timeframe := timeframe; p_tradeType := tradeType;
         p_currentTime := currentTime; p_data := OCR.extractedData ocrData;
         p_extraNotes := extraNotes |}.

Definition analyzeWithAI (ocrData : OCR.OCRResult)
    (symbol timeframe tradeType : jsstring) (extraNotes : option jsstring)
    (requestId : Z) : M Js.value :=
  prompt <- generateTradingPrompt ocrData symbol timeframe tradeType extraNotes ;;
  try_catch
    (data <- lift (client_post rt prompt) ;;
     parseAIResponse data requestId)
    (fun error => throw (mkError (str "AI service error: " ++ message error))).

(** ** [analyzeTradingChart] *)

Record AnalysisRequest : Type := {
  imageBuffer : option bytes;
  symbol : jsstring;
  timeframe : jsstring;
  tradeType : jsstring;
  extraNotes : option jsstring
}.

(** [constants.TRADING_PAIRS.includes(symbol)] *)
Definition is_trading_pair (symbol : jsstring) : bool :=
  existsb (JsString.eqb symbol) Constants.TRADING_PAIRS.

(** The own properties copied by [{...v}]. *)
Definition spread (v : Js.value) : list (jsstring * Js.value) :=
  match v with
  | Js.Object o => o
  | Js.Arr l =>
      map (fun iv => (JsString.of_Z (Z.of_nat (fst iv)), snd iv))
          (combine (seq 0 (List.length l)) l)
  | Js.Str s =>
      map (fun ic => (JsString.of_Z (Z.of_nat (fst ic)), Js.Str [snd ic]))
          (combine (seq 0 (List.length s)) s)
  | _ => []
  end.

(** The [metadata] block of a result that came back from [analyzeWithAI]. *)
Definition metadata (req : AnalysisRequest) (requestId processingTime : Z)
    (timestamp : jsstring) : Js.value :=
  Js.Object
    [ field "requestId" (Js.Num (Number.of_Z requestId));
      field "processingTime" (Js.Str (JsString.of_Z processingTime ++ str "ms"));
      field "apiProvider" (text "DeepSeek");
      field "symbol" (Js.Str (symbol req));
      field "timeframe" (Js.Str (timeframe req));
      field "tradeType" (Js.Str (tradeType req));
      field "timestamp" (Js.Str timestamp);
      field "version" (text "1.0.0") ].

(** The two checks under [// Validate inputs], giving the buffer. *)
Definition validate_inputs (req : AnalysisRequest) : M bytes :=
  image <- match imageBuffer req with
           | Some ((_ :: _) as buffer) => ret buffer
           | _ => throw (mkError (str "Empty image buffer"))
           end ;;
  (if negb (is_trading_pair (symbol req))
   then throw (mkError (str "Invalid symbol: " ++ symbol req))
   else ret tt) ;;;
  ret image.

(** The [try] block of [analyzeTradingChart]. *)
Definition analyzeTradingChart_try (req : AnalysisRequest)
    (requestId startTime : Z) : M Js.value :=
  image <- validate_inputs req ;;
  processedImage <- preprocessImage image ;;
  ocrData <- extractChartDataWithOCR processedImage ;;
  analysisResult <- analyzeWithAI ocrData (symbol req) (timeframe req)
                      (tradeType req) (extraNotes req) requestId ;;
  now <- Date_now ;;
  let processingTime := (now - startTime)%Z in
  timestamp <- timestamp_now ;;
  ret (Js.Object
         (Obj.set (str "metadata")
            (metadata req requestId processingTime timestamp)
            (spread analysisResult))).

Definition analyzeTradingChart (req : AnalysisRequest) : M Js.value :=
  requestId <- next_request_id ;;
  startTime <- Date_now ;;
  try_catch (analyzeTradingChart_try req requestId startTime)
    (fun error =>
       now <- Date_now ;;
       let errorTime := (now - startTime)%Z in
       getFallbackAnalysis (symbol req) (timeframe req) (tradeType req)
         error requestId).

End WithRuntime.

End Service.


(* ===================================================================== *)
(** * Vocabulary of the properties *)
(* ===================================================================== *)

Module Spec.

Import JsString.

(** [pattern] matches [text] and its first group captured the text of the
    number [v]. *)
Definition rsi_match (text : jsstring) (pattern : RegExp.regex) (v : number) : Prop :=
  exists m g,
    RegExp.exec pattern text = Some m /\ RegExp.group 1 m = Some g /\ g <> []
    /\ v = Number.parseFloat (OCR.comma_to_dot g).

(** [pattern] matches somewhere in [text] with a non-empty capture that
    reads as [v]: one of the matches that a search through the whole text
    finds, from left to right. *)
Definition rsi_occurrence (text : jsstring) (pattern : RegExp.regex) (v : number) : Prop :=
  exists m g,
    In m (RegExp.match_all pattern text) /\ RegExp.group 1 m = Some g /\ g <> []
    /\ v = Number.parseFloat (OCR.comma_to_dot g).

(** [0 <= v <= 100] *)
Definition rsi_in_range (v : number) : Prop :=
  Number.isNaN v = false /\ Number.geb v Number.zero = true
  /\ Number.leb v (Number.of_Z 100) = true.

(** Patterns without a capturing group. *)
Fixpoint groupless (r : RegExp.regex) : bool :=
  match r with
  | RegExp.Eps | RegExp.Chr _ | RegExp.Bol => true
  | RegExp.Seq a b | RegExp.Alt a b => groupless a && groupless b
  | RegExp.Rep a _ _ => groupless a
  | RegExp.Grp _ _ => false
  end.

Definition RSI : jsstring := str "RSI".

(** What a match consumes: the subject from [st] on is [used] followed by
    the subject from [st'] on. *)
Definition consumes (st st' : RegExp.mstate) (used : jsstring) : Prop :=
  RegExp.rest st = used ++ RegExp.rest st'
  /\ RegExp.pos st' = RegExp.pos st + List.length used.

(** No two elements are the same value for a [Set]. *)
Definition distinct : list number -> Prop :=
  StronglySorted (fun a b => Number.sameValueZero a b = false).

(** No element is NaN. *)
Definition numeric (l : list number) : Prop :=
  Forall (fun x => Number.isNaN x = false) l.

(** Strictly ascending under JavaScript's [<]. *)
Definition ascending : list number -> Prop :=
  StronglySorted (fun a b => Number.ltb a b = true).

(** The operations [preprocessImage] queues for an image with this
    metadata, in order. *)
Definition sharp_ops (info : Service.ImageInfo) : list Service.SharpOp :=
  (if Service.exceeds_2000 (Service.width info)
      || Service.exceeds_2000 (Service.height info)
   then [Service.Resize 2000 2000] else [])
  ++ [Service.Grayscale; Service.Normalise; Service.Sharpen 1; Service.Median 1].

(** Some step of the preprocessing fails on [image]: reading the metadata,
    queueing one of the operations, or producing the output buffer. *)
Definition preprocessing_fails (rt : Service.Runtime) (image : Service.bytes) : Prop :=
  (exists e, Service.sharp_metadata rt image = inl e)
  \/ exists info,
       Service.sharp_metadata rt image = inr info
       /\ ((exists k op e,
              nth_error (sharp_ops info) k = Some op
              /\ Service.sharp_op rt op (image, firstn k (sharp_ops info)) = Some e)
           \/ exists e, Service.sharp_toBuffer rt (image, sharp_ops info) = inl e).

(** [v.k1.k2...]; [undefined] where a step has nothing to read. *)
Fixpoint path (ks : list string) (v : Js.value) : Js.value :=
  match ks with
  | [] => v
  | k :: ks' =>
      match Js.get_prop (str k) v with
      | Some x => path ks' x
      | None => Js.Undefined
      end
  end.

(** Some object inside [v] (or [v] itself) has a property named [k]. *)
Fixpoint mentions (k : jsstring) (v : Js.value) : bool :=
  match v with
  | Js.Arr l => existsb (mentions k) l
  | Js.Object o =>
      existsb (fun kv => JsString.eqb k (fst kv) || mentions k (snd kv)) o
  | _ => false
  end.

(** The response body of the reasoning service for a reply [content] with
    the token accounting [usage]. *)
Definition api_response (content : jsstring) (usage : Js.value) : Js.value :=
  Js.Object
    [ (str "choices",
       Js.Arr [Js.Object [(str "message", Js.Object [(str "content", Js.Str content)])]]);
      (str "usage", usage) ].

(** The own property [k] of an object; [undefined] when it has none. *)
Definition prop (k : string) (o : list (jsstring * Js.value)) : Js.value :=
  match Obj.get (str k) o with
  | Some v => v
  | None => Js.Undefined
  end.

(** The structure check of the validator: both fields present and truthy. *)
Definition has_required_fields (o : list (jsstring * Js.value)) : bool :=
  Js.truthy (prop "decision" o) && Js.truthy (prop "vision_summary" o).

(** The [api_usage] block built from the [usage] of a response. *)
Definition api_usage (usage : Js.value) : Js.value :=
  let u := if Js.truthy usage then usage else Js.Object [] in
  Js.Object
    [ (str "prompt_tokens", path ["prompt_tokens"%string] u);
      (str "completion_tokens", path ["completion_tokens"%string] u);
      (str "total_tokens", path ["total_tokens"%string] u) ].

(** A parsed reply with the disclaimer and the token accounting set. *)
Definition with_disclaimer_and_usage (o : list (jsstring * Js.value))
    (usage : Js.value) : Js.value :=
  Js.Object
    (Obj.set (str "api_usage") (api_usage usage)
       (Obj.set (str "disclaimer") (Js.Str Constants.DISCLAIMER) o)).

(** The prompt rendered in the world [w]. *)
Definition prompt_in (rt : Service.Runtime) (ocrData : OCR.OCRResult)
    (symbol timeframe tradeType : jsstring) (extraNotes : option jsstring)
    (w : Service.World) : Service.Prompt :=
  {| Service.p_symbol := symbol; Service.p_timeframe := timeframe;
     Service.p_tradeType := tradeType;
     Service.p_currentTime :=
       Service.toISOString rt (Service.clock rt (Service.clockReads w));
     Service.p_data := OCR.extractedData ocrData;
     Service.p_extraNotes := extraNotes |}.

(** What the input checks of [analyzeTradingChart] make of a request: the
    image, or the error they throw. *)
Definition input_check (req : Service.AnalysisRequest) : Service.Error + Service.bytes :=
  match Service.imageBuffer req with
  | Some ((_ :: _) as buffer) =>
      if Service.is_trading_pair (Service.symbol req) then inr buffer
      else inl (Service.mkError (str "Invalid symbol: " ++ Service.symbol req))
  | _ => inl (Service.mkError (str "Empty image buffer"))
  end.

(** The world once [analyzeTradingChart] has taken a request id and read
    the start time. *)
Definition started (w : Service.World) : Service.World :=
  {| Service.requestCount := (Service.requestCount w + 1)%Z;
     Service.clockReads := S (Service.clockReads w);
     Service.trace := Service.trace w |}.

(** The stages of [analyzeTradingChart] up to the rendering of the prompt. *)
Definition stages_before_invocation (rt : Service.Runtime)
    (req : Service.AnalysisRequest) : Service.M Service.Prompt :=
  Service.bind (Service.next_request_id) (fun requestId =>
  Service.bind (Service.Date_now rt) (fun startTime =>
  Service.bind (Service.validate_inputs req) (fun image =>
  Service.bind (Service.preprocessImage rt image) (fun processedImage =>
  Service.bind (Service.extractChartDataWithOCR rt processedImage) (fun ocrData =>
  Service.generateTradingPrompt rt ocrData (Service.symbol req)
    (Service.timeframe req) (Service.tradeType req) (Service.extraNotes req)))))).

(** The prompt that a request reaches the reasoning service with, if it
    gets that far. *)
Definition prompt_sent (rt : Service.Runtime) (req : Service.AnalysisRequest)
    (w : Service.World) : option Service.Prompt :=
  match fst (stages_before_invocation rt req w) with
  | inr prompt => Some prompt
  | inl _ => None
  end.

(** The invocation of the reasoning service or the validation of its reply
    fails, with the error [cause]. *)
Definition ai_stage_fails (rt : Service.Runtime) (prompt : Service.Prompt)
    (cause : Service.Error) : Prop :=
  Service.client_post rt prompt = inl cause
  \/ exists data,
       Service.client_post rt prompt = inr data
       /\ Service.parseAIResponse_try rt data = inl cause.

(** A runtime for the examples: the clock starts at 1700000000000 ms and
    advances by one at each reading, and every call to a library succeeds:
    [sharp] hands back the buffer as it is and the OCR reads the text
    "RSI 55". *)
Definition demo_runtime : Service.Runtime :=
  {| Service.syntaxErrorMessage := fun _ => str "Unexpected token in JSON";
     Service.typeErrorMessage := fun k => str "Cannot read properties of undefined";
     Service.clock := fun n => (1700000000000 + Z.of_nat n)%Z;
     Service.toISOString := fun t => JsString.of_Z t;
     Service.sharp_metadata :=
       fun _ => inr {| Service.width := Some 800%Z; Service.height := Some 600%Z |};
     Service.sharp_op := fun _ _ => None;
     Service.sharp_toBuffer := fun p => inr (fst p);
     Service.createWorker := fun _ _ => None;
     Service.worker_setParameters := fun _ => None;
     Service.worker_recognize := fun _ _ => inr (str "RSI 55");
     Service.worker_terminate := fun _ _ => None;
     Service.client_post := fun _ => inr (api_response (str "{}") Js.Undefined) |}.

(** The same, except that every call of [terminate] throws. *)
Definition stuck_worker_runtime : Service.Runtime :=
  {| Service.syntaxErrorMessage := Service.syntaxErrorMessage demo_runtime;
     Service.typeErrorMessage := Service.typeErrorMessage demo_runtime;
     Service.clock := Service.clock demo_runtime;
     Service.toISOString := Service.toISOString demo_runtime;
     Service.sharp_metadata := Service.sharp_metadata demo_runtime;
     Service.sharp_op := Service.sharp_op demo_runtime;
     Service.sharp_toBuffer := Service.sharp_toBuffer demo_runtime;
     Service.createWorker := Service.createWorker demo_runtime;
     Service.worker_setParameters := Service.worker_setParameters demo_runtime;
     Service.worker_recognize := Service.worker_recognize demo_runtime;
     Service.worker_terminate :=
       fun _ _ => Some (Service.mkError (str "Worker is busy"));
     Service.client_post := Service.client_post demo_runtime |}.

(** The same as [demo_runtime], except that the image cannot be decoded. *)
Definition corrupt_image_runtime : Service.Runtime :=
  {| Service.syntaxErrorMessage := Service.syntaxErrorMessage demo_runtime;
     Service.typeErrorMessage := Service.typeErrorMessage demo_runtime;
     Service.clock := Service.clock demo_runtime;
     Service.toISOString := Service.toISOString demo_runtime;
     Service.sharp_metadata :=
       fun _ => inl (Service.mkError (str "Input buffer contains unsupported image format"));
     Service.sharp_op := Service.sharp_op demo_runtime;
     Service.sharp_toBuffer := Service.sharp_toBuffer demo_runtime;
     Service.createWorker := Service.createWorker demo_runtime;
     Service.worker_setParameters := Service.worker_setParameters demo_runtime;
     Service.worker_recognize := Service.worker_recognize demo_runtime;
     Service.worker_terminate := Service.worker_terminate demo_runtime;
     Service.client_post := Service.client_post demo_runtime |}.

(** The same as [demo_runtime], except that the reasoning service does
    not answer in time. *)
Definition timeout_runtime : Service.Runtime :=
  {| Service.syntaxErrorMessage := Service.syntaxErrorMessage demo_runtime;
     Service.typeErrorMessage := Service.typeErrorMessage demo_runtime;
     Service.clock := Service.clock demo_runtime;
     Service.toISOString := Service.toISOString demo_runtime;
     Service.sharp_metadata := Service.sharp_metadata demo_runtime;
     Service.sharp_op := Service.sharp_op demo_runtime;
     Service.sharp_toBuffer := Service.sharp_toBuffer demo_runtime;
     Service.createWorker := Service.createWorker demo_runtime;
     Service.worker_setParameters := Service.worker_setParameters demo_runtime;
     Service.worker_recognize := Service.worker_recognize demo_runtime;
     Service.worker_terminate := Service.worker_terminate demo_runtime;
     Service.client_post :=
       fun _ => inl (Service.mkError (str "timeout of 45000ms exceeded")) |}.

(** A well-formed request. *)
Definition demo_request : Service.AnalysisRequest :=
  {| Service.imageBuffer := Some [255; 216; 255]%N;
     Service.symbol := str "XAUUSD";
     Service.timeframe := str "H1";
     Service.tradeType := str "swing";
     Service.extraNotes := None |}.

(** A request without an image. *)
Definition empty_request : Service.AnalysisRequest :=
  {| Service.imageBuffer := None;
     Service.symbol := str "XAUUSD";
     Service.timeframe := str "H1";
     Service.tradeType := str "swing";
     Service.extraNotes := None |}.

Definition initial_world : Service.World :=
  {| Service.requestCount := 0; Service.clockReads := 0; Service.trace := [] |}.

End Spec.

(* ===================================================================== *)
(** * Further vocabulary: the parser *)
(* ===================================================================== *)

Module Glossary.

Import JsString.

(** [0 <= x]: a number that is neither NaN nor below zero. *)
Definition nonneg (x : number) : Prop :=
  Number.isNaN x = false /\ Number.geb x Number.zero = true.

(** The names under which [parseOCRText] records indicators. *)
Definition indicator_names : list jsstring :=
  [str "RSI"; str "MACD"; str "MA"; str "SMA"; str "EMA"].

(** The number that a captured text stands for. *)
Definition captured_number (g : jsstring) : number :=
  Number.parseFloat (OCR.comma_to_dot g).

(** The values that the matches of [maPattern] carry for [tag], from left
    to right. *)
Definition ma_values (tag : jsstring) (text : jsstring) : list number :=
  flat_map
    (fun m =>
       match RegExp.group 1 m, RegExp.group 2 m with
       | Some g1, Some g2 =>
           if JsString.eqb (toUpperCase g1) tag then [captured_number g2] else []
       | _, _ => []
       end)
    (RegExp.match_all OCR.maPattern text).

(** The last element of a list, if any. *)
Definition last_of {A} (l : list A) : option A := hd_error (rev l).

(** A text without any of the digits 0 to 9. *)
Definition digit_free (s : jsstring) : Prop :=
  Forall (fun c => is_digit c = false) s.

(** The characters that the price cleaner [/[$,€£¥\s]/g] removes. *)
Definition is_price_noise (c : N) : bool :=
  RegExp.one_of [36; 44; 8364; 163; 165]%N c || is_space c.

(** Every match of [r] starts with a character of the class [p]. *)
Definition starts_in (p : N -> bool) (r : RegExp.regex) : Prop :=
  forall st st',
    In st' (RegExp.run r st) ->
    exists c t, RegExp.rest st = c :: t /\ p c = true
             /\ RegExp.pos st < RegExp.pos st'.

(** [r] matches nowhere in a text without digits. *)
Definition needs_digit (r : RegExp.regex) : Prop :=
  forall st, digit_free (RegExp.rest st) -> RegExp.run r st = [].

(** What [parseOCRText] makes of an indicator map: distinct keys, all of
    them indicator names, and no NaN among the values. *)
Definition tidy_indicators (ind : Obj.t number) : Prop :=
  NoDup (Obj.keys ind)
  /\ (forall k, In k (Obj.keys ind) -> In k indicator_names)
  /\ (forall k v, In (k, v) ind -> Number.isNaN v = false).

Definition MACD : jsstring := str "MACD".

(** The tags that [maPattern] captures, in upper case. *)
Definition ma_names : list jsstring := [str "MA"; str "SMA"; str "EMA"].

(** A text without any character of the class [p]. *)
Definition class_free (p : N -> bool) (s : jsstring) : Prop :=
  Forall (fun c => p c = false) s.

(** The backtick that opens a code fence. *)
Definition is_backtick (c : N) : bool := N.eqb c 96.

(** The text begins with j or J, as a leading [json] tag does. *)
Definition starts_json_tag (s : jsstring) : bool :=
  match s with
  | c :: _ => N.eqb (upper_char c) 74
  | [] => false
  end.

End Glossary.

(* ===================================================================== *)
(** * Further vocabulary: what a call does to the world *)
(* ===================================================================== *)

Module Accounting.

Import JsString.

(** The events of one OCR run on the session [id]: none when no session
    was opened; otherwise the session and one call of [terminate], or two
    when the first threw after a successful recognition. Latest first. *)
Definition session_events (id : nat) (evs : list Service.Event) : Prop :=
  evs = []
  \/ (exists completed, evs = [Service.Terminate id completed; Service.Acquired id])
  \/ (exists completed,
        evs = [Service.Terminate id completed; Service.Terminate id false;
               Service.Acquired id]).

(** The world after a call that took one request id, read the clock
    [reads] times and caused the events [evs]. *)
Definition after_call (w : Service.World) (reads : nat)
    (evs : list Service.Event) : Service.World :=
  {| Service.requestCount := (Service.requestCount w + 1)%Z;
     Service.clockReads := Service.clockReads w + reads;
     Service.trace := evs ++ Service.trace w |}.

(** The same as [Spec.demo_runtime], except that no OCR session can be
    opened. *)
Definition no_worker_runtime : Service.Runtime :=
  {| Service.syntaxErrorMessage := Service.syntaxErrorMessage Spec.demo_runtime;
     Service.typeErrorMessage := Service.typeErrorMessage Spec.demo_runtime;
     Service.clock := Service.clock Spec.demo_runtime;
     Service.toISOString := Service.toISOString Spec.demo_runtime;
     Service.sharp_metadata := Service.sharp_metadata Spec.demo_runtime;
     Service.sharp_op := Service.sharp_op Spec.demo_runtime;
     Service.sharp_toBuffer := Service.sharp_toBuffer Spec.demo_runtime;
     Service.createWorker :=
       fun _ _ => Some (Service.mkError (str "Failed to load language data"));
     Service.worker_setParameters := Service.worker_setParameters Spec.demo_runtime;
     Service.worker_recognize := Service.worker_recognize Spec.demo_runtime;
     Service.worker_terminate := Service.worker_terminate Spec.demo_runtime;
     Service.client_post := Service.client_post Spec.demo_runtime |}.

End Accounting.

(* ===================================================================== *)
(** * [config/constants.js]: what the server reads *)
(* ===================================================================== *)

Module Config.

Import JsString.

Definition DEEPSEEK_API_KEY : jsstring := str "sk-54c73**********1a40".

Definition NODE_ENV : jsstring := str "production".

Definition RATE_LIMIT_WINDOW_MS : Z := 900000.
Definition RATE_LIMIT_MAX_REQUESTS : Z := 50.

Definition MAX_FILE_SIZE : Z := 10 * 1024 * 1024.

Definition ALLOWED_IMAGE_TYPES : list jsstring :=
  [str "image/jpeg"; str "image/png"; str "image/jpg"; str "image/webp"].

Definition TIMEFRAMES : list jsstring :=
  [str "M1"; str "M5"; str "M15"; str "H1"; str "H4"; str "D1"; str "W1"; str "MN"].

Definition TRADE_TYPES : list jsstring :=
  [str "scalping"; str "intraday"; str "swing"; str "position"].

(** [MESSAGES] *)
Definition NO_IMAGE : jsstring := str "No chart image provided".
Definition INVALID_FILE_TYPE : jsstring :=
  str "Invalid file type. Only JPEG, PNG, JPG, and WEBP are allowed.".
Definition FILE_TOO_LARGE : jsstring := str "File too large. Maximum size is 10MB.".
Definition ANALYSIS_FAILED : jsstring :=
  str "Analysis failed. Please try again or contact support.".
Definition SERVER_ERROR : jsstring :=
  str "Internal server error. Please try again later.".

End Config.

(* ===================================================================== *)
(** * The connection test and the start of the server *)
(* ===================================================================== *)

Module Connection.

Import JsString Service.
Local Open Scope service_scope.

(** [hay.includes(needle)] on strings *)
Fixpoint includes (needle hay : jsstring) : bool :=
  starts_with needle hay
  || match hay with
     | [] => false
     | _ :: rest => includes needle rest
     end.

(** The check in the constructor of [DeepSeekService]: whether it stops the
    process. *)
Definition constructor_rejects (key : jsstring) : bool :=
  match key with
  | [] => true
  | _ => JsString.eqb key (str "sk-54c73**********1a40")
  end.

(** The check of [server.js] before it constructs the service: whether it
    stops the process. *)
Definition server_rejects (key : jsstring) : bool :=
  match key with
  | [] => true
  | _ => includes (str "********") key
  end.

(** The two messages of a completed test: they open with U+2705 and with
    U+26A0 U+FE0F. *)
Definition operational : jsstring := 9989%N :: str " DeepSeek API is operational".
Definition connection_issue : jsstring :=
  [9888; 65039]%N ++ str " API connection issue".

(** [response.data?.data || []] *)
Definition models_of (data : Js.value) : Js.value :=
  let inner :=
    match Js.get_prop (str "data") data with
    | Some x => x
    | None => Js.Undefined
    end in
  if Js.truthy inner then inner else Js.Arr [].

(** [models.length], for a truthy value. *)
Definition length_of (models : Js.value) : Js.value :=
  match models with
  | Js.Arr l => Js.Num (Number.of_Z (Z.of_nat (List.length l)))
  | Js.Str s => Js.Num (Number.of_Z (Z.of_nat (List.length s)))
  | Js.Object o => Spec.prop "length" o
  | _ => Js.Undefined
  end.

Section WithClient.

Variable rt : Runtime.

(** What the request for [/models] meets: a transport failure, or a response
    with its status and body. *)
Variable transport : Error + (Z * Js.value).

(** The error that the client rejects with when [validateStatus] refuses
    the status of a response. *)
Variable rejection : Z -> Js.value -> Error.

(** [this.client.get('/models', { validateStatus: status => status < 500 })] *)
Definition client_get : Error + (Z * Js.value) :=
  match transport with
  | inr (status, data) =>
      if (status <? 500)%Z then inr (status, data) else inl (rejection status data)
  | inl e => inl e
  end.

Definition testConnection : M Js.value :=
  try_catch
    (response <- lift client_get ;;
     let isConnected := (fst response =? 200)%Z in
     let models := models_of (snd response) in
     timestamp <- timestamp_now rt ;;
     requestId <- next_request_id ;;
     ret (Js.Object
            [ field "ok" (Js.Bool isConnected);
              field "message"
                (Js.Str (if isConnected then operational else connection_issue));
              field "modelsCount" (length_of models);
              field "timestamp" (Js.Str timestamp);
              field "requestId" (Js.Num (Number.of_Z requestId)) ]))
    (fun error =>
       logged <- timestamp_now rt ;;
       timestamp <- timestamp_now rt ;;
       requestId <- next_request_id ;;
       ret (Js.Object
              [ field "ok" (Js.Bool false);
                field "message"
                  (Js.Str (str "API connection failed: " ++ message error));
                field "timestamp" (Js.Str timestamp);
                field "requestId" (Js.Num (Number.of_Z requestId)) ])).

End WithClient.

End Connection.

(* ===================================================================== *)
(** * The server: [server.js] *)
(* ===================================================================== *)

Module Server.

Import Service.
Local Open Scope service_scope.

Record Response : Type := {
  status : Z;
  json : Js.value
}.

(** [req.file], as [multer] leaves it with the memory storage. *)
Record Upload : Type := {
  size : N;
  mimetype : jsstring;
  buffer : bytes
}.

(** [req.body] holds the text fields of the form: a string, or an array or
    an object when the field name is repeated or carries brackets. *)
Record HttpRequest : Type := {
  file : option Upload;
  body : list (jsstring * Js.value);
  requestId : jsstring
}.

(** An error handed to the error-handling middlewares; [multer_code] is
    the [code] of an instance of [multer.MulterError]. *)
Record Failure : Type := {
  multer_code : option jsstring;
  failure_message : jsstring
}.

Definition respond (code : Z) (fields : list (jsstring * Js.value)) : Response :=
  {| status := code; json := Js.Object fields |}.

(** [l.join(sep)] *)
Definition join (sep : jsstring) (l : list jsstring) : jsstring :=
  match l with
  | [] => []
  | x :: more => x ++ flat_map (fun y => sep ++ y) more
  end.

(** [l.includes(s)] on an array of strings *)
Definition includes (l : list jsstring) (s : jsstring) : bool :=
  existsb (JsString.eqb s) l.

(** [`${constants.MAX_FILE_SIZE / 1024 / 1024}MB`] *)
Definition maxSize : jsstring :=
  JsString.of_Z (Config.MAX_FILE_SIZE / 1024 / 1024) ++ JsString.str "MB".

(** [`${constants.RATE_LIMIT_MAX_REQUESTS} requests per
      ${constants.RATE_LIMIT_WINDOW_MS / 60000} minutes`] *)
Definition rateLimit : jsstring :=
  JsString.of_Z Config.RATE_LIMIT_MAX_REQUESTS ++ JsString.str " requests per "
  ++ JsString.of_Z (Config.RATE_LIMIT_WINDOW_MS / 60000) ++ JsString.str " minutes".

(** [(req.file.size / 1024).toFixed(1)] *)
Definition kilobytes (f : Upload) : jsstring :=
  Number.toFixed (Number.of_ratio false (Z.of_N (size f)) 1024) 1.

(** The [decision] block of the answer to an error. *)
Definition hold_decision : Js.value :=
  Js.Object
    [ field "action" (text "HOLD");
      field "reason" (text "Technical error during analysis. Please try again with a clearer chart image.");
      field "entry" (text "N/A");
      field "sl" (text "N/A");
      field "tp1" (text "N/A");
      field "tp2" (text "N/A") ].

(** The callback of [fileFilter]: the error it passes on, if any. *)
Definition fileFilter (type : jsstring) : option Failure :=
  if includes Config.ALLOWED_IMAGE_TYPES type then None
  else Some {| multer_code := None; failure_message := Config.INVALID_FILE_TYPE |}.

Section WithHost.

Variable rt : Runtime.

(** [String.prototype.toUpperCase] and [toLowerCase] of the engine *)
Variable toUpperCase : jsstring -> jsstring.
Variable toLowerCase : jsstring -> jsstring.

(** What [testConnection] meets, as in [Connection]. *)
Variable transport : Error + (Z * Js.value).
Variable rejection : Z -> Js.value -> Error.

(** [process.uptime()] and [process.memoryUsage()] *)
Variable uptime : Js.value.
Variable memoryUsage : Js.value.

(** [req.body.k || d] *)
Definition field_or (k d : string) (req : HttpRequest) : Js.value :=
  let v := Spec.prop k (body req) in
  if Js.truthy v then v else Js.Str (JsString.str d).

(** [v.method().trim()], where only a string has the method. *)
Definition normalised (method : string) (f : jsstring -> jsstring)
    (v : Js.value) : Error + jsstring :=
  and_then (as_string rt method v) (fun s => inr (JsString.trim (f s))).

(** The four [const] lines under [// Extract and validate parameters], and
    the argument that the service is then called with. *)
Definition parameters (f : Upload) (req : HttpRequest) : Error + AnalysisRequest :=
  and_then (normalised "toUpperCase" toUpperCase (field_or "symbol" "XAUUSD" req))
    (fun symbol =>
  and_then (normalised "toUpperCase" toUpperCase (field_or "timeframe" "H1" req))
    (fun timeframe =>
  and_then (normalised "toLowerCase" toLowerCase (field_or "tradeType" "intraday" req))
    (fun tradeType =>
  and_then (normalised "substring" (JsString.substring0 500)
              (field_or "extraNotes" "" req))
    (fun extraNotes =>
  inr {| imageBuffer := Some (buffer f);
         symbol := symbol;
         timeframe := timeframe;
         tradeType := tradeType;
         extraNotes := Some extraNotes |})))).

(** The handler of [/api/analyze] up to the call of the service: the answer
    it returns early with, or the upload and the argument of the call. *)
Definition validation (req : HttpRequest)
    : M (Response + Upload * AnalysisRequest) :=
  match file req with
  | None =>
      timestamp <- timestamp_now rt ;;
      ret (inl (respond 400
        [ field "error" (Js.Str Config.NO_IMAGE);
          field "code" (text "NO_IMAGE");
          field "requestId" (Js.Str (requestId req));
          field "timestamp" (Js.Str timestamp) ]))
  | Some f =>
      if (Config.MAX_FILE_SIZE <? Z.of_N (size f))%Z then
        ret (inl (respond 413
          [ field "error" (Js.Str Config.FILE_TOO_LARGE);
            field "code" (text "FILE_TOO_LARGE");
            field "maxSize" (Js.Str maxSize);
            field "requestId" (Js.Str (requestId req)) ]))
      else
        params <- lift (parameters f req) ;;
        if negb (includes Constants.TRADING_PAIRS (symbol params)) then
          ret (inl (respond 400
            [ field "error" (Js.Str (JsString.str "Invalid symbol. Allowed: "
                                     ++ join (JsString.str ", ") Constants.TRADING_PAIRS));
              field "code" (text "INVALID_SYMBOL");
              field "requestId" (Js.Str (requestId req)) ]))
        else if negb (includes Config.TIMEFRAMES (timeframe params)) then
          ret (inl (respond 400
            [ field "error" (Js.Str (JsString.str "Invalid timeframe. Allowed: "
                                     ++ join (JsString.str ", ") Config.TIMEFRAMES));
              field "code" (text "INVALID_TIMEFRAME");
              field "requestId" (Js.Str (requestId req)) ]))
        else if negb (includes Config.TRADE_TYPES (tradeType params)) then
          ret (inl (respond 400
            [ field "error" (Js.Str (JsString.str "Invalid trade type. Allowed: "
                                     ++ join (JsString.str ", ") Config.TRADE_TYPES));
              field "code" (text "INVALID_TRADE_TYPE");
              field "requestId" (Js.Str (requestId req)) ]))
        else ret (inr (f, params))
  end.

(** The object literal assigned to [analysis.metadata]: what the result
    already carries there, and then the server's own entries. *)
Definition request_metadata (old : Js.value) (f : Upload) (params : AnalysisRequest)
    (req : HttpRequest) (processingTime : Z) (timestamp : jsstring) : Js.value :=
  Js.Object
    (fold_left (fun o kv => Obj.set (fst kv) (snd kv) o)
       [ field "symbol" (Js.Str (symbol params));
         field "timeframe" (Js.Str (timeframe params));
         field "tradeType" (Js.Str (tradeType params));
         field "fileSize" (Js.Str (kilobytes f ++ JsString.str " KB"));
         field "fileType" (Js.Str (mimetype f));
         field "processingTime"
           (Js.Str (JsString.of_Z processingTime ++ JsString.str "ms"));
         field "disclaimer" (Js.Str Constants.DISCLAIMER);
         field "requestId" (Js.Str (requestId req));
         field "timestamp" (Js.Str timestamp) ]
       (spread old)).

(** The [catch] block of the handler. *)
Definition analysis_error (req : HttpRequest) (startTime : Z) (error : Error)
    : M Response :=
  now <- Date_now rt ;;
  let errorTime := (now - startTime)%Z in
  let statusCode : Z :=
    if Connection.includes (JsString.str "Invalid") (message error)
    then 400%Z else 500%Z in
  timestamp <- timestamp_now rt ;;
  ret (respond statusCode
    [ field "error" (Js.Str (or_else (message error) Config.ANALYSIS_FAILED));
      field "code" (text "ANALYSIS_ERROR");
      field "requestId" (Js.Str (requestId req));
      field "timestamp" (Js.Str timestamp);
      field "processingTime" (Js.Str (JsString.of_Z errorTime ++ JsString.str "ms"));
      field "decision" hold_decision ]).

(** [app.post('/api/analyze', ...)], once the upload has been accepted.
    The result of the service is an object, so that the assignment to
    [analysis.metadata] sets a property of it. *)
Definition analyze (req : HttpRequest) : M Response :=
  startTime <- Date_now rt ;;
  try_catch
    (checked <- validation req ;;
     match checked with
     | inl response => ret response
     | inr (f, params) =>
         analysis <- analyzeTradingChart rt params ;;
         now <- Date_now rt ;;
         let processingTime := (now - startTime)%Z in
         old <- lift (read rt "metadata" analysis) ;;
         timestamp <- timestamp_now rt ;;
         ret {| status := 200%Z;
                json := assign "metadata"
                          (request_metadata old f params req processingTime timestamp)
                          analysis |}
     end)
    (analysis_error req startTime).

(** The first error-handling middleware; [None] is [next(err)]. *)
Definition multer_error_handler (err : Failure) (req : HttpRequest)
    : M (option Response) :=
  match multer_code err with
  | Some code =>
      if JsString.eqb code (JsString.str "LIMIT_FILE_SIZE") then
        timestamp <- timestamp_now rt ;;
        ret (Some (respond 413
          [ field "error" (Js.Str Config.FILE_TOO_LARGE);
            field "code" (text "FILE_TOO_LARGE");
            field "maxSize" (Js.Str maxSize);
            field "requestId" (Js.Str (requestId req));
            field "timestamp" (Js.Str timestamp) ]))
      else
        ret (Some (respond 400
          [ field "error" (text "File upload error");
            field "code" (text "UPLOAD_ERROR");
            field "details" (Js.Str (failure_message err));
            field "requestId" (Js.Str (requestId req)) ]))
  | None => ret None
  end.

(** The general error handler. *)
Definition general_error_handler (err : Failure) (req : HttpRequest) : M Response :=
  timestamp <- timestamp_now rt ;;
  ret (respond 500
    ([ field "error" (Js.Str Config.SERVER_ERROR);
       field "code" (text "INTERNAL_ERROR");
       field "requestId" (Js.Str (requestId req));
       field "timestamp" (Js.Str timestamp) ]
     ++ spread (if JsString.eqb Config.NODE_ENV (JsString.str "development")
                then Js.Object [ field "debug" (Js.Str (failure_message err)) ]
                else Js.Bool false))).

(** An error on its way through the two middlewares. *)
Definition handle_error (err : Failure) (req : HttpRequest) : M Response :=
  handled <- multer_error_handler err req ;;
  match handled with
  | Some response => ret response
  | None => general_error_handler err req
  end.

(** [app.get('/api/health', ...)] *)
Definition health (req : HttpRequest) : M Response :=
  try_catch
    (apiStatus <- Connection.testConnection rt transport rejection ;;
     timestamp <- timestamp_now rt ;;
     ret (respond 200
       [ field "status" (text "healthy");
         field "service" (text "Trading Chart Analyzer API");
         field "version" (text "1.0.0");
         field "environment" (Js.Str Config.NODE_ENV);
         field "timestamp" (Js.Str timestamp);
         field "requestId" (Js.Str (requestId req));
         field "uptime" uptime;
         field "memory" memoryUsage;
         field "api" (Js.Object [ field "deepseek" apiStatus ]);
         field "endpoints" (Js.Object
           [ field "analyze" (text "POST /api/analyze");
             field "health" (text "GET /api/health");
             field "test" (text "GET /api/test-keys") ]);
         field "limits" (Js.Object
           [ field "fileSize" (Js.Str maxSize);
             field "rateLimit" (Js.Str rateLimit) ]) ]))
    (fun error =>
       timestamp <- timestamp_now rt ;;
       ret (respond 503
         [ field "status" (text "unhealthy");
           field "error" (Js.Str (message error));
           field "timestamp" (Js.Str timestamp);
           field "requestId" (Js.Str (requestId req)) ])).

(** The checks that a request passes on its way to the service, with the
    upload and the argument of the call. *)
Definition accepted (req : HttpRequest) (f : Upload) (params : AnalysisRequest)
    : Prop :=
  file req = Some f
  /\ (Z.of_N (size f) <= Config.MAX_FILE_SIZE)%Z
  /\ parameters f req = inr params
  /\ includes Constants.TRADING_PAIRS (symbol params) = true
  /\ includes Config.TIMEFRAMES (timeframe params) = true
  /\ includes Config.TRADE_TYPES (tradeType params) = true.

(** Some field of the form is set to something other than a string. *)
Definition malformed (req : HttpRequest) : Prop :=
  exists k,
    In k ["symbol"; "timeframe"; "tradeType"; "extraNotes"]%string
    /\ Js.truthy (Spec.prop k (body req)) = true
    /\ forall s, Spec.prop k (body req) <> Js.Str s.

End WithHost.

(** A host for the examples: the ASCII case mappings, and a models
    endpoint that answers with status 401. *)
Definition lower_char (c : N) : N :=
  if N.leb 65 c && N.leb c 90 then (c + 32)%N else c.

Definition ascii_lower (s : jsstring) : jsstring := map lower_char s.

Definition demo_analyze : HttpRequest -> M Response :=
  analyze Spec.demo_runtime JsString.toUpperCase ascii_lower.

(** A well-formed request whose upload is [buffer]. *)
Definition demo_upload (buffer : bytes) : HttpRequest :=
  {| file := Some {| size := N.of_nat (List.length buffer);
                     mimetype := JsString.str "image/png";
                     buffer := buffer |};
     body := [ (JsString.str "symbol", Js.Str (JsString.str " eurusd"));
               (JsString.str "timeframe", Js.Str (JsString.str "h4")) ];
     requestId := JsString.str "lq3xk2a8f0" |}.

End Server.
(* ===================================================================== *)
(** * Facts about strings, objects and numbers *)
(* ===================================================================== *)

Module JsStringFacts.

Import JsString.

Lemma eqb_eq a b : eqb a b = true <-> a = b.
Proof.
  unfold eqb. destruct (list_eq_dec N.eq_dec a b); split; congruence.
Qed.

Lemma eqb_refl a : eqb a a = true.
Proof. apply eqb_eq. reflexivity. Qed.

Lemma eqb_neq a b : eqb a b = false <-> a <> b.
Proof.
  unfold eqb. destruct (list_eq_dec N.eq_dec a b); split; congruence.
Qed.

Lemma digit_not_space c : is_digit c = true -> is_space c = false.
Proof.
  unfold is_digit, is_space. intros H.
  apply andb_prop in H. destruct H as [H1 H2].
  apply N.leb_le in H1. apply N.leb_le in H2.
  repeat match goal with
  | |- context [N.leb ?a ?b] => destruct (N.leb_spec a b); try lia
  | |- context [N.eqb ?a ?b] => destruct (N.eqb_spec a b); try lia
  end; reflexivity.
Qed.

Lemma uint_chars_digits u : Forall (fun c => is_digit c = true) (uint_chars u).
Proof. induction u; simpl; constructor; auto. Qed.

Lemma uint_chars_nonnil u : u <> Decimal.Nil -> uint_chars u <> [].
Proof. destruct u; simpl; congruence. Qed.

(** A non-negative integer prints as a digit followed by digits. *)
Lemma of_Z_head z :
  (0 <= z)%Z -> exists c r, of_Z z = c :: r /\ is_digit c = true.
Proof.
  intros Hz. destruct z as [|p|p]; simpl.
  - exists 48%N, []. split; reflexivity.
  - unfold of_pos.
    pose proof (uint_chars_digits (Pos.to_uint p)) as Hd.
    pose proof (uint_chars_nonnil (DecimalPos.Unsigned.to_uint_nonnil p)) as Hn.
    destruct (uint_chars (Pos.to_uint p)) as [|c r]; [congruence|].
    inversion Hd; subst. exists c, r. split; auto.
  - lia.
Qed.

End JsStringFacts.

Module ObjFacts.

Section WithValue.
Variable V : Type.

Lemma get_set_same (k : jsstring) (v : V) o : Obj.get k (Obj.set k v o) = Some v.
Proof.
  induction o as [|[k' v'] o IH]; simpl.
  - rewrite JsStringFacts.eqb_refl. reflexivity.
  - destruct (JsString.eqb k k') eqn:E; simpl; rewrite E; auto.
Qed.

Lemma get_set_other (k k' : jsstring) (v : V) o :
  k <> k' -> Obj.get k' (Obj.set k v o) = Obj.get k' o.
Proof.
  intros Hne. induction o as [|[k0 v0] o IH]; simpl.
  - destruct (JsString.eqb k' k) eqn:E; [|reflexivity].
    apply JsStringFacts.eqb_eq in E. congruence.
  - destruct (JsString.eqb k k0) eqn:E; simpl.
    + apply JsStringFacts.eqb_eq in E. subst k0.
      destruct (JsString.eqb k' k) eqn:E'; [|reflexivity].
      apply JsStringFacts.eqb_eq in E'. congruence.
    + destruct (JsString.eqb k' k0); auto.
Qed.

End WithValue.

End ObjFacts.

Module NumberFacts.

Import Number.
Open Scope Z_scope.

Lemma of_ratio_not_NaN neg n d : isNaN (of_ratio neg n d) = false.
Proof.
  unfold of_ratio. destruct (round_mag _ _) as [k|]; [|reflexivity].
  destruct k; destruct neg; reflexivity.
Qed.

Lemma of_decimal_not_NaN neg m e : isNaN (of_decimal neg m e) = false.
Proof.
  unfold of_decimal. destruct (0 <=? e); apply of_ratio_not_NaN.
Qed.

(** Rounding a positive magnitude never gives zero: distinct doubles have
    a non-zero difference. *)
Lemma round_mag_pos n k : 0 < n -> round_mag n 1 = Some k -> 0 < k.
Proof.
  unfold round_mag. intros Hn.
  rewrite Z.div_1_r.
  destruct (n <? 2 ^ 53) eqn:E.
  - unfold rne. rewrite Z.div_1_r, Z.mod_1_r. change (2 * 0 ?= 1) with Lt. cbv iota.
    destruct (n <? 2 ^ 2098); intros H; inversion H; subst; lia.
  - apply Z.ltb_ge in E.
    assert (Hl : 53 <= Z.log2 n).
    { apply Z.log2_le_pow2; lia. }
    assert (Hu : 0 < 2 ^ (Z.log2 n - 52)) by (apply Z.pow_pos_nonneg; lia).
    assert (Hun : 2 ^ (Z.log2 n - 52) <= n).
    { pose proof (Z.log2_spec n Hn) as [Hlo _].
      transitivity (2 ^ Z.log2 n); [|exact Hlo].
      apply Z.pow_le_mono_r; lia. }
    revert Hu Hun. generalize (2 ^ (Z.log2 n - 52)). intros u Hu Hun.
    rewrite Z.mul_1_l.
    assert (Hq : 1 <= n / u) by (apply Z.div_le_lower_bound; lia).
    assert (Hr : 1 <= rne n u).
    { unfold rne. destruct (Z.compare _ _); [destruct (Z.even _)| |]; lia. }
    destruct (_ * u <? 2 ^ 2098); intros H; [|discriminate].
    injection H as <-. apply Z.mul_pos_pos; lia.
Qed.

Lemma round_mag_zero : round_mag 0 1 = Some 0.
Proof. reflexivity. Qed.

(** The comparator [(a, b) => a - b] orders numbers as [<] does. *)
Lemma sub_negative a b :
  isNaN a = false -> isNaN b = false ->
  ltb (Arr.sort_compare sub a b) zero = ltb a b.
Proof.
  intros Ha Hb. unfold Arr.sort_compare.
  assert (Hfin : forall x y : Z,
    ltb (if isNaN (sub_finite x y) then zero else sub_finite x y) zero = (x <? y)).
  { intros x y. unfold sub_finite. cbv zeta.
    destruct (round_mag (Z.abs (x - y)) 1) as [k|] eqn:E; simpl.
    - destruct (Z.eq_dec x y) as [->|Hne].
      + rewrite Z.sub_diag in *. change (Z.abs 0) with 0 in E.
        rewrite round_mag_zero in E.
        inversion E; subst. rewrite (Z.ltb_irrefl y). reflexivity.
      + apply round_mag_pos in E; [|lia].
        destruct (x - y <? 0) eqn:E'; simpl.
        * apply Z.ltb_lt in E'.
          destruct (Z.ltb_spec (- k) 0); destruct (Z.ltb_spec x y); try lia; reflexivity.
        * apply Z.ltb_ge in E'.
          destruct (Z.ltb_spec k 0); destruct (Z.ltb_spec x y); try lia; reflexivity.
    - destruct (Z.ltb_spec (x - y) 0); destruct (Z.ltb_spec x y); try lia; reflexivity. }
  destruct a as [|sa| |ka]; try discriminate;
  destruct b as [|sb| |kb]; try discriminate.
  - destruct sa, sb; reflexivity.
  - destruct sa; reflexivity.
  - destruct sa; reflexivity.
  - destruct sb; reflexivity.
  - reflexivity.
  - destruct kb as [|p|p].
    + reflexivity.
    + exact (Hfin 0 (Zpos p)).
    + exact (Hfin 0 (Zneg p)).
  - destruct sb; reflexivity.
  - destruct ka as [|p|p].
    + reflexivity.
    + exact (Hfin (Zpos p) 0).
    + exact (Hfin (Zneg p) 0).
  - exact (Hfin ka kb).
Qed.

Lemma sameValueZero_sym a b : sameValueZero a b = sameValueZero b a.
Proof.
  destruct a as [|sa| |ka], b as [|sb| |kb]; simpl; try reflexivity;
    try (destruct sa, sb; reflexivity); apply Z.eqb_sym.
Qed.

Lemma ltb_trans a b c : ltb a b = true -> ltb b c = true -> ltb a c = true.
Proof.
  destruct a as [|sa| |ka], b as [|sb| |kb], c as [|sc| |kc];
    unfold ltb, units;
    try discriminate; try reflexivity;
    repeat match goal with s : bool |- _ => destruct s end;
    try discriminate; try reflexivity;
    rewrite ?Z.ltb_lt; lia.
Qed.

(** Two numbers that a [Set] tells apart are ordered one way or the other. *)
Lemma ltb_total a b :
  isNaN a = false -> isNaN b = false -> sameValueZero a b = false ->
  ltb a b = false -> ltb b a = true.
Proof.
  destruct a as [|sa| |ka], b as [|sb| |kb];
    unfold ltb, sameValueZero, isNaN, units;
    try discriminate; try reflexivity;
    repeat match goal with s : bool |- _ => destruct s end;
    try discriminate; try reflexivity;
    rewrite ?Z.ltb_lt, ?Z.ltb_ge, ?Z.eqb_neq; lia.
Qed.

Lemma ltb_irrefl a : ltb a a = false.
Proof.
  destruct a as [|sa| |ka]; simpl; try reflexivity.
  - destruct sa; reflexivity.
  - apply Z.ltb_irrefl.
Qed.

(** [parseFloat] of a text that starts with a digit is a number. *)
Lemma parseFloat_digit c r :
  JsString.is_digit c = true -> isNaN (parseFloat (c :: r)) = false.
Proof.
  intros Hd. unfold parseFloat.
  pose proof (JsStringFacts.digit_not_space c Hd) as Hs.
  unfold JsString.is_digit in Hd. apply andb_prop in Hd. destruct Hd as [H1 H2].
  apply N.leb_le in H1. apply N.leb_le in H2.
  simpl JsString.trimStart. rewrite Hs.
  unfold take_sign.
  destruct (N.eqb_spec c 45); [lia|]. destruct (N.eqb_spec c 43); [lia|].
  assert (Hinf : JsString.starts_with (JsString.str "Infinity") (c :: r) = false).
  { change (JsString.starts_with (JsString.str "Infinity") (c :: r))
      with (N.eqb 73 c && JsString.starts_with (JsString.str "nfinity") r).
    destruct (N.eqb_spec 73 c); [lia|reflexivity]. }
  rewrite Hinf.
  assert (Hsp : exists ds s3, span_digits (c :: r) = (c :: ds, s3)).
  { simpl. unfold JsString.is_digit.
    destruct (N.leb_spec 48 c); [|lia]. destruct (N.leb_spec c 57); [|lia].
    simpl. destruct (span_digits r) as [ds s3]. eauto. }
  destruct Hsp as (ds & s3 & ->).
  destruct (take_fraction s3) as [fp s4].
  simpl app. apply of_decimal_not_NaN.
Qed.

Lemma fixed_digits_head n f :
  0 <= n -> exists c r, fixed_digits n f = c :: r /\ JsString.is_digit c = true.
Proof.
  intros Hn. unfold fixed_digits.
  destruct (JsStringFacts.of_Z_head Hn) as (c & r & Hm & Hc).
  destruct f as [|f]; [eauto|].
  rewrite Hm.
  set (m' := repeat 48%N (S (S f) - List.length (c :: r)) ++ c :: r).
  assert (Hhead : exists c' r', m' = c' :: r' /\ JsString.is_digit c' = true).
  { unfold m'. destruct (S (S f) - List.length (c :: r))%nat; simpl; eauto. }
  assert (Hlen : (S (S f) <= List.length m')%nat).
  { unfold m'. rewrite length_app, repeat_length. lia. }
  destruct Hhead as (c' & r' & Hm' & Hc'). rewrite Hm' in *.
  simpl List.length in *.
  replace (S (List.length r') - S f)%nat with (S (List.length r' - S f)) by lia.
  simpl. eauto.
Qed.

Lemma shortest_decimal_nonneg X n fuel k :
  0 <= X -> 0 <= fst (shortest_decimal X n fuel k).
Proof.
  intros HX. revert k. induction fuel as [|fuel IH]; intros k; simpl; [exact HX|].
  assert (Hlo : 0 <= X / 10 ^ (n - k)).
  { destruct (Z.eq_dec (10 ^ (n - k)) 0) as [->|Hne].
    - rewrite Z.div_0_r. lia.
    - apply Z.div_pos; [lia|].
      pose proof (Z.pow_nonneg 10 (n - k)). lia. }
  repeat match goal with
  | |- context [match ?x with _ => _ end] => destruct x; simpl; try lia; auto
  end.
Qed.

Lemma toString_large_head X :
  0 <= X -> exists c r, toString_large X = c :: r /\ JsString.is_digit c = true.
Proof.
  intros HX. unfold toString_large.
  pose proof (shortest_decimal_nonneg (Z.of_nat (List.length (JsString.of_Z X))) 17 1 HX) as Hs.
  destruct (shortest_decimal _ _ _ _) as [s e]. simpl in Hs.
  destruct (JsStringFacts.of_Z_head Hs) as (c & r & -> & Hc).
  eauto.
Qed.

(** Printing a positive number and reading it back gives a number. *)
Lemma parseFloat_toFixed x f :
  gtb x zero = true -> isNaN (parseFloat (toFixed x f)) = false.
Proof.
  destruct x as [|s| |k]; try discriminate.
  - destruct s; [discriminate|]. intros _. reflexivity.
  - unfold gtb, ltb, units, zero. intros Hk. apply Z.ltb_lt in Hk.
    unfold toFixed.
    destruct (Z.ltb_spec k 0); [lia|].
    rewrite Z.abs_eq by lia. rewrite app_nil_l.
    destruct (10 ^ 21 * 2 ^ 1074 <=? k).
    + destruct (@toString_large_head (k / 2 ^ 1074)) as (c & r & -> & Hc).
      { apply Z.div_pos; [lia|]. apply Z.pow_pos_nonneg; lia. }
      apply parseFloat_digit; assumption.
    + destruct (@fixed_digits_head ((2 * k * 10 ^ Z.of_nat f + 2 ^ 1074) / 2 ^ 1075) f)
        as (c & r & -> & Hc).
      { apply Z.div_pos; [|apply Z.pow_pos_nonneg; lia].
        pose proof (Z.pow_nonneg 10 (Z.of_nat f)).
        pose proof (Z.pow_nonneg 2 1074). nia. }
      apply parseFloat_digit; assumption.
Qed.

End NumberFacts.

(* ===================================================================== *)
(** * Sorting and de-duplication *)
(* ===================================================================== *)

Module ArrFacts.

Import Number NumberFacts Arr.

Import Spec.

Lemma sorted_snoc (R : number -> number -> Prop) l x :
  StronglySorted R l -> Forall (fun y => R y x) l -> StronglySorted R (l ++ [x]).
Proof.
  induction 1 as [|a l Hs IH Ha]; intros Hx; simpl.
  - repeat constructor.
  - inversion Hx; subst. constructor; auto.
    apply Forall_app. split; auto.
Qed.

Lemma distinct_rev l : distinct l -> distinct (rev l).
Proof.
  induction 1 as [|a l Hs IH Ha]; simpl; [constructor|].
  apply sorted_snoc; [exact IH|].
  apply Forall_rev. eapply Forall_impl; [|exact Ha].
  intros y Hy. simpl. rewrite sameValueZero_sym. exact Hy.
Qed.

Lemma set_key_same x y : sameValueZero (set_key x) y = sameValueZero x y.
Proof. destruct x, y; reflexivity. Qed.

Lemma set_key_numeric x : isNaN x = false -> isNaN (set_key x) = false.
Proof. destruct x; auto. Qed.

Lemma set_add_distinct seen x : distinct seen -> distinct (set_add seen x).
Proof.
  intros Hs. unfold set_add, set_has.
  destruct (existsb (sameValueZero x) seen) eqn:E; [exact Hs|].
  constructor; [exact Hs|].
  apply Forall_forall. intros y Hy. rewrite set_key_same.
  destruct (sameValueZero x y) eqn:E'; [|reflexivity].
  assert (existsb (sameValueZero x) seen = true) by (apply existsb_exists; eauto).
  congruence.
Qed.

Lemma set_add_numeric seen x :
  numeric seen -> isNaN x = false -> numeric (set_add seen x).
Proof.
  intros Hs Hx. unfold set_add. destruct (set_has x seen); [exact Hs|].
  constructor; [apply set_key_numeric|]; assumption.
Qed.

Lemma fold_set_add l : forall seen,
  distinct seen -> numeric seen -> numeric l ->
  distinct (fold_left set_add l seen) /\ numeric (fold_left set_add l seen).
Proof.
  induction l as [|x l IH]; intros seen Hd Hn Hl; simpl; [auto|].
  inversion Hl; subst.
  apply IH; auto using set_add_distinct, set_add_numeric.
Qed.

Lemma dedupe_distinct l : numeric l -> distinct (dedupe l) /\ numeric (dedupe l).
Proof.
  intros Hl. unfold dedupe.
  assert (H : distinct (fold_left set_add l []) /\ numeric (fold_left set_add l [])).
  { apply fold_set_add; [constructor|constructor|exact Hl]. }
  destruct H as [Hd Hn].
  split; [apply distinct_rev; exact Hd|apply Forall_rev; exact Hn].
Qed.

Lemma insert_In cmp x l y : In y (insert cmp x l) <-> y = x \/ In y l.
Proof.
  induction l as [|z l IH]; simpl.
  - intuition.
  - destruct (ltb _ _); simpl; [intuition|].
    rewrite IH. intuition.
Qed.

Lemma insert_ascending x l :
  ascending l -> isNaN x = false -> numeric l ->
  Forall (fun y => sameValueZero x y = false) l ->
  ascending (insert sub x l).
Proof.
  induction 1 as [|y l Hs IH Hy]; intros Hx Hn Hd; simpl.
  - repeat constructor.
  - inversion Hn; subst. inversion Hd; subst.
    rewrite sub_negative by assumption.
    destruct (ltb x y) eqn:E.
    + constructor; [constructor; assumption|].
      constructor; [exact E|].
      eapply Forall_impl; [|exact Hy]. intros z Hz. simpl in *.
      eapply ltb_trans; eassumption.
    + constructor; [apply IH; assumption|].
      apply Forall_forall. intros z Hz. apply insert_In in Hz.
      destruct Hz as [->|Hz].
      * apply ltb_total; auto.
      * rewrite Forall_forall in Hy. auto.
Qed.

Lemma sort_fold_ascending l : forall acc,
  ascending acc -> numeric acc -> numeric l -> distinct l ->
  (forall x y, In x l -> In y acc -> sameValueZero x y = false) ->
  ascending (fold_left (fun acc x => insert sub x acc) l acc).
Proof.
  unfold numeric.
  induction l as [|x l IH]; intros acc Ha Hna Hnl Hd Hsep; simpl; [exact Ha|].
  inversion Hnl as [|? ? Hx Hnl']; subst.
  inversion Hd as [|? ? Hd' Hxl]; subst.
  apply IH; auto.
  - apply insert_ascending; auto.
    apply Forall_forall. intros y Hy. apply Hsep; simpl; auto.
  - apply Forall_forall. intros y Hy. apply insert_In in Hy.
    destruct Hy as [->|Hy]; [assumption|].
    rewrite Forall_forall in Hna. auto.
  - intros a b Ha' Hb. apply insert_In in Hb. destruct Hb as [->|Hb].
    + rewrite sameValueZero_sym.
      rewrite Forall_forall in Hxl. apply Hxl. exact Ha'.
    + apply Hsep; simpl; auto.
Qed.

(** Sorting distinct numbers with [(a, b) => a - b] puts them in strictly
    ascending order. *)
Lemma sort_ascending l : numeric l -> distinct l -> ascending (sort sub l).
Proof.
  intros Hn Hd. unfold sort. apply sort_fold_ascending; auto; try constructor.
  intros x y _ [].
Qed.

Lemma firstn_sorted (R : number -> number -> Prop) n l :
  StronglySorted R l -> StronglySorted R (firstn n l).
Proof.
  intros Hs. revert n. induction Hs as [|a l Hs IH Ha]; intros [|n]; simpl;
    try constructor; auto.
  apply Forall_forall. intros y Hy.
  rewrite Forall_forall in Ha. apply Ha.
  rewrite <- (firstn_skipn n l). apply in_or_app. auto.
Qed.

Lemma ascending_NoDup l : ascending l -> NoDup l.
Proof.
  induction 1 as [|a l Hs IH Ha]; constructor; auto.
  intros Hin. rewrite Forall_forall in Ha. specialize (Ha _ Hin).
  simpl in Ha. rewrite ltb_irrefl in Ha. discriminate.
Qed.

End ArrFacts.

(* ===================================================================== *)
(** * Regular expressions: what a match leaves behind *)
(* ===================================================================== *)

Module RegExpFacts.

Import RegExp.

Lemma rep_keeps_caps (step : mstate -> list mstate) :
  (forall st st', In st' (step st) -> caps st' = caps st) ->
  forall fuel min max st st',
    In st' (rep step min max fuel st) -> caps st' = caps st.
Proof.
  intros Hstep. induction fuel as [|fuel IH]; intros min max st st' Hin; simpl in Hin.
  - destruct min; simpl in Hin; intuition congruence.
  - assert (Hmore : forall l,
      In st' (flat_map (fun s' =>
          if Nat.eqb min 0 && Nat.eqb (pos s') (pos st) then []
          else rep step (Nat.pred min) (option_map Nat.pred max) fuel s') l) ->
      (forall s', In s' l -> caps s' = caps st) -> caps st' = caps st).
    { intros l H Hl. apply in_flat_map in H. destruct H as (s' & Hs' & H).
      destruct (Nat.eqb min 0 && Nat.eqb (pos s') (pos st)); [contradiction|].
      apply IH in H. rewrite H. auto. }
    destruct max as [[|mx]|]; try (simpl in Hin; intuition congruence);
      destruct min; try apply in_app_or in Hin;
      repeat match goal with
      | H : _ \/ _ |- _ => destruct H
      | H : In _ [_] |- _ => destruct H as [<-|[]]; reflexivity
      | H : In _ (flat_map _ _) |- _ => apply Hmore in H; auto
      end.
Qed.

(** A pattern without groups leaves the captures as they were. *)
Lemma run_keeps_caps r : Spec.groupless r = true ->
  forall st st', In st' (run r st) -> caps st' = caps st.
Proof.
  induction r as [|p|a IHa b IHb|a IHa b IHb|a IHa min max|i a IHa|];
    cbn [run Spec.groupless]; intros Hg st st' Hin.
  - destruct Hin as [<-|[]]. reflexivity.
  - destruct (rest st) as [|c t]; [contradiction|].
    destruct (p c); [|contradiction]. destruct Hin as [<-|[]]. reflexivity.
  - apply andb_prop in Hg. destruct Hg as [Ha Hb].
    apply in_flat_map in Hin. destruct Hin as (st1 & H1 & H2).
    rewrite (IHb Hb _ _ H2). auto.
  - apply andb_prop in Hg. destruct Hg as [Ha Hb].
    apply in_app_or in Hin. destruct Hin; auto.
  - eapply rep_keeps_caps; [|exact Hin]. auto.
  - discriminate.
  - destruct (Nat.eqb (pos st) 0); [|contradiction].
    destruct Hin as [<-|[]]. reflexivity.
Qed.

(** A literal under the [i] flag consumes a string that equals it up to
    case. *)
Lemma run_stri w : forall st st',
  In st' (run (seq_of chari w) st) ->
  exists g, rest st = g ++ rest st'
         /\ pos st' = pos st + List.length g
         /\ JsString.toUpperCase g = JsString.toUpperCase w
         /\ caps st' = caps st.
Proof.
  induction w as [|c w IH]; intros st st' Hin; simpl in Hin.
  - destruct Hin as [<-|[]]. exists []. simpl. auto.
  - apply in_flat_map in Hin. destruct Hin as (st1 & H1 & H2).
    simpl in H1. destruct (rest st) as [|x t] eqn:Hrest; [contradiction|].
    destruct (N.eqb_spec (JsString.upper_char x) (JsString.upper_char c)) as [Hx|];
      [|contradiction].
    destruct H1 as [<-|[]].
    apply IH in H2. simpl in H2. destruct H2 as (g & Hg & Hp & Hu & Hc).
    exists (x :: g). simpl. rewrite Hg, Hp, Hu, Hx, Hc.
    repeat split; auto.
Qed.

Import Spec.

Lemma rep_consumes (step : mstate -> list mstate) :
  (forall st st', In st' (step st) -> exists used, consumes st st' used) ->
  forall fuel min max st st',
    In st' (rep step min max fuel st) -> exists used, consumes st st' used.
Proof.
  intros Hstep. unfold consumes in *.
  assert (Hrefl : forall st, exists used : jsstring,
            rest st = used ++ rest st /\ pos st = pos st + List.length used).
  { intros st. exists []. simpl. auto. }
  induction fuel as [|fuel IH]; intros min max st st' Hin; simpl in Hin.
  - destruct min; simpl in Hin; [|contradiction].
    destruct Hin as [<-|[]]. apply Hrefl.
  - assert (Hmore : In st' (flat_map (fun s' =>
          if Nat.eqb min 0 && Nat.eqb (pos s') (pos st) then []
          else rep step (Nat.pred min) (option_map Nat.pred max) fuel s') (step st)) ->
        exists used, rest st = used ++ rest st' /\ pos st' = pos st + List.length used).
    { intros H. apply in_flat_map in H. destruct H as (s' & Hs' & H).
      destruct (Nat.eqb min 0 && Nat.eqb (pos s') (pos st)); [contradiction|].
      apply IH in H. destruct H as (u2 & Hr2 & Hp2).
      apply Hstep in Hs'. destruct Hs' as (u1 & Hr1 & Hp1).
      exists (u1 ++ u2). rewrite Hr1, Hr2, Hp2, Hp1, length_app, app_assoc.
      split; [reflexivity|lia]. }
    destruct max as [[|mx]|]; try (destruct Hin as [<-|[]]; apply Hrefl);
      destruct min; try apply in_app_or in Hin;
      repeat match goal with
      | H : _ \/ _ |- _ => destruct H
      | H : In _ [_] |- _ => destruct H as [<-|[]]; apply Hrefl
      end; auto.
Qed.

Lemma run_consumes r : forall st st',
  In st' (run r st) -> exists used, consumes st st' used.
Proof.
  unfold consumes.
  induction r as [|p|a IHa b IHb|a IHa b IHb|a IHa min max|i a IHa|];
    cbn [run]; intros st st' Hin.
  - destruct Hin as [<-|[]]. exists []. simpl. auto.
  - destruct (rest st) as [|c t] eqn:E; [contradiction|].
    destruct (p c); [|contradiction]. destruct Hin as [<-|[]].
    exists [c]. simpl. split; [reflexivity|lia].
  - apply in_flat_map in Hin. destruct Hin as (st1 & H1 & H2).
    apply IHa in H1. apply IHb in H2.
    destruct H1 as (u1 & Hr1 & Hp1). destruct H2 as (u2 & Hr2 & Hp2).
    exists (u1 ++ u2). rewrite Hr1, Hr2, Hp2, Hp1, length_app, app_assoc.
    split; [reflexivity|lia].
  - apply in_app_or in Hin. destruct Hin; auto.
  - eapply rep_consumes; [|exact Hin]. exact IHa.
  - apply in_map_iff in Hin. destruct Hin as (st1 & <- & H1).
    apply IHa in H1. exact H1.
  - destruct (Nat.eqb (pos st) 0); [|contradiction].
    destruct Hin as [<-|[]]. exists []. simpl. auto.
Qed.

Lemma flat_map_ext_In {A B} (f g : A -> list B) (l : list A) :
  (forall a, In a l -> f a = g a) -> flat_map f l = flat_map g l.
Proof.
  induction l as [|a l IH]; intros H; simpl; [reflexivity|].
  rewrite H by (left; reflexivity). rewrite IH; [reflexivity|].
  intros b Hb. apply H. right. exact Hb.
Qed.

(** The fuel that [run] gives a quantifier is enough: with more, the
    outcome is the same. *)
Lemma rep_fuel_enough (step : mstate -> list mstate) :
  (forall st st', In st' (step st) -> exists used, consumes st st' used) ->
  forall fuel min max st,
    min + List.length (rest st) < fuel ->
    rep step min max (S fuel) st = rep step min max fuel st.
Proof.
  intros Hstep. induction fuel as [|fuel IH]; intros min max st Hlt; [lia|].
  change (rep step min max (S (S fuel)) st) with
    (match max with
     | Some O => [st]
     | _ =>
         let more :=
           flat_map (fun st' =>
             if Nat.eqb min 0 && Nat.eqb (pos st') (pos st) then []
             else rep step (Nat.pred min) (option_map Nat.pred max) (S fuel) st')
             (step st) in
         match min with O => more ++ [st] | S _ => more end
     end).
  change (rep step min max (S fuel) st) with
    (match max with
     | Some O => [st]
     | _ =>
         let more :=
           flat_map (fun st' =>
             if Nat.eqb min 0 && Nat.eqb (pos st') (pos st) then []
             else rep step (Nat.pred min) (option_map Nat.pred max) fuel st')
             (step st) in
         match min with O => more ++ [st] | S _ => more end
     end).
  assert (Hmore :
    flat_map (fun st' =>
      if Nat.eqb min 0 && Nat.eqb (pos st') (pos st) then []
      else rep step (Nat.pred min) (option_map Nat.pred max) (S fuel) st') (step st)
    = flat_map (fun st' =>
      if Nat.eqb min 0 && Nat.eqb (pos st') (pos st) then []
      else rep step (Nat.pred min) (option_map Nat.pred max) fuel st') (step st)).
  { apply flat_map_ext_In. intros st' Hin.
    destruct (Hstep _ _ Hin) as (used & Hr & Hp).
    assert (Hlen : List.length (rest st) = List.length used + List.length (rest st')).
    { rewrite Hr, length_app. reflexivity. }
    destruct (Nat.eqb min 0 && Nat.eqb (pos st') (pos st)) eqn:E; [reflexivity|].
    apply IH. destruct min as [|min]; simpl in *.
    - apply Nat.eqb_neq in E. lia.
    - lia. }
  cbv zeta. rewrite Hmore. reflexivity.
Qed.

Lemma run_rep_fuel a min max st extra :
  rep (run a) min max (S (min + List.length (rest st)) + extra) st
  = run (Rep a min max) st.
Proof.
  cbn [run]. induction extra as [|extra IH].
  - rewrite Nat.add_0_r. reflexivity.
  - rewrite <- IH. rewrite Nat.add_succ_r.
    apply rep_fuel_enough; [apply run_consumes|lia].
Qed.

Lemma in_run_seq a b st st' :
  In st' (run (Seq a b) st) -> exists st1, In st1 (run a st) /\ In st' (run b st1).
Proof. simpl. intros H. apply in_flat_map in H. exact H. Qed.

Lemma in_run_alt a b st st' :
  In st' (run (Alt a b) st) -> In st' (run a st) \/ In st' (run b st).
Proof. simpl. apply in_app_or. Qed.

Lemma in_run_grp i a st st' :
  In st' (run (Grp i a) st) ->
  exists st1, In st1 (run a st)
           /\ st' = set_cap i (firstn (pos st1 - pos st) (rest st)) st1.
Proof.
  simpl. intros H. apply in_map_iff in H. destruct H as (st1 & <- & H). eauto.
Qed.

(** What a group around a case-insensitive literal captures. *)
Lemma in_run_grp_stri i w st st' :
  In st' (run (Grp i (stri w)) st) ->
  exists g, cap i st' = Some g
         /\ JsString.toUpperCase g = JsString.toUpperCase (JsString.str w).
Proof.
  intros H. apply in_run_grp in H. destruct H as (st1 & H1 & ->).
  apply run_stri in H1. destruct H1 as (g & Hr & Hp & Hu & _).
  exists g. split; [|exact Hu].
  unfold cap, set_cap. simpl. rewrite Nat.eqb_refl.
  rewrite Hr, Hp. replace (pos st + List.length g - pos st) with (List.length g) by lia.
  f_equal. rewrite firstn_app, firstn_all, Nat.sub_diag. simpl. apply app_nil_r.
Qed.

(** Every match a scan reports is the match found at some position. *)
Lemma scan_In r m s : forall i skip,
  In m (scan r i skip s) -> exists i' s', match_at r i' s' = Some m.
Proof.
  induction s as [|c s IH]; intros i skip Hin.
  - destruct skip; simpl in Hin; [|contradiction].
    destruct (match_at r i []) eqn:E; [|contradiction].
    destruct Hin as [<-|[]]. eauto.
  - destruct skip; simpl in Hin; [|eauto].
    destruct (match_at r i (c :: s)) eqn:E.
    + destruct Hin as [<-|Hin]; eauto.
    + eauto.
Qed.

End RegExpFacts.

(* ===================================================================== *)
(** * The OCR text parser *)
(* ===================================================================== *)

Module OCRFacts.

Import OCR.

Lemma price_of_match_numeric m v :
  price_of_match m = Some v -> Number.isNaN v = false.
Proof.
  unfold price_of_match.
  destruct (negb _ && Number.gtb _ _) eqn:E; [|discriminate].
  apply andb_prop in E. destruct E as [_ Hpos].
  intros H. injection H as <-.
  apply NumberFacts.parseFloat_toFixed. exact Hpos.
Qed.

Lemma keep_some_Forall {A} (P : A -> Prop) (l : list (option A)) :
  (forall a, In (Some a) l -> P a) -> Forall P (keep_some l).
Proof.
  intros H. unfold keep_some. apply Forall_flat_map.
  apply Forall_forall. intros [a|] Hin; repeat constructor. auto.
Qed.

Lemma allPrices_numeric text : Spec.numeric (allPrices text).
Proof.
  unfold allPrices, Spec.numeric. apply Forall_flat_map.
  apply Forall_forall. intros pattern _.
  apply keep_some_Forall. intros v Hin.
  apply in_map_iff in Hin. destruct Hin as (m & Hm & _).
  eapply price_of_match_numeric; eassumption.
Qed.

Lemma extractPrices_ascending text : Spec.ascending (extractPrices text).
Proof.
  unfold extractPrices, Arr.slice0.
  apply ArrFacts.firstn_sorted.
  destruct (ArrFacts.dedupe_distinct (allPrices_numeric text)) as [Hd Hn].
  apply ArrFacts.sort_ascending; assumption.
Qed.

(** The tag that a match of [maPattern] captures is MA, SMA or EMA in some
    mix of cases. *)
Lemma maPattern_tag i s m :
  RegExp.match_at maPattern i s = Some m ->
  exists g1, RegExp.group 1 m = Some g1
          /\ In (JsString.toUpperCase g1)
                [JsString.str "MA"; JsString.str "SMA"; JsString.str "EMA"].
Proof.
  unfold RegExp.match_at.
  destruct (RegExp.run maPattern _) as [|st l] eqn:E; [discriminate|].
  intros H. injection H as <-.
  assert (Hin : In st (RegExp.run maPattern (RegExp.MState i s []))).
  { rewrite E. left. reflexivity. }
  clear E. unfold maPattern in Hin. cbn [RegExp.seqs] in Hin.
  apply RegExpFacts.in_run_seq in Hin. destruct Hin as (st1 & H1 & Hin).
  apply RegExpFacts.in_run_seq in Hin. destruct Hin as (st2 & H2 & Hin).
  apply RegExpFacts.in_run_grp in Hin. destruct Hin as (st3 & H3 & ->).
  apply RegExpFacts.run_keeps_caps in H3; [|reflexivity].
  apply RegExpFacts.run_keeps_caps in H2; [|reflexivity].
  unfold RegExp.group. simpl. rewrite H3, H2.
  assert (Htag : exists g w, RegExp.cap 1 st1 = Some g
            /\ JsString.toUpperCase g = JsString.toUpperCase (JsString.str w)
            /\ In w ["MA"; "SMA"; "EMA"]%string).
  { apply RegExpFacts.in_run_grp in H1. destruct H1 as (st0 & H0 & ->).
    assert (Hw : exists w, In w ["MA"; "SMA"; "EMA"]%string
                        /\ In st0 (RegExp.run (RegExp.stri w) (RegExp.MState i s []))).
    { apply RegExpFacts.in_run_alt in H0. destruct H0 as [H0|H0].
      - exists "MA"%string. simpl. auto.
      - apply RegExpFacts.in_run_alt in H0. destruct H0 as [H0|H0].
        + exists "SMA"%string. simpl. auto.
        + exists "EMA"%string. simpl. auto. }
    destruct Hw as (w & Hw & H0').
    destruct (@RegExpFacts.in_run_grp_stri 1 w (RegExp.MState i s [])
                (RegExp.set_cap 1 (firstn (RegExp.pos st0 - i) s) st0))
      as (g & Hg & Hu).
    { simpl. apply in_map_iff. exists st0. auto. }
    exists g, w. auto. }
  destruct Htag as (g & w & Hg & Hu & Hw).
  exists g. split; [exact Hg|]. rewrite Hu.
  simpl in Hw. destruct Hw as [<-|[<-|[<-|[]]]]; simpl; auto.
Qed.

(** A match of [maPattern] is never empty, so the [while] loop over
    [maPattern.exec] moves on at every turn; and both groups take part in
    it. *)
Lemma maPattern_progress i s m :
  RegExp.match_at maPattern i s = Some m ->
  RegExp.matched m <> []
  /\ exists g1 g2, RegExp.group 1 m = Some g1 /\ RegExp.group 2 m = Some g2.
Proof.
  unfold RegExp.match_at.
  destruct (RegExp.run maPattern _) as [|st l] eqn:E; [discriminate|].
  intros H. injection H as <-. cbn [RegExp.matched RegExp.group RegExp.groups].
  assert (Hin : In st (RegExp.run maPattern (RegExp.MState i s []))).
  { rewrite E. left. reflexivity. }
  clear E.
  destruct (RegExpFacts.run_consumes _ _ _ Hin) as (used & Hr & Hp).
  simpl in Hr, Hp.
  unfold maPattern in Hin. cbn [RegExp.seqs] in Hin.
  apply RegExpFacts.in_run_seq in Hin. destruct Hin as (st1 & H1 & Hin).
  apply RegExpFacts.in_run_seq in Hin. destruct Hin as (st2 & H2 & Hin).
  apply RegExpFacts.in_run_grp in Hin. destruct Hin as (st3 & H3 & ->).
  pose proof (@RegExpFacts.run_keeps_caps (decimal_upto 6 5) eq_refl _ _ H3) as Hc3.
  pose proof (@RegExpFacts.run_keeps_caps (RegExp.star label_gap) eq_refl _ _ H2) as Hc2.
  destruct (RegExpFacts.run_consumes _ _ _ H3) as (u3 & _ & Hp3).
  destruct (RegExpFacts.run_consumes _ _ _ H2) as (u2 & _ & Hp2).
  apply RegExpFacts.in_run_grp in H1. destruct H1 as (st0 & H0 & ->).
  assert (Hlen : i + 2 <= RegExp.pos st0).
  { assert (Hw : exists w, (2 <= String.length w)
                        /\ In st0 (RegExp.run (RegExp.stri w) (RegExp.MState i s []))).
    { apply RegExpFacts.in_run_alt in H0. destruct H0 as [H0|H0].
      - exists "MA"%string. simpl. auto.
      - apply RegExpFacts.in_run_alt in H0. destruct H0 as [H0|H0].
        + exists "SMA"%string. simpl. auto.
        + exists "EMA"%string. simpl. auto. }
    destruct Hw as (w & Hw & H0').
    apply RegExpFacts.run_stri in H0'. destruct H0' as (g & _ & Hpg & Hu & _).
    simpl in Hpg.
    assert (List.length g = String.length w).
    { apply (f_equal (@List.length N)) in Hu.
      unfold JsString.toUpperCase, JsString.str in Hu.
      rewrite !length_map in Hu. rewrite Hu.
      clear. induction w; simpl; auto. }
    lia. }
  simpl in Hp3, Hp2, Hp. split.
  - destruct used as [|c used]; [simpl in *; lia|].
    rewrite Hr. cbn [RegExp.pos RegExp.set_cap].
    replace (RegExp.pos st3 - i) with (S (List.length used)) by (simpl in Hp; lia).
    simpl. discriminate.
  - simpl. rewrite Hc3, Hc2. simpl. do 2 eexists. split; reflexivity.
Qed.

Lemma recordMA_keeps_RSI ind m :
  (exists i s, RegExp.match_at maPattern i s = Some m) ->
  Obj.get Spec.RSI (recordMA ind m) = Obj.get Spec.RSI ind.
Proof.
  intros (i & s & Hm). apply maPattern_tag in Hm.
  destruct Hm as (g1 & Hg & Htag).
  unfold recordMA. rewrite Hg.
  destruct (RegExp.group 2 m) as [g2|]; [|reflexivity].
  destruct (negb _); [|reflexivity].
  apply ObjFacts.get_set_other.
  simpl in Htag. destruct Htag as [<-|[<-|[<-|[]]]]; discriminate.
Qed.

Lemma extractMAs_keeps_RSI text ind :
  Obj.get Spec.RSI (extractMAs text ind) = Obj.get Spec.RSI ind.
Proof.
  unfold extractMAs, RegExp.match_all.
  assert (H : forall l ind,
    (forall m, In m l -> exists i s, RegExp.match_at maPattern i s = Some m) ->
    Obj.get Spec.RSI (fold_left recordMA l ind) = Obj.get Spec.RSI ind).
  { induction l as [|m l IH]; intros ind0 Hl; simpl; [reflexivity|].
    rewrite IH by (intros; apply Hl; simpl; auto).
    apply recordMA_keeps_RSI. apply Hl. simpl. auto. }
  apply H. intros m Hm. eapply RegExpFacts.scan_In. exact Hm.
Qed.

Lemma extractMACD_keeps_RSI text ind :
  Obj.get Spec.RSI (extractMACD text ind) = Obj.get Spec.RSI ind.
Proof.
  unfold extractMACD. destruct (truthy_group 1 _); [|reflexivity].
  destruct (negb _); [|reflexivity].
  apply ObjFacts.get_set_other. discriminate.
Qed.

(** The value the loop over the patterns records: that of the first pattern
    whose match is acceptable. *)
Lemma extractRSI_get text patterns : forall ind,
  Obj.get Spec.RSI (extractRSI text patterns ind) =
  match keep_some (map (rsi_of_pattern text) patterns) with
  | v :: _ => Some v
  | [] => Obj.get Spec.RSI ind
  end.
Proof.
  induction patterns as [|p ps IH]; intros ind; simpl; [reflexivity|].
  destruct (rsi_of_pattern text p) as [v|]; simpl.
  - apply ObjFacts.get_set_same.
  - apply IH.
Qed.

Lemma recorded_RSI text :
  Obj.get Spec.RSI (indicators (extractedData (parseOCRText text))) =
  hd_error (keep_some (map (rsi_of_pattern text) rsiPatterns)).
Proof.
  unfold parseOCRText. cbn [extractedData indicators].
  rewrite extractMAs_keeps_RSI, extractMACD_keeps_RSI, extractRSI_get.
  destruct (keep_some _); reflexivity.
Qed.

Lemma rsi_of_pattern_iff text pattern v :
  rsi_of_pattern text pattern = Some v <->
  Spec.rsi_match text pattern v /\ Spec.rsi_in_range v.
Proof.
  unfold rsi_of_pattern, truthy_group, Spec.rsi_match, Spec.rsi_in_range. split.
  - destruct (RegExp.exec pattern text) as [m|]; [|discriminate].
    destruct (RegExp.group 1 m) as [[|c g]|] eqn:Hg; try discriminate.
    destruct (negb _ && _ && _) eqn:E; [|discriminate].
    intros H. injection H as <-.
    apply andb_prop in E. destruct E as [E E3].
    apply andb_prop in E. destruct E as [E1 E2].
    apply negb_true_iff in E1.
    split; [|auto]. exists m, (c :: g). repeat split; auto. discriminate.
  - intros [(m & g & -> & -> & Hne & ->) (H1 & H2 & H3)].
    destruct g as [|c g]; [congruence|].
    rewrite H1, H2, H3. reflexivity.
Qed.

Lemma rsi_match_unique text pattern v v' :
  Spec.rsi_match text pattern v -> Spec.rsi_match text pattern v' -> v = v'.
Proof.
  intros (m & g & Hm & Hg & _ & ->) (m' & g' & Hm' & Hg' & _ & ->).
  congruence.
Qed.

Lemma rsi_of_pattern_none text pattern :
  rsi_of_pattern text pattern = None <->
  forall v, Spec.rsi_match text pattern v -> ~ Spec.rsi_in_range v.
Proof.
  split.
  - intros Hn v Hm Hr.
    assert (rsi_of_pattern text pattern = Some v) by (apply rsi_of_pattern_iff; auto).
    congruence.
  - intros H. destruct (rsi_of_pattern text pattern) as [v|] eqn:E; [|reflexivity].
    apply rsi_of_pattern_iff in E. destruct E as [Hm Hr]. destruct (H v Hm Hr).
Qed.

(** The first element of a list on which [f] gives a value. *)
Lemma first_some {A B} (f : A -> option B) (l : list A) v :
  hd_error (keep_some (map f l)) = Some v <->
  exists i a, nth_error l i = Some a /\ f a = Some v
           /\ forall j a', j < i -> nth_error l j = Some a' -> f a' = None.
Proof.
  induction l as [|a l IH]; simpl.
  - split; [discriminate|]. intros ([|i] & a & H & _); discriminate.
  - destruct (f a) as [b|] eqn:E; simpl.
    + split.
      * intros H. injection H as <-. exists 0, a. repeat split; auto.
        intros j a' Hj. lia.
      * intros ([|i] & a0 & Hn & Hf & Hfirst); simpl in Hn.
        -- injection Hn as <-. congruence.
        -- specialize (Hfirst 0 a (Nat.lt_0_succ i) eq_refl). congruence.
    + unfold keep_some in IH. rewrite IH. split.
      * intros (i & a0 & Hn & Hf & Hfirst). exists (S i), a0. repeat split; auto.
        intros [|j] a' Hj Hn'; simpl in Hn'.
        -- injection Hn' as <-. exact E.
        -- apply (Hfirst j); auto. lia.
      * intros ([|i] & a0 & Hn & Hf & Hfirst); simpl in Hn.
        -- injection Hn as <-. congruence.
        -- exists i, a0. repeat split; auto.
           intros j a' Hj Hn'. apply (Hfirst (S j)); auto. lia.
Qed.

End OCRFacts.

(* ===================================================================== *)
(** * The stages of the service *)
(* ===================================================================== *)

Module ServiceFacts.

Import Service.

Ltac unfold_m :=
  cbv [bind try_catch lift lift_unit ret throw queue] in *.

(** When a step fails, the [try] block of [preprocessImage] throws. *)
Lemma preprocessImage_try_fails rt image w :
  Spec.preprocessing_fails rt image ->
  exists e, preprocessImage_try rt image w = (inl e, w).
Proof.
  intros [[e He]|(info & Hi & Hstep)]; unfold preprocessImage_try; unfold_m.
  - rewrite He. eauto.
  - rewrite Hi. unfold Spec.sharp_ops in Hstep.
    destruct Hstep as [(k & op & err & Hk & Hop)|[err Herr]].
    + destruct (exceeds_2000 (width info) || exceeds_2000 (height info));
        cbn [app fst snd] in *;
        repeat match goal with
        | |- context [sharp_op rt ?o ?p] =>
            let E := fresh "E" in destruct (sharp_op rt o p) eqn:E; cbn [app fst snd] in *
        end; eauto;
        do 6 (try destruct k as [|k]); cbn in Hk, Hop; try discriminate;
        injection Hk as <-; congruence.
    + destruct (exceeds_2000 (width info) || exceeds_2000 (height info));
        cbn [app fst snd] in *;
        repeat match goal with
        | |- context [sharp_op rt ?o ?p] =>
            let E := fresh "E" in destruct (sharp_op rt o p) eqn:E; cbn [app fst snd] in *
        end; eauto;
        rewrite Herr; eauto.
Qed.

(** [preprocessImage] returns a buffer and leaves the world alone. *)
Lemma preprocessImage_total rt image w :
  exists out, preprocessImage rt image w = (inr out, w).
Proof.
  unfold preprocessImage, preprocessImage_try. unfold_m.
  destruct (sharp_metadata rt image) as [e|info]; [eauto|].
  destruct (exceeds_2000 (width info) || exceeds_2000 (height info));
    repeat match goal with
    | |- context [sharp_op rt ?o ?p] => destruct (sharp_op rt o p); cbn [fst snd]
    end; eauto;
    match goal with
    | |- context [sharp_toBuffer rt ?p] => destruct (sharp_toBuffer rt p); eauto
    end.
Qed.

(** [extractChartDataWithOCR] returns a result; it touches neither the
    request counter nor the clock. *)
Lemma extractChartDataWithOCR_total rt image w :
  exists res w',
    extractChartDataWithOCR rt image w = (inr res, w')
    /\ requestCount w' = requestCount w /\ clockReads w' = clockReads w.
Proof.
  unfold extractChartDataWithOCR, with_worker, OCR_createWorker, OCR_terminate.
  unfold_m.
  destruct (createWorker rt _ _); [eauto|].
  destruct (worker_setParameters rt _);
    [|destruct (worker_recognize rt _ image)];
    repeat match goal with
    | |- context [worker_terminate rt ?a ?b] => destruct (worker_terminate rt a b)
    end; eauto.
Qed.

Lemma getFallbackAnalysis_run rt symbol timeframe tradeType error requestId w :
  getFallbackAnalysis rt symbol timeframe tradeType error requestId w =
  (inr (fallback_object error requestId (toISOString rt (clock rt (clockReads w)))),
   tick w).
Proof. reflexivity. Qed.

Lemma parseAIResponse_run rt data requestId w :
  parseAIResponse rt data requestId w =
  match parseAIResponse_try rt data with
  | inr v => (inr v, w)
  | inl e =>
      (inr (fallback_object e requestId (toISOString rt (clock rt (clockReads w)))),
       tick w)
  end.
Proof.
  unfold parseAIResponse. unfold_m.
  destruct (parseAIResponse_try rt data); reflexivity.
Qed.

Lemma analyzeWithAI_run rt ocrData symbol timeframe tradeType extraNotes requestId w :
  analyzeWithAI rt ocrData symbol timeframe tradeType extraNotes requestId w =
  match client_post rt (Spec.prompt_in rt ocrData symbol timeframe tradeType extraNotes w) with
  | inl e => (inl (mkError (JsString.str "AI service error: " ++ message e)), tick w)
  | inr data =>
      match parseAIResponse_try rt data with
      | inr v => (inr v, tick w)
      | inl e =>
          (inr (fallback_object e requestId
                  (toISOString rt (clock rt (S (clockReads w))))),
           tick (tick w))
      end
  end.
Proof.
  unfold analyzeWithAI, generateTradingPrompt, timestamp_now, Date_now.
  cbv [bind try_catch ret].
  fold (Spec.prompt_in rt ocrData symbol timeframe tradeType extraNotes w).
  unfold lift at 1.
  destruct (client_post rt _) as [e|data]; [reflexivity|].
  rewrite parseAIResponse_run.
  destruct (parseAIResponse_try rt data); reflexivity.
Qed.

Lemma validate_inputs_run req w :
  validate_inputs req w = (Spec.input_check req, w).
Proof.
  unfold validate_inputs, Spec.input_check. unfold_m.
  destruct (imageBuffer req) as [[|b bs]|]; try reflexivity.
  destruct (is_trading_pair (symbol req)); reflexivity.
Qed.

(** How a call of [analyzeTradingChart] goes, stage by stage. *)
Lemma analyzeTradingChart_run rt req w :
  let id := (requestCount w + 1)%Z in
  let t0 := clock rt (clockReads w) in
  let r := clockReads w in
  let stamp n := toISOString rt (clock rt n) in
  match Spec.input_check req with
  | inl e =>
      Spec.prompt_sent rt req w = None
      /\ exists w', analyzeTradingChart rt req w =
                    (inr (fallback_object e id (stamp (S (S r)))), w')
  | inr image =>
      exists prompt,
        Spec.prompt_sent rt req w = Some prompt
        /\ match client_post rt prompt with
           | inl e =>
               exists w', analyzeTradingChart rt req w =
                 (inr (fallback_object
                         (mkError (JsString.str "AI service error: " ++ message e))
                         id (stamp (S (S (S r))))), w')
           | inr data =>
               match parseAIResponse_try rt data with
               | inr v =>
                   exists w', analyzeTradingChart rt req w =
                     (inr (Js.Object
                             (Obj.set (JsString.str "metadata")
                                (metadata req id (clock rt (S (S r)) - t0)
                                   (stamp (S (S (S r)))))
                                (spread v))), w')
               | inl e =>
                   exists w', analyzeTradingChart rt req w =
                     (inr (Js.Object
                             (Obj.set (JsString.str "metadata")
                                (metadata req id (clock rt (S (S (S r))) - t0)
                                   (stamp (S (S (S (S r))))))
                                (spread (fallback_object e id (stamp (S (S r))))))),
                      w')
               end
           end
  end.
Proof.
  cbv zeta.
  unfold Spec.prompt_sent, Spec.stages_before_invocation,
    analyzeTradingChart, analyzeTradingChart_try, next_request_id,
    generateTradingPrompt, timestamp_now, Date_now.
  cbv [bind try_catch ret].
  change (tick {| requestCount := requestCount w + 1; clockReads := clockReads w;
                  trace := trace w |}) with (Spec.started w).
  rewrite validate_inputs_run.
  destruct (Spec.input_check req) as [e|image].
  - rewrite getFallbackAnalysis_run. split; [reflexivity|]. eauto.
  - destruct (preprocessImage_total rt image (Spec.started w)) as [processed Hp].
    destruct (extractChartDataWithOCR_total rt processed (Spec.started w))
      as (ocrData & w3 & Ho & _ & Hc).
    rewrite Hp, Ho, analyzeWithAI_run.
    exists (Spec.prompt_in rt ocrData (symbol req) (timeframe req)
              (tradeType req) (extraNotes req) w3).
    simpl in Hc. split; [reflexivity|].
    destruct (client_post rt _) as [e|data].
    + rewrite getFallbackAnalysis_run. cbn [tick clockReads]. rewrite Hc. eauto.
    + destruct (parseAIResponse_try rt data) as [e|v];
        cbn [tick clockReads]; rewrite Hc; eauto.
Qed.


(** Only an object has a truthy property of the names the validator
    checks. *)
Lemma truthy_prop_object k v x :
  Js.get_prop k v = Some x -> Js.truthy x = true -> exists o, v = Js.Object o.
Proof.
  destruct v; simpl; try discriminate;
    try (intros H; injection H as <-; discriminate).
  eauto.
Qed.


Lemma embeds_middle (pre m post : jsstring) : JsString.embeds m (pre ++ m ++ post).
Proof. exists pre, post. reflexivity. Qed.

Lemma embeds_or_else pre m d post :
  JsString.embeds m (pre ++ or_else m d ++ post).
Proof.
  destruct m as [|c m]; simpl.
  - exists [], (pre ++ d ++ post). reflexivity.
  - apply (embeds_middle pre (c :: m) post).
Qed.

End ServiceFacts.


(* ===================================================================== *)
(** * More about numbers read from text *)
(* ===================================================================== *)

Module ReadingFacts.

Import Number.
Open Scope Z_scope.

Lemma span_digits_spec s :
  Forall (fun c => JsString.is_digit c = true) (fst (span_digits s))
  /\ s = fst (span_digits s) ++ snd (span_digits s).
Proof.
  induction s as [|c s IH]; simpl; [split; [constructor|reflexivity]|].
  destruct (JsString.is_digit c) eqn:E; [|split; [constructor|reflexivity]].
  destruct (span_digits s) as [ds r]. simpl in *. destruct IH as [H1 H2].
  split; [constructor; assumption|congruence].
Qed.

Lemma digits_value_nonneg ds :
  Forall (fun c => JsString.is_digit c = true) ds -> 0 <= digits_value ds.
Proof.
  unfold digits_value.
  assert (H : forall acc, 0 <= acc ->
    Forall (fun c => JsString.is_digit c = true) ds ->
    0 <= fold_left (fun a c => a * 10 + (Z.of_N c - 48)) ds acc).
  { induction ds as [|c ds IH]; intros acc Hacc Hd; simpl; [exact Hacc|].
    inversion Hd as [|? ? Hc Hds]; subst. apply IH; [|exact Hds].
    unfold JsString.is_digit in Hc. apply andb_prop in Hc. destruct Hc as [Hc _].
    apply N.leb_le in Hc. lia. }
  apply H. lia.
Qed.

Lemma rne_nonneg n d : 0 <= n -> 0 < d -> 0 <= rne n d.
Proof.
  intros Hn Hd. unfold rne.
  assert (0 <= n / d) by (apply Z.div_pos; lia).
  destruct (Z.compare _ _); [destruct (Z.even _)| |]; lia.
Qed.

Lemma round_mag_nonneg n d k : 0 <= n -> 0 < d -> round_mag n d = Some k -> 0 <= k.
Proof.
  intros Hn Hd. unfold round_mag.
  destruct (Z.ltb_spec (n / d) (2 ^ 53)) as [Hq|Hq].
  - pose proof (rne_nonneg Hn Hd).
    destruct (rne n d <? 2 ^ 2098); intros H'; [|discriminate].
    injection H' as <-. assumption.
  - assert (Hl : 53 <= Z.log2 (n / d)) by (apply Z.log2_le_pow2; lia).
    assert (Hu : 0 < 2 ^ (Z.log2 (n / d) - 52)) by (apply Z.pow_pos_nonneg; lia).
    revert Hu. generalize (2 ^ (Z.log2 (n / d) - 52)). intros u Hu.
    assert (0 <= rne n (d * u)) by (apply rne_nonneg; nia).
    destruct (_ <? 2 ^ 2098); intros H'; [|discriminate].
    injection H' as <-. nia.
Qed.

(** The sign of a number read with the flag [neg]. *)
Lemma of_ratio_positive_sign n d :
  0 <= n -> 0 < d -> Glossary.nonneg (of_ratio false n d).
Proof.
  intros Hn Hd. unfold of_ratio, Glossary.nonneg.
  destruct (round_mag (n * 2 ^ 1074) d) as [k|] eqn:E; [|split; reflexivity].
  apply round_mag_nonneg in E; [|nia|exact Hd].
  destruct k as [|p|p]; try lia; split; reflexivity.
Qed.

Lemma of_decimal_positive_sign m e :
  0 <= m -> Glossary.nonneg (of_decimal false m e).
Proof.
  intros Hm. unfold of_decimal. destruct (Z.leb_spec 0 e).
  - apply of_ratio_positive_sign; [|lia].
    pose proof (Z.pow_nonneg 10 e). nia.
  - apply of_ratio_positive_sign; [exact Hm|].
    apply Z.pow_pos_nonneg; lia.
Qed.

(** A text that starts with a digit reads as a number that is not below
    zero. *)
Lemma parseFloat_digit_nonneg c r :
  JsString.is_digit c = true -> Glossary.nonneg (parseFloat (c :: r)).
Proof.
  intros Hd. unfold parseFloat.
  pose proof (JsStringFacts.digit_not_space c Hd) as Hs.
  pose proof Hd as Hd'.
  unfold JsString.is_digit in Hd. apply andb_prop in Hd. destruct Hd as [H1 H2].
  apply N.leb_le in H1. apply N.leb_le in H2.
  simpl JsString.trimStart. rewrite Hs.
  unfold take_sign.
  destruct (N.eqb_spec c 45); [lia|]. destruct (N.eqb_spec c 43); [lia|].
  assert (Hinf : JsString.starts_with (JsString.str "Infinity") (c :: r) = false).
  { change (JsString.starts_with (JsString.str "Infinity") (c :: r))
      with (N.eqb 73 c && JsString.starts_with (JsString.str "nfinity") r).
    destruct (N.eqb_spec 73 c); [lia|reflexivity]. }
  rewrite Hinf.
  pose proof (span_digits_spec (c :: r)) as [Hip _].
  assert (Hne : fst (span_digits (c :: r)) <> []).
  { simpl. rewrite Hd'. destruct (span_digits r). discriminate. }
  destruct (span_digits (c :: r)) as [ip s3]. simpl in Hip, Hne.
  assert (Hfp : Forall (fun c => JsString.is_digit c = true) (fst (take_fraction s3))).
  { unfold take_fraction. destruct s3 as [|x s3]; [constructor|].
    destruct (N.eqb x 46); [apply span_digits_spec|constructor]. }
  destruct (take_fraction s3) as [fp s4]. simpl in Hfp.
  destruct (ip ++ fp) as [|x ds] eqn:E.
  { destruct ip; [congruence|discriminate]. }
  rewrite <- E. apply of_decimal_positive_sign.
  apply digits_value_nonneg. apply Forall_app. auto.
Qed.

(** A text that is a minus sign and a digit reads as a number. *)
Lemma parseFloat_minus_digit c r :
  JsString.is_digit c = true -> isNaN (parseFloat (45%N :: c :: r)) = false.
Proof.
  intros Hd. unfold parseFloat.
  change (JsString.trimStart (45%N :: c :: r)) with (45%N :: c :: r).
  change (take_sign (45%N :: c :: r)) with (true, c :: r).
  pose proof Hd as Hd'.
  unfold JsString.is_digit in Hd. apply andb_prop in Hd. destruct Hd as [H1 H2].
  apply N.leb_le in H1. apply N.leb_le in H2.
  assert (Hinf : JsString.starts_with (JsString.str "Infinity") (c :: r) = false).
  { change (JsString.starts_with (JsString.str "Infinity") (c :: r))
      with (N.eqb 73 c && JsString.starts_with (JsString.str "nfinity") r).
    destruct (N.eqb_spec 73 c); [lia|reflexivity]. }
  rewrite Hinf.
  assert (Hne : fst (span_digits (c :: r)) <> []).
  { simpl. rewrite Hd'. destruct (span_digits r). discriminate. }
  destruct (span_digits (c :: r)) as [ip s3]. simpl in Hne.
  destruct (take_fraction s3) as [fp s4].
  destruct (ip ++ fp) as [|x ds] eqn:E.
  { destruct ip; [congruence|discriminate]. }
  apply NumberFacts.of_decimal_not_NaN.
Qed.

(** Printing a positive number and reading it back gives a number that is
    not below zero. *)
Lemma parseFloat_toFixed_nonneg x f :
  gtb x zero = true -> Glossary.nonneg (parseFloat (toFixed x f)).
Proof.
  destruct x as [|s| |k]; try discriminate.
  - destruct s; [discriminate|]. intros _. split; reflexivity.
  - unfold gtb, ltb, units, zero. intros Hk. apply Z.ltb_lt in Hk.
    unfold toFixed.
    destruct (Z.ltb_spec k 0); [lia|].
    rewrite Z.abs_eq by lia. rewrite app_nil_l.
    destruct (10 ^ 21 * 2 ^ 1074 <=? k).
    + destruct (@NumberFacts.toString_large_head (k / 2 ^ 1074)) as (c & r & -> & Hc).
      { apply Z.div_pos; [lia|]. apply Z.pow_pos_nonneg; lia. }
      apply parseFloat_digit_nonneg; assumption.
    + destruct (@NumberFacts.fixed_digits_head
                  ((2 * k * 10 ^ Z.of_nat f + 2 ^ 1074) / 2 ^ 1075) f)
        as (c & r & -> & Hc).
      { apply Z.div_pos; [|apply Z.pow_pos_nonneg; lia].
        pose proof (Z.pow_nonneg 10 (Z.of_nat f)).
        pose proof (Z.pow_nonneg 2 1074). nia. }
      apply parseFloat_digit_nonneg; assumption.
Qed.

End ReadingFacts.

(* ===================================================================== *)
(** * More about matches *)
(* ===================================================================== *)

Module MatchFacts.

Import RegExp Glossary.

Lemma consumes_later st st' used : Spec.consumes st st' used -> pos st <= pos st'.
Proof. intros [_ Hp]. lia. Qed.

Lemma run_later r st st' : In st' (run r st) -> pos st <= pos st'.
Proof.
  intros H. apply RegExpFacts.run_consumes in H. destruct H as (u & Hu).
  eapply consumes_later. exact Hu.
Qed.

(** The subject after a match is a suffix of the subject before it. *)
Lemma run_suffix r st st' :
  In st' (run r st) -> exists used, rest st = used ++ rest st'.
Proof.
  intros H. apply RegExpFacts.run_consumes in H. destruct H as (u & Hu & _). eauto.
Qed.

(** A class repeated at least once starts with a character of the class. *)
Lemma starts_in_rep p min max :
  max <> Some 0 -> starts_in p (Rep (Chr p) (S min) max).
Proof.
  intros Hmax st st' Hin. cbn [run] in Hin.
  change (rep (run (Chr p)) (S min) max (S (S min + List.length (rest st))) st)
    with (match max with
          | Some O => [st]
          | _ => flat_map (fun s' =>
                   if Nat.eqb (S min) 0 && Nat.eqb (pos s') (pos st) then []
                   else rep (run (Chr p)) min (option_map Nat.pred max)
                          (S min + List.length (rest st)) s') (run (Chr p) st)
          end) in Hin.
  assert (Hin' : In st' (flat_map (fun s' =>
                   if Nat.eqb (S min) 0 && Nat.eqb (pos s') (pos st) then []
                   else rep (run (Chr p)) min (option_map Nat.pred max)
                          (S min + List.length (rest st)) s') (run (Chr p) st))).
  { destruct max as [[|mx]|]; [congruence|exact Hin|exact Hin]. }
  clear Hin. apply in_flat_map in Hin'. destruct Hin' as (s1 & H1 & H2).
  cbn [run] in H1. destruct (rest st) as [|c t] eqn:E; [contradiction|].
  destruct (p c) eqn:Hp; [|contradiction]. destruct H1 as [<-|[]].
  cbn [Nat.eqb andb] in H2.
  apply RegExpFacts.rep_consumes in H2; [|intros; eapply RegExpFacts.run_consumes; eauto].
  destruct H2 as (u & _ & Hpos). cbn [pos] in Hpos.
  exists c, t. repeat split; auto. lia.
Qed.

Lemma starts_in_seq p a b : starts_in p a -> starts_in p (Seq a b).
Proof.
  intros Ha st st' Hin. apply RegExpFacts.in_run_seq in Hin.
  destruct Hin as (s1 & H1 & H2). apply Ha in H1.
  destruct H1 as (c & t & Hr & Hp & Hlt). apply run_later in H2.
  exists c, t. repeat split; auto. lia.
Qed.

Lemma starts_in_decimal ip fp :
  starts_in JsString.is_digit (OCR.decimal_upto (S ip) fp).
Proof.
  unfold OCR.decimal_upto, range. apply starts_in_seq.
  apply starts_in_rep. discriminate.
Qed.

(** What a group captures when its body starts in a class. *)
Lemma captured_head p i a st st' :
  starts_in p a -> In st' (run (Grp i a) st) ->
  exists c g, cap i st' = Some (c :: g) /\ p c = true.
Proof.
  intros Ha Hin. apply RegExpFacts.in_run_grp in Hin.
  destruct Hin as (s1 & H1 & ->). apply Ha in H1.
  destruct H1 as (c & t & Hr & Hp & Hlt).
  unfold cap, set_cap. cbn [caps lookup_cap]. rewrite Nat.eqb_refl, Hr.
  destruct (pos s1 - pos st) as [|n] eqn:E; [lia|].
  exists c, (firstn n t). repeat split; auto.
Qed.

End MatchFacts.

(* ===================================================================== *)
(** * More about the OCR text parser *)
(* ===================================================================== *)

Module ParserFacts.

Import OCR.

Lemma set_key_nonneg x : Glossary.nonneg x -> Glossary.nonneg (Arr.set_key x).
Proof. destruct x; auto. Qed.

(** What [Set] keeps comes from the array it was built from. *)
Lemma dedupe_In x l :
  In x (Arr.dedupe l) -> exists y, In y l /\ x = Arr.set_key y.
Proof.
  unfold Arr.dedupe. rewrite <- in_rev.
  assert (H : forall l seen,
    In x (fold_left Arr.set_add l seen) ->
    In x seen \/ exists y, In y l /\ x = Arr.set_key y).
  { clear l. induction l as [|a l IH]; intros seen Hin; simpl in *; [auto|].
    apply IH in Hin. destruct Hin as [Hin|(y & Hy & ->)]; [|eauto].
    unfold Arr.set_add in Hin. destruct (Arr.set_has a seen); [auto|].
    destruct Hin as [<-|Hin]; eauto. }
  intros Hin. apply H in Hin. destruct Hin as [[]|Hin]. exact Hin.
Qed.

Lemma sort_In cmp x l : In x (Arr.sort cmp l) -> In x l.
Proof.
  unfold Arr.sort.
  assert (H : forall l acc,
    In x (fold_left (fun acc x => Arr.insert cmp x acc) l acc) -> In x acc \/ In x l).
  { clear l. induction l as [|a l IH]; intros acc Hin; simpl in *; [auto|].
    apply IH in Hin. destruct Hin as [Hin|Hin]; [|auto].
    apply ArrFacts.insert_In in Hin. destruct Hin as [->|Hin]; auto. }
  intros Hin. apply H in Hin. destruct Hin as [[]|Hin]. exact Hin.
Qed.

Lemma firstn_In {A} (x : A) n l : In x (firstn n l) -> In x l.
Proof.
  intros H. rewrite <- (firstn_skipn n l). apply in_or_app. left. exact H.
Qed.

Lemma price_of_match_nonneg m v :
  price_of_match m = Some v -> Glossary.nonneg v.
Proof.
  unfold price_of_match.
  destruct (negb _ && Number.gtb _ _) eqn:E; [|discriminate].
  apply andb_prop in E. destruct E as [_ Hpos].
  intros H. injection H as <-.
  apply ReadingFacts.parseFloat_toFixed_nonneg. exact Hpos.
Qed.

Lemma allPrices_In text v :
  In v (allPrices text) -> exists m, price_of_match m = Some v.
Proof.
  unfold allPrices, keep_some. intros Hin.
  apply in_flat_map in Hin. destruct Hin as (pattern & _ & Hin).
  apply in_flat_map in Hin. destruct Hin as ([v'|] & Hin & Hv); [|destruct Hv].
  destruct Hv as [<-|[]].
  apply in_map_iff in Hin. destruct Hin as (m & Hm & _). eauto.
Qed.

(** The cleaner of a matched price is a filter: it drops the currency
    signs, the commas and the white space and keeps the rest in order. *)
Lemma match_at_class p i c s :
  RegExp.match_at (RegExp.Chr p) i (c :: s)
  = if p c then Some (RegExp.Result i [c] []) else None.
Proof.
  unfold RegExp.match_at. cbn [RegExp.run RegExp.rest RegExp.pos RegExp.caps].
  destruct (p c); [|reflexivity].
  cbn [RegExp.pos RegExp.caps]. replace (S i - i) with 1 by lia. reflexivity.
Qed.

Lemma remove_all_class p s :
  RegExp.remove_all (RegExp.Chr p) s = filter (fun c => negb (p c)) s.
Proof.
  unfold RegExp.remove_all.
  assert (H : forall i,
    RegExp.remove_scan (RegExp.Chr p) i 0 s = filter (fun c => negb (p c)) s).
  { induction s as [|c s IH]; intros i; [reflexivity|].
    cbn [RegExp.remove_scan filter]. rewrite match_at_class.
    destruct (p c); cbn; rewrite IH; reflexivity. }
  apply H.
Qed.

Lemma replace_first_char_absent from to s :
  ~ In from s -> JsString.replace_first_char from to s = s.
Proof.
  induction s as [|c s IH]; intros Hn; simpl; [reflexivity|].
  destruct (N.eqb_spec c from) as [->|_]; [destruct Hn; left; reflexivity|].
  rewrite IH; [reflexivity|]. intros H. apply Hn. right. exact H.
Qed.

End ParserFacts.

(* ===================================================================== *)
(** * More about the indicators *)
(* ===================================================================== *)

Module IndicatorFacts.

Import OCR Glossary.

Section WithValue.
Variable V : Type.

Lemma set_In (k : jsstring) (v : V) o kv :
  In kv (Obj.set k v o) -> kv = (k, v) \/ In kv o.
Proof.
  induction o as [|[k0 v0] o IH]; simpl.
  - intros [<-|[]]. auto.
  - destruct (JsString.eqb k k0) eqn:E.
    + apply JsStringFacts.eqb_eq in E. subst k0. simpl.
      intros [<-|H]; auto.
    + simpl. intros [<-|H]; auto. apply IH in H. tauto.
Qed.

Lemma keys_set_In (k : jsstring) (v : V) o k' :
  In k' (Obj.keys (Obj.set k v o)) -> k' = k \/ In k' (Obj.keys o).
Proof.
  unfold Obj.keys. intros H. apply in_map_iff in H.
  destruct H as ([k0 v0] & <- & H). apply set_In in H. destruct H as [H|H].
  - injection H as -> _. auto.
  - right. apply in_map_iff. exists (k0, v0). auto.
Qed.

Lemma keys_set_NoDup (k : jsstring) (v : V) o :
  NoDup (Obj.keys o) -> NoDup (Obj.keys (Obj.set k v o)).
Proof.
  induction o as [|[k0 v0] o IH]; simpl; intros Hn.
  - constructor; [intros []|constructor].
  - inversion Hn as [|? ? Hnot Hn']; subst.
    destruct (JsString.eqb k k0) eqn:E; simpl.
    + constructor; assumption.
    + constructor; [|auto]. intros H. apply keys_set_In in H.
      destruct H as [->|H]; [|auto].
      rewrite JsStringFacts.eqb_refl in E. discriminate.
Qed.

Lemma get_In (k : jsstring) (o : Obj.t V) v : Obj.get k o = Some v -> In (k, v) o.
Proof.
  induction o as [|[k0 v0] o IH]; simpl; [discriminate|].
  destruct (JsString.eqb k k0) eqn:E; [|auto].
  apply JsStringFacts.eqb_eq in E. subst k0. intros H. injection H as <-. auto.
Qed.

Lemma get_keys (k : jsstring) (o : Obj.t V) :
  Obj.get k o <> None <-> In k (Obj.keys o).
Proof.
  induction o as [|[k0 v0] o IH]; simpl; [tauto|].
  destruct (JsString.eqb k k0) eqn:E.
  - apply JsStringFacts.eqb_eq in E. subst k0. split; [auto|discriminate].
  - apply JsStringFacts.eqb_neq in E. rewrite IH. split; [auto|].
    intros [H|H]; [congruence|exact H].
Qed.

End WithValue.

Lemma last_of_app {A} (a b : list A) :
  last_of (a ++ b) = match last_of b with Some v => Some v | None => last_of a end.
Proof.
  unfold last_of. rewrite rev_app_distr. destruct (rev b); reflexivity.
Qed.

Lemma tidy_empty : tidy_indicators [].
Proof. repeat split; simpl; [constructor|tauto|tauto]. Qed.

Lemma tidy_set k v ind :
  tidy_indicators ind -> In k indicator_names -> Number.isNaN v = false ->
  tidy_indicators (Obj.set k v ind).
Proof.
  intros (Hn & Hk & Hv) Hin Hnan. repeat split.
  - apply keys_set_NoDup. exact Hn.
  - intros k' H. apply keys_set_In in H. destruct H as [->|H]; auto.
  - intros k' v' H. apply set_In in H. destruct H as [H|H].
    + injection H as -> ->. exact Hnan.
    + eapply Hv. exact H.
Qed.

Lemma tidy_extractRSI text patterns : forall ind,
  tidy_indicators ind -> tidy_indicators (extractRSI text patterns ind).
Proof.
  induction patterns as [|p ps IH]; intros ind Hi; simpl; [exact Hi|].
  destruct (rsi_of_pattern text p) as [v|] eqn:E; [|auto].
  apply tidy_set; [exact Hi|simpl; auto|].
  apply OCRFacts.rsi_of_pattern_iff in E. destruct E as [_ (H & _)]. exact H.
Qed.

Lemma tidy_extractMACD text ind :
  tidy_indicators ind -> tidy_indicators (extractMACD text ind).
Proof.
  intros Hi. unfold extractMACD. destruct (truthy_group 1 _); [|exact Hi].
  destruct (Number.isNaN _) eqn:E; simpl; [exact Hi|].
  apply tidy_set; [exact Hi|simpl; auto|exact E].
Qed.

Lemma ma_names_indicators k : In k ma_names -> In k indicator_names.
Proof. simpl. intuition. Qed.

Lemma tidy_recordMA ind m :
  (exists i s, RegExp.match_at maPattern i s = Some m) ->
  tidy_indicators ind -> tidy_indicators (recordMA ind m).
Proof.
  intros (i & s & Hm) Hi. apply OCRFacts.maPattern_tag in Hm.
  destruct Hm as (g1 & Hg & Htag). unfold recordMA. rewrite Hg.
  destruct (RegExp.group 2 m) as [g2|]; [|exact Hi].
  destruct (Number.isNaN _) eqn:E; simpl; [exact Hi|].
  apply tidy_set; [exact Hi| |exact E]. apply ma_names_indicators. exact Htag.
Qed.

Lemma tidy_extractMAs text ind :
  tidy_indicators ind -> tidy_indicators (extractMAs text ind).
Proof.
  unfold extractMAs, RegExp.match_all.
  assert (H : forall l ind,
    (forall m, In m l -> exists i s, RegExp.match_at maPattern i s = Some m) ->
    tidy_indicators ind -> tidy_indicators (fold_left recordMA l ind)).
  { induction l as [|m l IH]; intros ind0 Hl Hi; simpl; [exact Hi|].
    apply IH; [intros; apply Hl; simpl; auto|].
    apply tidy_recordMA; [apply Hl; simpl; auto|exact Hi]. }
  apply H. intros m Hm. eapply RegExpFacts.scan_In. exact Hm.
Qed.

Lemma tidy_parseOCRText text :
  tidy_indicators (indicators (extractedData (parseOCRText text))).
Proof.
  unfold parseOCRText. cbn [extractedData indicators].
  apply tidy_extractMAs, tidy_extractMACD, tidy_extractRSI, tidy_empty.
Qed.

(** The number read off a capture that starts with a digit. *)
Lemma captured_number_digit c g :
  JsString.is_digit c = true -> Number.isNaN (captured_number (c :: g)) = false.
Proof.
  intros Hd. unfold captured_number, comma_to_dot. simpl.
  destruct (N.eqb_spec c 44) as [->|_]; [discriminate|].
  apply NumberFacts.parseFloat_digit. exact Hd.
Qed.

Lemma captured_number_minus_digit c g :
  JsString.is_digit c = true ->
  Number.isNaN (captured_number (45%N :: c :: g)) = false.
Proof.
  intros Hd. unfold captured_number, comma_to_dot. simpl.
  destruct (N.eqb_spec c 44) as [->|_]; [discriminate|].
  apply ReadingFacts.parseFloat_minus_digit. exact Hd.
Qed.

Lemma match_at_In r i s m :
  RegExp.match_at r i s = Some m ->
  exists st, In st (RegExp.run r (RegExp.MState i s []))
          /\ m = RegExp.Result i (firstn (RegExp.pos st - i) s) (RegExp.caps st).
Proof.
  unfold RegExp.match_at. destruct (RegExp.run r _) as [|st l]; [discriminate|].
  intros H. injection H as <-. exists st. split; [left|]; reflexivity.
Qed.

Lemma exec_match_at r s m :
  RegExp.exec r s = Some m -> exists i s', RegExp.match_at r i s' = Some m.
Proof.
  unfold RegExp.exec, RegExp.match_all. intros H.
  apply (@RegExpFacts.scan_In r m s 0 0).
  destruct (RegExp.scan r 0 0 s) as [|m0 l]; [discriminate|].
  injection H as ->. left. reflexivity.
Qed.

(** The value that a match of [maPattern] captures starts with a digit. *)
Lemma maPattern_value i s m :
  RegExp.match_at maPattern i s = Some m ->
  exists c g, RegExp.group 2 m = Some (c :: g) /\ JsString.is_digit c = true.
Proof.
  intros H. apply match_at_In in H. destruct H as (st & Hin & ->).
  unfold maPattern in Hin. cbn [RegExp.seqs] in Hin.
  apply RegExpFacts.in_run_seq in Hin. destruct Hin as (st1 & H1 & Hin).
  apply RegExpFacts.in_run_seq in Hin. destruct Hin as (st2 & H2 & Hin).
  eapply MatchFacts.captured_head in Hin; [|apply MatchFacts.starts_in_decimal].
  exact Hin.
Qed.

Lemma run_opt_class p st st' :
  In st' (RegExp.run (RegExp.opt (RegExp.Chr p)) st) ->
  st' = st
  \/ exists c t, RegExp.rest st = c :: t /\ p c = true
              /\ st' = RegExp.MState (S (RegExp.pos st)) t (RegExp.caps st).
Proof.
  unfold RegExp.opt. cbn [RegExp.run].
  destruct st as [i s cs]. cbn [RegExp.rest RegExp.pos RegExp.caps].
  destruct s as [|c t].
  - simpl. intros [<-|[]]. auto.
  - cbn [RegExp.rep RegExp.run RegExp.rest RegExp.pos RegExp.caps Nat.add
         List.length option_map Nat.pred flat_map].
    destruct (p c) eqn:Hp.
    + intros H. apply in_app_or in H. destruct H as [H|[<-|[]]]; [|auto].
      right. exists c, t. split; [reflexivity|]. split; [exact Hp|].
      cbn [flat_map] in H. rewrite app_nil_r in H.
      destruct (_ && _); [contradiction|].
      destruct H as [<-|[]]; reflexivity.
    + simpl. intros [<-|[]]. auto.
Qed.

(** The value that a match of [macdPattern] captures is an optional minus
    sign and then a digit: a number. *)
Lemma macdPattern_value i s m :
  RegExp.match_at macdPattern i s = Some m ->
  exists c g, RegExp.group 1 m = Some (c :: g)
           /\ Number.isNaN (captured_number (c :: g)) = false.
Proof.
  intros H. apply match_at_In in H. destruct H as (st & Hin & ->).
  unfold macdPattern in Hin. cbn [RegExp.seqs] in Hin.
  apply RegExpFacts.in_run_seq in Hin. destruct Hin as (st1 & H1 & Hin).
  apply RegExpFacts.in_run_seq in Hin. destruct Hin as (st2 & H2 & Hin).
  apply RegExpFacts.in_run_grp in Hin. destruct Hin as (st4 & Hin & ->).
  apply RegExpFacts.in_run_seq in Hin. destruct Hin as (st3 & H3 & H4).
  apply (@MatchFacts.starts_in_decimal 5 5) in H4.
  destruct H4 as (c & t & Hr & Hd & Hlt).
  unfold RegExp.group, RegExp.set_cap.
  cbn [RegExp.groups RegExp.caps RegExp.lookup_cap Nat.eqb].
  apply run_opt_class in H3. destruct H3 as [->|(c0 & t0 & Hr0 & Hc0 & ->)].
  - rewrite Hr. destruct (RegExp.pos st4 - RegExp.pos st2) as [|n] eqn:E; [lia|].
    exists c, (firstn n t). split; [reflexivity|].
    apply captured_number_digit. exact Hd.
  - cbn [RegExp.rest RegExp.pos] in Hr, Hlt. rewrite Hr0. subst t0.
    apply N.eqb_eq in Hc0. subst c0.
    destruct (RegExp.pos st4 - RegExp.pos st2) as [|[|n]] eqn:E; [lia|lia|].
    exists 45%N, (c :: firstn n t). split; [reflexivity|].
    apply captured_number_minus_digit. exact Hd.
Qed.

(** Keys that the loops do not write keep their value. *)
Lemma extractRSI_other k text patterns : forall ind,
  k <> Spec.RSI ->
  Obj.get k (extractRSI text patterns ind) = Obj.get k ind.
Proof.
  induction patterns as [|p ps IH]; intros ind Hk; simpl; [reflexivity|].
  destruct (rsi_of_pattern text p); [|auto].
  apply ObjFacts.get_set_other. intros <-. apply Hk. reflexivity.
Qed.

Lemma extractMACD_other k text ind :
  k <> MACD -> Obj.get k (extractMACD text ind) = Obj.get k ind.
Proof.
  intros Hk. unfold extractMACD. destruct (truthy_group 1 _); [|reflexivity].
  destruct (negb _); [|reflexivity].
  apply ObjFacts.get_set_other. intros <-. apply Hk. reflexivity.
Qed.

Lemma recordMA_other k ind m :
  (exists i s, RegExp.match_at maPattern i s = Some m) ->
  ~ In k ma_names -> Obj.get k (recordMA ind m) = Obj.get k ind.
Proof.
  intros (i & s & Hm) Hk. apply OCRFacts.maPattern_tag in Hm.
  destruct Hm as (g1 & Hg & Htag). unfold recordMA. rewrite Hg.
  destruct (RegExp.group 2 m) as [g2|]; [|reflexivity].
  destruct (negb _); [|reflexivity].
  apply ObjFacts.get_set_other. intros <-. exact (Hk Htag).
Qed.

Lemma extractMAs_other k text ind :
  ~ In k ma_names -> Obj.get k (extractMAs text ind) = Obj.get k ind.
Proof.
  intros Hk. unfold extractMAs, RegExp.match_all.
  assert (H : forall l ind,
    (forall m, In m l -> exists i s, RegExp.match_at maPattern i s = Some m) ->
    Obj.get k (fold_left recordMA l ind) = Obj.get k ind).
  { induction l as [|m l IH]; intros ind0 Hl; simpl; [reflexivity|].
    rewrite IH by (intros; apply Hl; simpl; auto).
    apply recordMA_other; [apply Hl; simpl; auto|exact Hk]. }
  apply H. intros m Hm. eapply RegExpFacts.scan_In. exact Hm.
Qed.

(** One turn of the loop over the moving averages, seen from one tag. *)
Lemma recordMA_get tag ind m :
  (exists i s, RegExp.match_at maPattern i s = Some m) ->
  Obj.get tag (recordMA ind m)
  = match RegExp.group 1 m, RegExp.group 2 m with
    | Some g1, Some g2 =>
        if JsString.eqb (JsString.toUpperCase g1) tag
        then Some (captured_number g2) else Obj.get tag ind
    | _, _ => Obj.get tag ind
    end.
Proof.
  intros (i & s & Hm). apply maPattern_value in Hm.
  destruct Hm as (c & g & Hg2 & Hd). unfold recordMA. rewrite Hg2.
  destruct (RegExp.group 1 m) as [g1|]; [|reflexivity].
  change (Number.parseFloat (comma_to_dot (c :: g))) with (captured_number (c :: g)).
  rewrite (@captured_number_digit c g Hd). cbn [negb].
  destruct (JsString.eqb (JsString.toUpperCase g1) tag) eqn:E.
  - apply JsStringFacts.eqb_eq in E. subst tag. apply ObjFacts.get_set_same.
  - apply JsStringFacts.eqb_neq in E. apply ObjFacts.get_set_other. exact E.
Qed.

Lemma fold_recordMA_get tag : forall l ind,
  (forall m, In m l -> exists i s, RegExp.match_at maPattern i s = Some m) ->
  Obj.get tag (fold_left recordMA l ind)
  = match last_of (flat_map (fun m =>
              match RegExp.group 1 m, RegExp.group 2 m with
              | Some g1, Some g2 =>
                  if JsString.eqb (JsString.toUpperCase g1) tag
                  then [captured_number g2] else []
              | _, _ => []
              end) l) with
    | Some v => Some v
    | None => Obj.get tag ind
    end.
Proof.
  induction l as [|m l IH]; intros ind Hl; [reflexivity|].
  cbn [fold_left flat_map]. rewrite last_of_app.
  rewrite IH by (intros; apply Hl; simpl; auto).
  destruct (last_of (flat_map _ l)); [reflexivity|].
  rewrite recordMA_get by (apply Hl; simpl; auto).
  destruct (RegExp.group 1 m); [|reflexivity].
  destruct (RegExp.group 2 m); [|reflexivity].
  destruct (JsString.eqb _ tag); reflexivity.
Qed.

End IndicatorFacts.

(* ===================================================================== *)
(** * Texts without digits *)
(* ===================================================================== *)

Module DigitFacts.

Import RegExp Glossary.

Lemma digit_free_suffix (u s : jsstring) : digit_free (u ++ s) -> digit_free s.
Proof. unfold digit_free. intros H. apply Forall_app in H. tauto. Qed.

Lemma flat_map_nil {A B} (f : A -> list B) (l : list A) :
  (forall a, In a l -> f a = []) -> flat_map f l = [].
Proof.
  induction l as [|a l IH]; intros H; simpl; [reflexivity|].
  rewrite H by (left; reflexivity). apply IH. intros b Hb. apply H. right. exact Hb.
Qed.

Lemma needs_digit_class p :
  (forall c, p c = true -> JsString.is_digit c = true) -> needs_digit (Chr p).
Proof.
  intros Hp st Hf. cbn [run]. destruct (rest st) as [|c t]; [reflexivity|].
  destruct (p c) eqn:E; [|reflexivity]. apply Hp in E.
  inversion Hf as [|? ? Hc _]; subst. congruence.
Qed.

Lemma needs_digit_rep a min max :
  needs_digit a -> max <> Some 0 -> needs_digit (Rep a (S min) max).
Proof.
  intros Ha Hmax st Hf. cbn [run].
  change (rep (run a) (S min) max (S (S min + List.length (rest st))) st)
    with (match max with
          | Some O => [st]
          | _ => flat_map (fun s' =>
                   if Nat.eqb (S min) 0 && Nat.eqb (pos s') (pos st) then []
                   else rep (run a) min (option_map Nat.pred max)
                          (S min + List.length (rest st)) s') (run a st)
          end).
  rewrite (Ha st Hf). destruct max as [[|mx]|]; [congruence|reflexivity|reflexivity].
Qed.

Lemma needs_digit_seq_l a b : needs_digit a -> needs_digit (Seq a b).
Proof. intros Ha st Hf. cbn [run]. rewrite (Ha st Hf). reflexivity. Qed.

Lemma needs_digit_seq_r a b : needs_digit b -> needs_digit (Seq a b).
Proof.
  intros Hb st Hf. cbn [run]. apply flat_map_nil. intros st1 H1. apply Hb.
  apply MatchFacts.run_suffix in H1. destruct H1 as (u & Hu).
  rewrite Hu in Hf. eapply digit_free_suffix. exact Hf.
Qed.

Lemma needs_digit_alt a b : needs_digit a -> needs_digit b -> needs_digit (Alt a b).
Proof. intros Ha Hb st Hf. cbn [run]. rewrite (Ha st Hf), (Hb st Hf). reflexivity. Qed.

Lemma needs_digit_grp i a : needs_digit a -> needs_digit (Grp i a).
Proof. intros Ha st Hf. cbn [run]. rewrite (Ha st Hf). reflexivity. Qed.

Lemma needs_digit_digits min max :
  max <> Some 0 -> needs_digit (Rep digit (S min) max).
Proof. intros H. apply needs_digit_rep; [|exact H]. apply needs_digit_class. auto. Qed.

Lemma needs_digit_decimal ip fp : needs_digit (OCR.decimal_upto (S ip) fp).
Proof.
  unfold OCR.decimal_upto, range. apply needs_digit_seq_l, needs_digit_digits.
  discriminate.
Qed.

Lemma needs_digit_pricePatterns : Forall needs_digit OCR.pricePatterns.
Proof.
  unfold OCR.pricePatterns. repeat constructor; cbn [seqs].
  - apply needs_digit_grp, needs_digit_seq_l, needs_digit_digits. discriminate.
  - apply needs_digit_grp, needs_digit_seq_l, needs_digit_digits. discriminate.
  - apply needs_digit_grp, needs_digit_seq_r, needs_digit_seq_r, needs_digit_grp,
      needs_digit_seq_l, needs_digit_digits. discriminate.
Qed.

Lemma needs_digit_rsiPatterns : Forall needs_digit OCR.rsiPatterns.
Proof.
  unfold OCR.rsiPatterns. repeat constructor; cbn [seqs];
    apply needs_digit_seq_r, needs_digit_seq_r, needs_digit_grp, needs_digit_decimal.
Qed.

Lemma needs_digit_macdPattern : needs_digit OCR.macdPattern.
Proof.
  unfold OCR.macdPattern. cbn [seqs].
  apply needs_digit_seq_r, needs_digit_seq_r, needs_digit_grp, needs_digit_seq_r,
    needs_digit_decimal.
Qed.

Lemma needs_digit_maPattern : needs_digit OCR.maPattern.
Proof.
  unfold OCR.maPattern. cbn [seqs].
  apply needs_digit_seq_r, needs_digit_seq_r, needs_digit_grp, needs_digit_decimal.
Qed.

(** A pattern that needs a digit finds nothing in a text without one. *)
Lemma scan_digit_free r s : needs_digit r -> digit_free s ->
  forall i skip, scan r i skip s = [].
Proof.
  intros Hr. induction s as [|c s IH]; intros Hf i skip.
  - destruct skip; [|reflexivity]. cbn [scan]. unfold match_at.
    rewrite (Hr (MState i [] []) Hf). reflexivity.
  - assert (Hs : digit_free s) by (inversion Hf; assumption).
    destruct skip; cbn [scan]; [|auto]. unfold match_at.
    rewrite (Hr (MState i (c :: s) []) Hf). auto.
Qed.

Lemma match_all_digit_free r s : needs_digit r -> digit_free s -> match_all r s = [].
Proof. intros Hr Hf. apply scan_digit_free; assumption. Qed.

End DigitFacts.

(* ===================================================================== *)
(** * More about the service *)
(* ===================================================================== *)

Module CallFacts.

Import Service Accounting.

(** What an OCR run does to the world. *)
Lemma extractChartDataWithOCR_world rt image w :
  exists res evs,
    extractChartDataWithOCR rt image w
    = (inr res, {| requestCount := requestCount w; clockReads := clockReads w;
                   trace := evs ++ trace w |})
    /\ session_events (acquisitions (trace w)) evs.
Proof.
  unfold extractChartDataWithOCR, with_worker, OCR_createWorker, OCR_terminate,
    session_events.
  ServiceFacts.unfold_m.
  destruct (createWorker rt _ _).
  - exists emptyOCRResult, []. destruct w. split; [reflexivity|auto].
  - destruct (worker_setParameters rt _);
      [|destruct (worker_recognize rt _ image)];
      repeat match goal with
      | |- context [worker_terminate rt ?a ?b] => destruct (worker_terminate rt a b)
      end;
      unfold log; cbn [requestCount clockReads trace];
      first [ eexists; eexists [_; _]; split; [reflexivity|]
            | eexists; eexists [_; _; _]; split; [reflexivity|] ];
      eauto.
Qed.

(** A reply that the validator accepts is an object with both required
    fields truthy. *)
Lemma parseAIResponse_try_accepts rt data v :
  parseAIResponse_try rt data = inr v ->
  exists o, v = Js.Object o /\ Spec.has_required_fields o = true.
Proof.
  unfold parseAIResponse_try, and_then.
  destruct (read rt "choices" data) as [|choices]; [discriminate|].
  destruct (read_index rt 0 choices) as [|choice]; [discriminate|].
  destruct (read rt "message" choice) as [|msg]; [discriminate|].
  destruct (read rt "content" msg) as [|content]; [discriminate|].
  destruct (read rt "usage" data) as [|usage0]; [discriminate|].
  destruct (as_string rt "replace" content) as [|text]; [discriminate|].
  destruct (JSON_parse rt (clean_content text)) as [|parsedData]; [discriminate|].
  unfold read at 1.
  destruct (Js.get_prop (JsString.str "decision") parsedData) as [decision|] eqn:Hd;
    [|discriminate].
  destruct (Js.truthy decision) eqn:Htd; [|discriminate]. cbn [negb].
  unfold read at 1.
  destruct (Js.get_prop (JsString.str "vision_summary") parsedData)
    as [vision|] eqn:Hv; [|discriminate].
  destruct (Js.truthy vision) eqn:Htv; [|discriminate]. cbn [negb].
  destruct (read rt "prompt_tokens" _); [discriminate|].
  destruct (read rt "completion_tokens" _); [discriminate|].
  destruct (read rt "total_tokens" _); [discriminate|].
  intros H. injection H as <-.
  destruct (ServiceFacts.truthy_prop_object _ _ Hd Htd) as (o & ->).
  cbn [assign]. eexists. split; [reflexivity|].
  unfold Spec.has_required_fields, Spec.prop.
  rewrite !ObjFacts.get_set_other by discriminate.
  simpl in Hd, Hv. injection Hd as Hd. injection Hv as Hv.
  rewrite Hd, Hv, Htd, Htv. reflexivity.
Qed.

Lemma fallback_object_fields e id stamp :
  exists o, fallback_object e id stamp = Js.Object o
         /\ Spec.has_required_fields o = true.
Proof. eexists. split; reflexivity. Qed.

Lemma with_metadata_fields o m :
  Spec.has_required_fields o = true ->
  Spec.has_required_fields (Obj.set (JsString.str "metadata") m o) = true.
Proof.
  unfold Spec.has_required_fields, Spec.prop.
  rewrite !ObjFacts.get_set_other by discriminate. auto.
Qed.

(** One call of [analyzeTradingChart], with what it does to the world. *)
Lemma analyzeTradingChart_account rt req w :
  exists result reads evs,
    analyzeTradingChart rt req w = (inr result, after_call w reads evs)
    /\ 3 <= reads <= 5
    /\ session_events (acquisitions (trace w)) evs
    /\ (forall e, Spec.input_check req = inl e -> evs = [] /\ reads = 3)
    /\ exists o, result = Js.Object o /\ Spec.has_required_fields o = true.
Proof.
  unfold analyzeTradingChart, analyzeTradingChart_try, next_request_id,
    timestamp_now, Date_now, after_call.
  cbv [bind try_catch ret].
  change (tick {| requestCount := requestCount w + 1; clockReads := clockReads w;
                  trace := trace w |}) with (Spec.started w).
  rewrite ServiceFacts.validate_inputs_run.
  destruct (Spec.input_check req) as [e|image].
  - rewrite ServiceFacts.getFallbackAnalysis_run.
    eexists; exists 3, []. split.
    { unfold tick, Spec.started. cbn [requestCount clockReads trace app].
      do 2 f_equal. lia. }
    split; [lia|]. split; [left; reflexivity|]. split; [auto|].
    apply fallback_object_fields.
  - destruct (ServiceFacts.preprocessImage_total rt image (Spec.started w))
      as [processed Hp].
    destruct (extractChartDataWithOCR_world rt processed (Spec.started w))
      as (ocrData & evs & Ho & Hev).
    rewrite Hp, Ho, ServiceFacts.analyzeWithAI_run.
    cbn [Spec.started requestCount clockReads trace] in *.
    destruct (client_post rt _) as [e|data].
    + rewrite ServiceFacts.getFallbackAnalysis_run.
      eexists; exists 4, evs. split.
      { unfold tick. cbn [requestCount clockReads trace]. do 2 f_equal. lia. }
      split; [lia|]. split; [exact Hev|]. split; [discriminate|].
      apply fallback_object_fields.
    + destruct (parseAIResponse_try rt data) as [e|v] eqn:Hv.
      * eexists; exists 5, evs. split.
        { unfold tick. cbn [requestCount clockReads trace]. do 2 f_equal. lia. }
        split; [lia|]. split; [exact Hev|]. split; [discriminate|].
        eexists. split; [reflexivity|].
        apply with_metadata_fields. reflexivity.
      * apply parseAIResponse_try_accepts in Hv. destruct Hv as (o & -> & Hf).
        eexists; exists 4, evs. split.
        { unfold tick. cbn [requestCount clockReads trace]. do 2 f_equal. lia. }
        split; [lia|]. split; [exact Hev|]. split; [discriminate|].
        eexists. split; [reflexivity|].
        apply with_metadata_fields. exact Hf.
Qed.

(** An OCR run returns what the parser made of some text, or the empty
    result. *)
Lemma extractChartDataWithOCR_result rt image w :
  fst (extractChartDataWithOCR rt image w) = inr emptyOCRResult
  \/ exists text, fst (extractChartDataWithOCR rt image w) = inr (OCR.parseOCRText text).
Proof.
  unfold extractChartDataWithOCR, with_worker, OCR_createWorker, OCR_terminate.
  ServiceFacts.unfold_m.
  destruct (createWorker rt _ _); [auto|].
  destruct (worker_setParameters rt _);
    [|destruct (worker_recognize rt _ image)];
    repeat match goal with
    | |- context [worker_terminate rt ?a ?b] => destruct (worker_terminate rt a b)
    end; cbn [fst]; eauto.
Qed.

End CallFacts.

Module TrimFacts.

Import JsString.

Lemma trimStart_length s : List.length (trimStart s) <= List.length s.
Proof.
  induction s as [|c s IH]; simpl; [lia|].
  destruct (is_space c); simpl; lia.
Qed.

Lemma trim_length s : List.length (trim s) <= List.length s.
Proof.
  unfold trim, trimEnd. rewrite length_rev.
  pose proof (trimStart_length (rev (trimStart s))) as H1.
  rewrite length_rev in H1. pose proof (trimStart_length s). lia.
Qed.






End TrimFacts.

Module FenceFacts.

Import RegExp Glossary.

Lemma starts_in_class p : starts_in p (Chr p).
Proof.
  intros st st' Hin. cbn [run] in Hin.
  destruct (rest st) as [|c t]; [contradiction|].
  destruct (p c) eqn:Hp; [|contradiction]. destruct Hin as [<-|[]].
  exists c, t. cbn [pos]. repeat split; auto.
Qed.

(** A pattern whose matches start in a class matches nowhere in a text
    without that class, so that removing its matches changes nothing. *)
Lemma match_at_class_free p r i s :
  starts_in p r -> class_free p s -> match_at r i s = None.
Proof.
  intros Hr Hs. unfold match_at.
  destruct (run r (MState i s [])) as [|st l] eqn:E; [reflexivity|].
  destruct (Hr (MState i s []) st) as (c & t & Hrest & Hp & _).
  { rewrite E. left. reflexivity. }
  cbn [rest] in Hrest. subst s. inversion Hs; subst. congruence.
Qed.

Lemma remove_all_class_free p r s :
  starts_in p r -> class_free p s -> remove_all r s = s.
Proof.
  intros Hr. unfold remove_all. generalize 0 at 1.
  induction s as [|c s IH]; intros i Hs; cbn [remove_scan].
  - destruct (match_at r i []) as [m|]; [destruct (List.length (matched m))|];
      reflexivity.
  - rewrite (match_at_class_free i Hr Hs). f_equal. apply IH.
    inversion Hs; assumption.
Qed.

Lemma chari_backtick c :
  N.eqb (JsString.upper_char c) (JsString.upper_char 96) = true ->
  is_backtick c = true.
Proof.
  unfold is_backtick, JsString.upper_char. cbn [N.leb N.compare andb].
  change ((97 <=? 96)%N) with false. cbn [andb].
  destruct (N.leb_spec 97 c) as [H1|H1]; destruct (N.leb_spec c 122) as [H2|H2];
    cbn [andb]; intros H; apply N.eqb_eq in H; apply N.eqb_eq; lia.
Qed.

Lemma starts_in_weaken (p q : N -> bool) r :
  (forall c, p c = true -> q c = true) -> starts_in p r -> starts_in q r.
Proof.
  intros Hpq Hr st st' Hin. destruct (Hr st st' Hin) as (c & t & H1 & H2 & H3).
  exists c, t. auto.
Qed.

(** The pattern after [^] matches at the start of the text only. *)
Lemma scan_bol_later r s : forall i skip,
  scan (Seq Bol r) (S i) skip s = [].
Proof.
  induction s as [|c s IH]; intros i skip.
  - destruct skip; reflexivity.
  - destruct skip; cbn [scan]; [|apply IH].
    unfold match_at. cbn [run pos Nat.eqb flat_map]. apply IH.
Qed.

(** ** The three replacements of the reply cleaner *)









Lemma run_json_tag st :
  starts_json_tag (rest st) = false -> run (stri "json") st = [].
Proof.
  intros H. change (stri "json") with (Seq (chari 106) (stri "son")).
  cbn [run]. unfold chari at 1. cbn [run].
  destruct (rest st) as [|c t]; [reflexivity|].
  cbn [starts_json_tag] in H. change (JsString.upper_char 106) with 74%N.
  rewrite H. reflexivity.
Qed.













End FenceFacts.

(* ===================================================================== *)
(** * The connection test and the server *)
(* ===================================================================== *)

Module ConnectionFacts.

Import Service Connection.

Lemma includes_here needle hay : 
  JsString.starts_with needle hay = true -> includes needle hay = true.
Proof. intros H. destruct hay; simpl in *; rewrite H; reflexivity. Qed.

(** One run of [testConnection], case by case. *)
Lemma testConnection_run rt transport rejection w :
  testConnection rt transport rejection w =
  let id := (requestCount w + 1)%Z in
  let stamp n := Js.Str (toISOString rt (clock rt n)) in
  let failed (e : Error) :=
    (inr (Js.Object
            [ field "ok" (Js.Bool false);
              field "message"
                (Js.Str (JsString.str "API connection failed: " ++ message e));
              field "timestamp" (stamp (S (clockReads w)));
              field "requestId" (Js.Num (Number.of_Z id)) ]),
     {| requestCount := id; clockReads := S (S (clockReads w)); trace := trace w |}) in
  match client_get transport rejection with
  | inr (status, data) =>
      (inr (Js.Object
              [ field "ok" (Js.Bool (status =? 200)%Z);
                field "message"
                  (Js.Str (if (status =? 200)%Z then operational else connection_issue));
                field "modelsCount" (length_of (models_of data));
                field "timestamp" (stamp (clockReads w));
                field "requestId" (Js.Num (Number.of_Z id)) ]),
       {| requestCount := id; clockReads := S (clockReads w); trace := trace w |})
  | inl e => failed e
  end.
Proof.
  unfold testConnection, timestamp_now, Date_now, next_request_id.
  cbv [bind try_catch lift ret].
  destruct (client_get transport rejection) as [e|[status data]]; reflexivity.
Qed.

End ConnectionFacts.

Module ServerFacts.

Import Service Server.

Lemma includes_In l s : includes l s = true -> In s l.
Proof.
  unfold includes. intros H. apply existsb_exists in H.
  destruct H as (x & Hx & He). apply JsStringFacts.eqb_eq in He. subst. exact Hx.
Qed.

(** Only a truthy value that is not a string makes a parameter line
    throw. *)
Lemma normalised_throws rt method f k d req e :
  normalised rt method f (field_or k d req) = inl e ->
  Js.truthy (Spec.prop k (body req)) = true
  /\ forall s, Spec.prop k (body req) <> Js.Str s.
Proof.
  unfold normalised, field_or, and_then, as_string.
  destruct (Js.truthy (Spec.prop k (body req))) eqn:Ht; [|discriminate].
  destruct (Spec.prop k (body req)); try discriminate; intros _;
    (split; [reflexivity|discriminate]).
Qed.

Lemma parameters_throws rt up low f req e :
  parameters rt up low f req = inl e ->
  malformed req.
Proof.
  unfold parameters, malformed.
  destruct (normalised rt "toUpperCase" up (field_or "symbol" "XAUUSD" req))
    as [e1|symbol] eqn:E1.
  { intros _. exists "symbol"%string. split; [simpl; auto|].
    eapply normalised_throws. exact E1. }
  cbn [and_then].
  destruct (normalised rt "toUpperCase" up (field_or "timeframe" "H1" req))
    as [e2|timeframe] eqn:E2.
  { intros _. exists "timeframe"%string. split; [simpl; auto|].
    eapply normalised_throws. exact E2. }
  cbn [and_then].
  destruct (normalised rt "toLowerCase" low (field_or "tradeType" "intraday" req))
    as [e3|tradeType] eqn:E3.
  { intros _. exists "tradeType"%string. split; [simpl; auto|].
    eapply normalised_throws. exact E3. }
  cbn [and_then].
  destruct (normalised rt "substring" (JsString.substring0 500)
              (field_or "extraNotes" "" req)) as [e4|extraNotes] eqn:E4.
  { intros _. exists "extraNotes"%string. split; [simpl; auto|].
    eapply normalised_throws. exact E4. }
  discriminate.
Qed.

Lemma parameters_returns rt up low f req p :
  parameters rt up low f req = inr p ->
  imageBuffer p = Some (buffer f)
  /\ exists notes, extraNotes p = Some notes /\ List.length notes <= 500.
Proof.
  unfold parameters.
  destruct (normalised rt "toUpperCase" up (field_or "symbol" "XAUUSD" req));
    [discriminate|]. cbn [and_then].
  destruct (normalised rt "toUpperCase" up (field_or "timeframe" "H1" req));
    [discriminate|]. cbn [and_then].
  destruct (normalised rt "toLowerCase" low (field_or "tradeType" "intraday" req));
    [discriminate|]. cbn [and_then].
  unfold normalised at 1.
  destruct (as_string rt "substring" (field_or "extraNotes" "" req)) as [|s0];
    [discriminate|]. cbn [and_then].
  intros H. injection H as <-.
  split; [reflexivity|].
  exists (JsString.trim (JsString.substring0 500 s0)). split; [reflexivity|].
  pose proof (TrimFacts.trim_length (JsString.substring0 500 s0)) as H.
  unfold JsString.substring0 in *. pose proof (firstn_le_length 500 s0). lia.
Qed.

Lemma accepted_validation rt up low req f p w :
  accepted rt up low req f p ->
  validation rt up low req w = (inr (inr (f, p)), w).
Proof.
  intros (Hf & Hsize & Hp & H1 & H2 & H3). unfold validation. rewrite Hf.
  destruct (Z.ltb_spec Config.MAX_FILE_SIZE (Z.of_N (size f))) as [Hlt|_]; [lia|].
  cbv [bind lift ret]. rewrite Hp, H1, H2, H3. reflexivity.
Qed.

(** How the checks of the handler end: with an early answer, with a thrown
    TypeError, or with the argument for the service. *)
Lemma validation_outcome rt up low req w :
  (exists resp w',
     validation rt up low req w = (inr (inl resp), w')
     /\ (status resp = 400 \/ status resp = 413)%Z
     /\ requestCount w' = requestCount w /\ trace w' = trace w
     /\ forall f p, ~ accepted rt up low req f p)
  \/ (exists e,
        validation rt up low req w = (inl e, w) /\ malformed req
        /\ forall f p, ~ accepted rt up low req f p)
  \/ (exists f p,
        validation rt up low req w = (inr (inr (f, p)), w)
        /\ accepted rt up low req f p).
Proof.
  unfold validation, accepted. destruct (file req) as [f|] eqn:Hf.
  - destruct (Z.ltb_spec Config.MAX_FILE_SIZE (Z.of_N (size f))) as [Hlt|Hle].
    + left. do 2 eexists. split; [reflexivity|].
      split; [right; reflexivity|]. split; [reflexivity|]. split; [reflexivity|].
      intros f' p' (Hf' & Hs & _). injection Hf' as <-. lia.
    + cbv [bind lift ret].
      destruct (parameters rt up low f req) as [e|p] eqn:Hp.
      * right. left. exists e. split; [reflexivity|].
        split; [eapply parameters_throws; exact Hp|].
        intros f' p' (Hf' & _ & Hp' & _). injection Hf' as <-. congruence.
      * destruct (includes Constants.TRADING_PAIRS (symbol p)) eqn:H1; cbn [negb].
        2:{ left. do 2 eexists. split; [reflexivity|].
            split; [left; reflexivity|]. split; [reflexivity|]. split; [reflexivity|].
            intros f' p' (Hf' & _ & Hp' & H1' & _). injection Hf' as <-.
            rewrite Hp in Hp'. injection Hp' as <-. congruence. }
        destruct (includes Config.TIMEFRAMES (timeframe p)) eqn:H2; cbn [negb].
        2:{ left. do 2 eexists. split; [reflexivity|].
            split; [left; reflexivity|]. split; [reflexivity|]. split; [reflexivity|].
            intros f' p' (Hf' & _ & Hp' & _ & H2' & _). injection Hf' as <-.
            rewrite Hp in Hp'. injection Hp' as <-. congruence. }
        destruct (includes Config.TRADE_TYPES (tradeType p)) eqn:H3; cbn [negb].
        2:{ left. do 2 eexists. split; [reflexivity|].
            split; [left; reflexivity|]. split; [reflexivity|]. split; [reflexivity|].
            intros f' p' (Hf' & _ & Hp' & _ & _ & H3'). injection Hf' as <-.
            rewrite Hp in Hp'. injection Hp' as <-. congruence. }
        right. right. exists f, p. split; [reflexivity|]. repeat split; auto.
  - left. do 2 eexists. split; [reflexivity|].
    split; [left; reflexivity|]. split; [reflexivity|]. split; [reflexivity|].
    intros f' p' (Hf' & _). discriminate.
Qed.

Lemma accepted_unique rt up low req f p f' p' :
  accepted rt up low req f p -> accepted rt up low req f' p' -> f = f' /\ p = p'.
Proof.
  intros (Hf & _ & Hp & _) (Hf' & _ & Hp' & _).
  rewrite Hf in Hf'. injection Hf' as <-. rewrite Hp in Hp'. injection Hp' as <-.
  auto.
Qed.

(** The answer to a request that passed the checks. *)
Lemma analyze_accepted rt up low req f p w :
  accepted rt up low req f p ->
  exists o reads evs,
    analyzeTradingChart rt p (tick w)
    = (inr (Js.Object o), Accounting.after_call (tick w) reads evs)
    /\ 3 <= reads <= 5
    /\ Accounting.session_events (acquisitions (trace w)) evs
    /\ (forall e, Spec.input_check p = inl e -> evs = [] /\ reads = 3)
    /\ Spec.has_required_fields o = true
    /\ analyze rt up low req w
       = (inr {| status := 200;
                 json := Js.Object
                   (Obj.set (JsString.str "metadata")
                      (request_metadata (Spec.prop "metadata" o) f p req
                         (clock rt (S (clockReads w + reads)) - clock rt (clockReads w))
                         (toISOString rt (clock rt (S (S (clockReads w + reads))))))
                      o) |},
          {| requestCount := requestCount w + 1;
             clockReads := S (S (S (clockReads w + reads)));
             trace := evs ++ trace w |}).
Proof.
  intros Hacc.
  destruct (CallFacts.analyzeTradingChart_account rt p (tick w))
    as (result & reads & evs & Hrun & Hreads & Hev & Hbad & o & -> & Ho).
  exists o, reads, evs. split; [exact Hrun|]. split; [exact Hreads|].
  split; [exact Hev|]. split; [exact Hbad|]. split; [exact Ho|].
  unfold analyze, timestamp_now, Date_now. cbv [bind try_catch ret].
  rewrite (accepted_validation (tick w) Hacc). rewrite Hrun.
  unfold lift, read. cbn [Js.get_prop].
  unfold Accounting.after_call, tick. cbn [requestCount clockReads trace assign].
  reflexivity.
Qed.

(** What the server writes into [metadata] is there, whatever the service
    had put. *)
Lemma request_metadata_entries old f p req processingTime timestamp :
  let m := request_metadata old f p req processingTime timestamp in
  Spec.path ["symbol"]%string m = Js.Str (symbol p)
  /\ Spec.path ["timeframe"]%string m = Js.Str (timeframe p)
  /\ Spec.path ["tradeType"]%string m = Js.Str (tradeType p)
  /\ Spec.path ["fileType"]%string m = Js.Str (mimetype f)
  /\ Spec.path ["processingTime"]%string m
     = Js.Str (JsString.of_Z processingTime ++ JsString.str "ms")
  /\ Spec.path ["disclaimer"]%string m = Js.Str Constants.DISCLAIMER
  /\ Spec.path ["requestId"]%string m = Js.Str (requestId req)
  /\ Spec.path ["timestamp"]%string m = Js.Str timestamp.
Proof.
  cbv zeta. unfold request_metadata, Spec.path. cbn [fold_left fst snd field Js.get_prop].
  repeat split;
    repeat first [ rewrite ObjFacts.get_set_same
                 | rewrite ObjFacts.get_set_other by discriminate ];
    reflexivity.
Qed.

Lemma path_into_metadata k m o :
  Spec.path ["metadata"; k]%string (Js.Object (Obj.set (JsString.str "metadata") m o))
  = Spec.path [k]%string m.
Proof.
  unfold Spec.path at 1. cbn [Js.get_prop]. rewrite ObjFacts.get_set_same.
  reflexivity.
Qed.

End ServerFacts.

(* ===================================================================== *)
(** * The model at work *)
(* ===================================================================== *)

Example price_patterns_on_sample :
  map (fun pattern =>
         RegExp.match_g pattern (JsString.str "Price: 1,234.56 RSI: 72.5 EMA: 1.20500"))
      OCR.pricePatterns
  = [ [JsString.str "1,234"; JsString.str "1.20500"];
      [JsString.str "1,234.56"; JsString.str "1.20"];
      [] ].
Proof. vm_compute. reflexivity. Qed.

Example currency_price_rounds_to_zero :
  OCR.price_of_match ([36%N] ++ JsString.str "0.000000001") = Some Number.zero.
Proof. vm_compute. reflexivity. Qed.

Example rsi_150_not_recorded :
  OCR.indicators (OCR.extractedData (OCR.parseOCRText (JsString.str "RSI: 150"))) = [].
Proof. vm_compute. reflexivity. Qed.

Example rsi_second_pattern_recorded :
  Obj.get Spec.RSI
    (OCR.indicators (OCR.extractedData
       (OCR.parseOCRText (JsString.str "rsi=150 Relative strength index: 55,5"))))
  = Some (Number.dec 555 1).
Proof. vm_compute. reflexivity. Qed.

Example toFixed_rounds_the_binary_value :
  Number.toFixed (Number.dec 1005 3) 2 = JsString.str "1.00"
  /\ Number.toFixed (Number.dec 25 1) 0 = JsString.str "3"
  /\ Number.toFixed (Number.of_decimal false 1 21) 2 = JsString.str "1e+21".
Proof. vm_compute. repeat split. Qed.

Example JSON_parse_samples :
  Js.JSON_parse (JsString.dq " {'a': [1, true, null], 'a': 'x'} ")
  = Some (Js.Object [(JsString.str "a", Js.Str (JsString.str "x"))])
  /\ Js.JSON_parse (JsString.dq "[1,]") = None
  /\ Js.JSON_parse (JsString.dq "{'a':1} x") = None
  /\ Js.JSON_parse (JsString.str "-0") = Some (Js.Num Number.NegZero)
  /\ Js.JSON_parse (JsString.dq "{'b':true,'10':null,'2':false,'01':null}")
     = Some (Js.Object [ (JsString.str "2", Js.Bool false);
                         (JsString.str "10", Js.Null);
                         (JsString.str "b", Js.Bool true);
                         (JsString.str "01", Js.Null) ]).
Proof. vm_compute. repeat split. Qed.

(* ===================================================================== *)
(** * Properties of the pipeline *)
(* ===================================================================== *)

(** C2. For every raw text, the [priceLevels] that [parseOCRText] produces
    are in strictly ascending order under JavaScript's [<] (hence sorted
    ascending and free of duplicates) and number at most 15. *)
Theorem priceLevels_sorted_unique_capped (text : jsstring) :
  let prices := OCR.priceLevels (OCR.extractedData (OCR.parseOCRText text)) in
  StronglySorted (fun a b => Number.ltb a b = true) prices
  /\ NoDup prices
  /\ List.length prices <= 15.
Proof.
  simpl. pose proof (OCRFacts.extractPrices_ascending text) as Ha.
  split; [exact Ha|]. split; [apply ArrFacts.ascending_NoDup; exact Ha|].
  unfold OCR.extractPrices, Arr.slice0. apply firstn_le_length.
Qed.

(** C3. For every raw text, [hasData] of the result of [parseOCRText] is
    true exactly when [priceLevels] is non-empty or the [indicators] map is
    non-empty; no step of the parser throws on a text, so there is no
    partial result that could differ, and the empty result that stands in
    when the OCR itself fails satisfies the same equivalence. *)
Theorem hasData_iff_prices_or_indicators (text : jsstring) :
  let invariant (d : OCR.ExtractedData) :=
    OCR.hasData d = true <-> (OCR.priceLevels d <> [] \/ OCR.indicators d <> []) in
  invariant (OCR.extractedData (OCR.parseOCRText text))
  /\ invariant (OCR.extractedData Service.emptyOCRResult).
Proof.
  cbv zeta. split.
  - simpl. unfold Obj.keys.
    destruct (OCR.extractPrices text) as [|p ps];
      destruct (OCR.extractMAs text _) as [|kv ind]; simpl;
      split; intros H; try reflexivity; try discriminate;
      try (left; discriminate); try (right; discriminate).
    destruct H as [H|H]; congruence.
  - simpl. split; [discriminate|]. intros [H|H]; congruence.
Qed.

(** C4, as the code has it. For every raw text, the RSI that
    [parseOCRText] records lies in [0, 100], and a value that an RSI
    pattern matched outside that range is not what is recorded. Each
    pattern is tried at its leftmost match in the text and nowhere else
    ([text.match] without the [g] flag): the recorded value is the one of
    the first pattern of [rsiPatterns] whose leftmost match is in range,
    and nothing is recorded when no pattern has such a leftmost match.
    What is recorded is the value of a labelled occurrence in the text. *)
Theorem rsi_recorded_first_valid_in_range (text : jsstring) :
  let recorded :=
    Obj.get (JsString.str "RSI")
            (OCR.indicators (OCR.extractedData (OCR.parseOCRText text))) in
  (forall v, recorded = Some v -> Spec.rsi_in_range v)
  /\ (forall pattern v,
        In pattern OCR.rsiPatterns -> Spec.rsi_match text pattern v ->
        ~ Spec.rsi_in_range v -> recorded <> Some v)
  /\ (forall v,
        recorded = Some v <->
        exists i pattern,
          nth_error OCR.rsiPatterns i = Some pattern
          /\ Spec.rsi_match text pattern v /\ Spec.rsi_in_range v
          /\ forall j pattern' v',
               j < i -> nth_error OCR.rsiPatterns j = Some pattern' ->
               Spec.rsi_match text pattern' v' -> ~ Spec.rsi_in_range v')
  /\ (forall v,
        recorded = Some v ->
        exists pattern,
          In pattern OCR.rsiPatterns /\ Spec.rsi_occurrence text pattern v).
Proof.
  cbv zeta. fold Spec.RSI. rewrite OCRFacts.recorded_RSI.
  assert (Hchar : forall v,
    hd_error (OCR.keep_some (map (OCR.rsi_of_pattern text) OCR.rsiPatterns)) = Some v <->
    exists i pattern,
      nth_error OCR.rsiPatterns i = Some pattern
      /\ Spec.rsi_match text pattern v /\ Spec.rsi_in_range v
      /\ forall j pattern' v',
           j < i -> nth_error OCR.rsiPatterns j = Some pattern' ->
           Spec.rsi_match text pattern' v' -> ~ Spec.rsi_in_range v').
  { intros v. rewrite OCRFacts.first_some. split.
    - intros (i & p & Hn & Hf & Hfirst). exists i, p.
      apply OCRFacts.rsi_of_pattern_iff in Hf. destruct Hf as [Hm Hr].
      split; [exact Hn|]. split; [exact Hm|]. split; [exact Hr|].
      intros j p' v' Hj Hn' Hm'.
      exact (proj1 (OCRFacts.rsi_of_pattern_none text p') (Hfirst j p' Hj Hn') v' Hm').
    - intros (i & p & Hn & Hm & Hr & Hfirst). exists i, p.
      split; [exact Hn|]. split.
      + apply OCRFacts.rsi_of_pattern_iff. auto.
      + intros j p' Hj Hn'. apply OCRFacts.rsi_of_pattern_none.
        intros v' Hm'. eapply Hfirst; eauto. }
  assert (Hrange : forall v,
    hd_error (OCR.keep_some (map (OCR.rsi_of_pattern text) OCR.rsiPatterns)) = Some v ->
    Spec.rsi_in_range v).
  { intros v Hv. apply Hchar in Hv. destruct Hv as (_ & _ & _ & _ & Hr & _). exact Hr. }
  split; [exact Hrange|]. split; [|split; [exact Hchar|]].
  - intros pattern v _ _ Hout Hrec. apply Hout. apply Hrange. exact Hrec.
  - intros v Hv. apply Hchar in Hv.
    destruct Hv as (i & pattern & Hn & (m & g & Hm & Hg & Hne & Hval) & _).
    exists pattern. split; [eapply nth_error_In; exact Hn|].
    exists m, g. split; [|auto].
    unfold RegExp.exec in Hm.
    destruct (RegExp.match_all pattern text) as [|m0 l]; [discriminate|].
    injection Hm as ->. left. reflexivity.
Qed.

(** C4 as stated fails when a valid occurrence follows an invalid one of
    the same label: in "RSI: 150 RSI: 50" the pattern [RSI] matches twice,
    the second time with the value 50, which lies in [0, 100]; yet the
    match without [g] sees "RSI: 150" only, and no RSI is recorded. *)
Lemma rsi_later_valid_match_ignored :
  let text := JsString.str "RSI: 150 RSI: 50" in
  exists pattern v,
    In pattern OCR.rsiPatterns
    /\ Spec.rsi_occurrence text pattern v
    /\ Spec.rsi_in_range v
    /\ v = Number.of_Z 50
    /\ Obj.get (JsString.str "RSI")
         (OCR.indicators (OCR.extractedData (OCR.parseOCRText text)))
       = None.
Proof.
  cbv zeta.
  assert (H : exists m,
            nth_error (RegExp.match_all (hd RegExp.Eps OCR.rsiPatterns)
                         (JsString.str "RSI: 150 RSI: 50")) 1 = Some m
            /\ RegExp.group 1 m = Some (JsString.str "50")).
  { vm_compute. eexists. split; reflexivity. }
  destruct H as (m & Hn & Hg).
  exists (hd RegExp.Eps OCR.rsiPatterns), (Number.of_Z 50).
  split; [left; reflexivity|]. split.
  - exists m, (JsString.str "50"). split; [eapply nth_error_In; exact Hn|].
    split; [exact Hg|]. split; [discriminate|]. vm_compute. reflexivity.
  - split; [vm_compute; auto|]. split; [reflexivity|]. vm_compute. reflexivity.
Qed.

(** C5. On the text "Price: 1,234.56 RSI: 72.5 EMA: 1.20500" the parser
    finds the prices 1234.56 and 1.205, the indicators RSI = 72.5 and
    EMA = 1.205 and nothing else, and sets [hasData]; and every price it
    keeps is the matched number printed with 5 decimals when below 10, with
    4 when below 1000 and with 2 otherwise, and read back. *)
Theorem scenario_price_rsi_ema :
  let d := OCR.extractedData
             (OCR.parseOCRText (JsString.str "Price: 1,234.56 RSI: 72.5 EMA: 1.20500")) in
  In (Number.dec 123456 2) (OCR.priceLevels d)
  /\ In (Number.dec 1205 3) (OCR.priceLevels d)
  /\ OCR.indicators d =
       [(JsString.str "RSI", Number.dec 725 1); (JsString.str "EMA", Number.dec 1205 3)]
  /\ OCR.hasData d = true
  /\ forall m v,
       OCR.price_of_match m = Some v ->
       let num := Number.parseFloat
                    (OCR.comma_to_dot (RegExp.remove_all OCR.price_noise m)) in
       v = Number.parseFloat
             (Number.toFixed num
                (if Number.ltb num (Number.of_Z 10) then 5
                 else if Number.ltb num (Number.of_Z 1000) then 4 else 2)).
Proof.
  cbv zeta. split; [|split; [|split; [|split]]].
  - vm_compute. right. right. right. left. reflexivity.
  - vm_compute. right. left. reflexivity.
  - vm_compute. reflexivity.
  - vm_compute. reflexivity.
  - intros m v. unfold OCR.price_of_match.
    destruct (negb _ && _); [|discriminate].
    intros H. injection H as <-. reflexivity.
Qed.

(** C6. When any step of the preprocessing fails on an image (reading the
    metadata, queueing the resize, grayscale, normalisation, sharpening or
    median operation, or producing the output), [preprocessImage] returns
    the buffer it was given and throws nothing. *)
Theorem preprocessImage_failure_returns_input
    (rt : Service.Runtime) (image : Service.bytes) (w : Service.World) :
  Spec.preprocessing_fails rt image ->
  Service.preprocessImage rt image w = (inr image, w).
Proof.
  intros Hf.
  destruct (ServiceFacts.preprocessImage_try_fails w Hf) as [e He].
  unfold Service.preprocessImage, Service.try_catch. rewrite He. reflexivity.
Qed.

Lemma preprocessImage_failure_returns_input_witness :
  Spec.preprocessing_fails Spec.corrupt_image_runtime [255; 216; 255]%N
  /\ Service.preprocessImage Spec.corrupt_image_runtime [255; 216; 255]%N
       Spec.initial_world
     = (inr [255; 216; 255]%N, Spec.initial_world).
Proof.
  assert (H : Spec.preprocessing_fails Spec.corrupt_image_runtime [255; 216; 255]%N).
  { left. eexists. reflexivity. }
  split; [exact H|].
  exact (preprocessImage_failure_returns_input Spec.initial_world H).
Defined.

(** C7, as the code has it. Whenever [extractChartDataWithOCR] has acquired
    a session it throws nothing, and [terminate] is called on that session
    once: after a recognition that succeeded, or from the [catch] block
    when configuring or recognising threw. Only when the call of
    [terminate] after a successful recognition itself throws is it called a
    second time, from the [catch] block. The parsed text is returned when
    nothing threw and the empty result otherwise. *)
Theorem ocr_session_terminate_calls
    (rt : Service.Runtime) (image : Service.bytes) (w : Service.World) :
  let id := Service.acquisitions (Service.trace w) in
  let n := Service.terminate_calls id (Service.trace w) in
  Service.createWorker rt Constants.OCR_LANGUAGE id = None ->
  exists res w',
    Service.extractChartDataWithOCR rt image w = (inr res, w')
    /\ match Service.worker_setParameters rt id,
             Service.worker_recognize rt id image,
             Service.worker_terminate rt id n with
       | None, inr text, None =>
           Service.terminate_calls id (Service.trace w') = n + 1
           /\ res = OCR.parseOCRText text
       | None, inr text, Some _ =>
           Service.terminate_calls id (Service.trace w') = n + 2
           /\ res = Service.emptyOCRResult
       | _, _, _ =>
           Service.terminate_calls id (Service.trace w') = n + 1
           /\ res = Service.emptyOCRResult
       end.
Proof.
  cbv zeta. intros Hc.
  unfold Service.extractChartDataWithOCR, Service.with_worker,
    Service.OCR_createWorker, Service.OCR_terminate.
  ServiceFacts.unfold_m. rewrite Hc.
  cbn [Service.log Service.trace Service.terminate_calls].
  destruct (Service.worker_setParameters rt _) as [e1|].
  - destruct (Service.worker_terminate rt _ _);
      do 2 eexists; (split; [reflexivity|]); cbn; rewrite Nat.eqb_refl;
      split; auto; lia.
  - destruct (Service.worker_recognize rt _ image) as [e2|text].
    + destruct (Service.worker_terminate rt _ _);
        do 2 eexists; (split; [reflexivity|]); cbn; rewrite Nat.eqb_refl;
        split; auto; lia.
    + destruct (Service.worker_terminate rt _ _) as [e3|].
      * cbn [Service.log Service.trace Service.terminate_calls].
        rewrite Nat.eqb_refl.
        destruct (Service.worker_terminate rt _ _);
          do 2 eexists; (split; [reflexivity|]); cbn; rewrite Nat.eqb_refl;
          split; auto; lia.
      * do 2 eexists. split; [reflexivity|]. cbn. rewrite Nat.eqb_refl.
        split; auto; lia.
Qed.

Lemma ocr_session_terminate_calls_witness :
  Service.createWorker Spec.demo_runtime Constants.OCR_LANGUAGE 0 = None
  /\ exists res w',
       Service.extractChartDataWithOCR Spec.demo_runtime [255; 216; 255]%N
         Spec.initial_world = (inr res, w')
       /\ Service.terminate_calls 0 (Service.trace w') = 1
       /\ res = OCR.parseOCRText (JsString.str "RSI 55").
Proof.
  split; [reflexivity|].
  exact (@ocr_session_terminate_calls Spec.demo_runtime [255; 216; 255]%N
           Spec.initial_world eq_refl).
Defined.

(** C7 as stated fails when [terminate] throws after a successful
    recognition: the session was acquired, yet [terminate] is called on it
    twice and neither call returns. *)
Lemma ocr_session_terminate_called_twice :
  let w' := snd (Service.extractChartDataWithOCR Spec.stuck_worker_runtime
                   [255; 216; 255]%N Spec.initial_world) in
  Service.createWorker Spec.stuck_worker_runtime Constants.OCR_LANGUAGE 0 = None
  /\ Service.acquisitions (Service.trace w') = 1
  /\ Service.terminate_calls 0 (Service.trace w') = 2
  /\ Service.terminations 0 (Service.trace w') = 0.
Proof. cbv zeta. repeat split. Qed.

(** C10. A call of [analyzeTradingChart] whose image buffer is null or
    empty, or whose symbol is not one of [TRADING_PAIRS], throws nothing: it
    returns the fallback result, with the action HOLD and with the message
    of the input check in its [error] block. *)
Theorem invalid_input_gives_fallback
    (rt : Service.Runtime) (req : Service.AnalysisRequest) (w : Service.World) :
  Service.imageBuffer req = None \/ Service.imageBuffer req = Some []
  \/ Service.is_trading_pair (Service.symbol req) = false ->
  exists result w' msg timestamp,
    Service.analyzeTradingChart rt req w = (inr result, w')
    /\ msg = match Service.imageBuffer req with
             | Some (_ :: _) => JsString.str "Invalid symbol: " ++ Service.symbol req
             | _ => JsString.str "Empty image buffer"
             end
    /\ result = Service.fallback_object (Service.mkError msg)
                  (Service.requestCount w + 1) timestamp
    /\ Spec.path ["decision"; "action"]%string result = Js.Str (JsString.str "HOLD")
    /\ Spec.path ["error"; "message"]%string result = Js.Str msg
    /\ Spec.path ["error"; "requestId"]%string result
       = Js.Num (Number.of_Z (Service.requestCount w + 1))
    /\ Spec.path ["error"; "timestamp"]%string result = Js.Str timestamp.
Proof.
  intros Hbad.
  pose proof (ServiceFacts.analyzeTradingChart_run rt req w) as Hrun. cbv zeta in Hrun.
  unfold Spec.input_check in Hrun.
  destruct (Service.imageBuffer req) as [[|b bs]|] eqn:Hbuf.
  - destruct Hrun as (_ & w' & ->). do 4 eexists. repeat split.
  - destruct Hbad as [Hb|[Hb|Hs]]; try discriminate.
    rewrite Hs in Hrun. destruct Hrun as (_ & w' & ->).
    do 4 eexists. repeat split.
  - destruct Hrun as (_ & w' & ->). do 4 eexists. repeat split.
Qed.

Lemma invalid_input_gives_fallback_witness :
  exists result w' msg timestamp,
    Service.analyzeTradingChart Spec.demo_runtime
      {| Service.imageBuffer := Some [255; 216; 255]%N;
         Service.symbol := JsString.str "DOGEUSD";
         Service.timeframe := JsString.str "H1";
         Service.tradeType := JsString.str "swing";
         Service.extraNotes := None |} Spec.initial_world = (inr result, w')
    /\ msg = JsString.str "Invalid symbol: DOGEUSD"
    /\ result = Service.fallback_object (Service.mkError msg) 1 timestamp
    /\ Spec.path ["decision"; "action"]%string result = Js.Str (JsString.str "HOLD")
    /\ Spec.path ["error"; "message"]%string result = Js.Str msg
    /\ Spec.path ["error"; "requestId"]%string result = Js.Num (Number.of_Z 1)
    /\ Spec.path ["error"; "timestamp"]%string result = Js.Str timestamp.
Proof.
  exact (@invalid_input_gives_fallback Spec.demo_runtime
           {| Service.imageBuffer := Some [255; 216; 255]%N;
              Service.symbol := JsString.str "DOGEUSD";
              Service.timeframe := JsString.str "H1";
              Service.tradeType := JsString.str "swing";
              Service.extraNotes := None |} Spec.initial_world
           (or_intror (or_intror eq_refl))).
Defined.

(** C1. Whenever the invocation of the reasoning service or the validation
    of its reply fails, [analyzeTradingChart] returns the canonical
    fallback: the action is HOLD, the probability "0%", the risk level
    "high", the recommended position "none", the reason contains the
    message of the error that caused the failure, and the [error] block
    holds the request id and a timestamp. *)
Theorem ai_failure_gives_fallback
    (rt : Service.Runtime) (req : Service.AnalysisRequest) (w : Service.World)
    (prompt : Service.Prompt) (cause : Service.Error) :
  Spec.prompt_sent rt req w = Some prompt ->
  Spec.ai_stage_fails rt prompt cause ->
  exists result w',
    Service.analyzeTradingChart rt req w = (inr result, w')
    /\ Spec.path ["decision"; "action"]%string result = Js.Str (JsString.str "HOLD")
    /\ Spec.path ["decision"; "probability"]%string result = Js.Str (JsString.str "0%")
    /\ Spec.path ["risk_assessment"; "level"]%string result = Js.Str (JsString.str "high")
    /\ Spec.path ["risk_assessment"; "recommended_position"]%string result
       = Js.Str (JsString.str "none")
    /\ (exists reason,
          Spec.path ["decision"; "reason"]%string result = Js.Str reason
          /\ JsString.embeds (Service.message cause) reason)
    /\ Spec.path ["error"; "requestId"]%string result
       = Js.Num (Number.of_Z (Service.requestCount w + 1))
    /\ (exists n,
          Spec.path ["error"; "timestamp"]%string result
          = Js.Str (Service.toISOString rt (Service.clock rt n)))
    /\ (exists msg,
          Spec.path ["error"; "message"]%string result = Js.Str msg
          /\ (Service.message cause <> [] -> JsString.embeds (Service.message cause) msg)).
Proof.
  intros Hsent Hfail.
  pose proof (ServiceFacts.analyzeTradingChart_run rt req w) as Hrun. cbv zeta in Hrun.
  destruct (Spec.input_check req) as [e|image].
  { destruct Hrun as [Hnone _]. congruence. }
  destruct Hrun as (prompt' & Hsent' & Hrun).
  assert (prompt' = prompt) by congruence. subst prompt'.
  destruct Hfail as [Hpost|(data & Hpost & Hparse)]; rewrite Hpost in Hrun.
  - destruct Hrun as (w' & ->). do 2 eexists. split; [reflexivity|].
    repeat (split; [reflexivity|]).
    split; [|split; [reflexivity|split]].
    + eexists. split; [reflexivity|].
      unfold Service.fallback_reason. cbn [Service.message Service.or_else app JsString.str
        map list_ascii_of_string].
      exists (JsString.str "Technical analysis failed: AI service error: "),
        (JsString.str ". Please upload a clearer screenshot with visible price levels.").
      reflexivity.
    + eexists. reflexivity.
    + eexists. split; [reflexivity|]. intros _.
      exists (JsString.str "AI service error: "), []. rewrite app_nil_r. reflexivity.
  - rewrite Hparse in Hrun. destruct Hrun as (w' & ->). do 2 eexists.
    split; [reflexivity|].
    repeat (split; [reflexivity|]).
    split; [|split; [reflexivity|split]].
    + eexists. split; [reflexivity|].
      unfold Service.fallback_reason.
      apply ServiceFacts.embeds_or_else.
    + eexists. reflexivity.
    + eexists. split; [reflexivity|]. intros Hne.
      destruct (Service.message cause) as [|c m]; [congruence|].
      exists [], []. rewrite app_nil_r. reflexivity.
Qed.

Lemma ai_failure_gives_fallback_witness :
  exists prompt cause,
    Spec.prompt_sent Spec.timeout_runtime Spec.demo_request Spec.initial_world = Some prompt
    /\ Spec.ai_stage_fails Spec.timeout_runtime prompt cause
    /\ exists result w',
         Service.analyzeTradingChart Spec.timeout_runtime Spec.demo_request
           Spec.initial_world = (inr result, w')
         /\ Spec.path ["decision"; "action"]%string result = Js.Str (JsString.str "HOLD").
Proof.
  assert (Hsent : exists prompt,
    Spec.prompt_sent Spec.timeout_runtime Spec.demo_request Spec.initial_world = Some prompt).
  { eexists. vm_compute. reflexivity. }
  destruct Hsent as [prompt Hsent].
  exists prompt, (Service.mkError (JsString.str "timeout of 45000ms exceeded")).
  assert (Hfail : Spec.ai_stage_fails Spec.timeout_runtime prompt
            (Service.mkError (JsString.str "timeout of 45000ms exceeded"))).
  { left. reflexivity. }
  split; [exact Hsent|]. split; [exact Hfail|].
  destruct (@ai_failure_gives_fallback Spec.timeout_runtime Spec.demo_request
              Spec.initial_world prompt _ Hsent Hfail)
    as (result & w' & Hrun & Haction & _).
  exists result, w'. split; assumption.
Defined.

(** C9, as the code has it. Every call of [analyzeTradingChart] returns a
    result that carries the request id and a timestamp. When the reasoning
    service answered, they are in a [metadata] block together with the
    processing duration; when the input check or the invocation threw, they
    are in the [error] block of the fallback, which has no [metadata] block
    and no processing duration. *)
Theorem result_carries_id_and_timestamp
    (rt : Service.Runtime) (req : Service.AnalysisRequest) (w : Service.World) :
  let id := Js.Num (Number.of_Z (Service.requestCount w + 1)) in
  let stamp n := Js.Str (Service.toISOString rt (Service.clock rt n)) in
  let answered :=
    exists prompt data,
      Spec.prompt_sent rt req w = Some prompt
      /\ Service.client_post rt prompt = inr data in
  exists result w',
    Service.analyzeTradingChart rt req w = (inr result, w')
    /\ ((answered
         /\ exists n,
              Spec.path ["metadata"; "requestId"]%string result = id
              /\ Spec.path ["metadata"; "processingTime"]%string result
                 = Js.Str (JsString.of_Z
                             (Service.clock rt n
                              - Service.clock rt (Service.clockReads w))
                           ++ JsString.str "ms")
              /\ Spec.path ["metadata"; "timestamp"]%string result = stamp (S n))
        \/ (~ answered
            /\ exists n,
                 Spec.path ["error"; "requestId"]%string result = id
                 /\ Spec.path ["error"; "timestamp"]%string result = stamp n
                 /\ Spec.path ["metadata"]%string result = Js.Undefined
                 /\ Spec.mentions (JsString.str "processingTime") result = false)).
Proof.
  cbv zeta.
  pose proof (ServiceFacts.analyzeTradingChart_run rt req w) as Hrun. cbv zeta in Hrun.
  assert (Hmeta : forall md v ks,
    Spec.path ("metadata"%string :: ks)
      (Js.Object (Obj.set (JsString.str "metadata") md v)) = Spec.path ks md).
  { intros md v ks. cbn [Spec.path Js.get_prop].
    rewrite ObjFacts.get_set_same. reflexivity. }
  destruct (Spec.input_check req) as [e|image].
  - destruct Hrun as (Hnone & w' & ->). do 2 eexists. split; [reflexivity|].
    right. split.
    + intros (prompt & data & Hs & _). congruence.
    + eexists. repeat split.
  - destruct Hrun as (prompt & Hsent & Hrun).
    destruct (Service.client_post rt prompt) as [e|data] eqn:Hpost.
    + destruct Hrun as (w' & ->). do 2 eexists. split; [reflexivity|].
      right. split.
      * intros (prompt' & data & Hs & Hp). congruence.
      * eexists. repeat split.
    + destruct (Service.parseAIResponse_try rt data) as [e|v];
        destruct Hrun as (w' & ->); do 2 eexists; (split; [reflexivity|]);
        left; (split; [exists prompt, data; auto|]);
        eexists; rewrite !Hmeta; repeat split.
Qed.

(** C9 as stated fails for a request without an image: the result is the
    fallback, and nothing in it records a processing duration. *)
Lemma fallback_without_processing_duration :
  exists result w',
    Service.analyzeTradingChart Spec.demo_runtime Spec.empty_request
      Spec.initial_world = (inr result, w')
    /\ Spec.path ["metadata"]%string result = Js.Undefined
    /\ Spec.mentions (JsString.str "processingTime") result = false
    /\ Spec.mentions (JsString.str "requestId") result = true.
Proof. do 2 eexists. vm_compute. repeat split. Qed.



(** A reply wrapped in a code fence passes once the fence is stripped. *)
Example fenced_reply_accepted :
  let body := JsString.dq "{'decision':{'action':'BUY'},'vision_summary':{'key_notes':'ok'}}" in
  let content := JsString.str "```json" ++ [10%N] ++ body ++ [10%N] ++ JsString.str "```" in
  Service.clean_content content = body
  /\ exists o,
       Js.JSON_parse body = Some (Js.Object o)
       /\ Service.parseAIResponse_try Spec.demo_runtime
            (Spec.api_response content Js.Undefined)
          = inr (Spec.with_disclaimer_and_usage o Js.Undefined).
Proof. cbv zeta. split; [vm_compute; reflexivity|]. eexists. vm_compute. split; reflexivity. Qed.
(* ===================================================================== *)
(** * Further properties *)
(* ===================================================================== *)

(** X1. No price level is NaN or negative: the parser keeps a match only
    when it reads as a number above zero, and rounding such a number
    (which may bring it down to zero) never takes it below zero. *)
Theorem priceLevels_never_negative (text : jsstring) (p : number) :
  In p (OCR.priceLevels (OCR.extractedData (OCR.parseOCRText text))) ->
  Number.isNaN p = false /\ Number.geb p Number.zero = true.
Proof.
  simpl. unfold OCR.extractPrices, Arr.slice0. intros Hin.
  apply ParserFacts.firstn_In in Hin.
  apply ParserFacts.sort_In in Hin.
  apply ParserFacts.dedupe_In in Hin. destruct Hin as (y & Hy & ->).
  apply ParserFacts.allPrices_In in Hy. destruct Hy as (m & Hm).
  apply ParserFacts.set_key_nonneg.
  eapply ParserFacts.price_of_match_nonneg. exact Hm.
Qed.

Lemma priceLevels_never_negative_witness :
  let text := JsString.str "Bid 1,234.56 Ask 1.20500" in
  let p := hd Number.NaN (OCR.priceLevels (OCR.extractedData (OCR.parseOCRText text))) in
  In p (OCR.priceLevels (OCR.extractedData (OCR.parseOCRText text)))
  /\ Number.isNaN p = false /\ Number.geb p Number.zero = true.
Proof.
  cbv zeta.
  assert (H : In (hd Number.NaN (OCR.priceLevels (OCR.extractedData
                    (OCR.parseOCRText (JsString.str "Bid 1,234.56 Ask 1.20500")))))
                (OCR.priceLevels (OCR.extractedData
                    (OCR.parseOCRText (JsString.str "Bid 1,234.56 Ask 1.20500"))))).
  { vm_compute. left. reflexivity. }
  split; [exact H|].
  exact (@priceLevels_never_negative _ _ H).
Defined.

(** X2. The cleaner of a matched price drops every comma (with the
    currency signs and the white space) and keeps the other characters in
    order, so the replacement of a comma by a point that follows it never
    changes the text: a comma is never read as a decimal separator. *)
Theorem price_cleaner_leaves_no_comma (m : jsstring) :
  let clean := RegExp.remove_all OCR.price_noise m in
  clean = filter (fun c => negb (Glossary.is_price_noise c)) m
  /\ ~ In 44%N clean
  /\ OCR.comma_to_dot clean = clean.
Proof.
  cbv zeta. unfold OCR.price_noise.
  rewrite ParserFacts.remove_all_class.
  assert (Hno : ~ In 44%N (filter (fun c => negb (Glossary.is_price_noise c)) m)).
  { intros H. apply filter_In in H. destruct H as [_ H]. discriminate. }
  split; [reflexivity|]. split; [exact Hno|].
  apply ParserFacts.replace_first_char_absent. exact Hno.
Qed.

(** X3. The indicator map that [parseOCRText] returns has no key twice,
    only the keys RSI, MACD, MA, SMA and EMA (so at most five), and no NaN
    among its values. *)
Theorem indicators_named_and_numeric (text : jsstring) :
  let ind := OCR.indicators (OCR.extractedData (OCR.parseOCRText text)) in
  NoDup (Obj.keys ind)
  /\ (forall k, In k (Obj.keys ind) -> In k Glossary.indicator_names)
  /\ (forall k v, Obj.get k ind = Some v -> Number.isNaN v = false)
  /\ List.length (Obj.keys ind) <= 5.
Proof.
  intros ind. destruct (IndicatorFacts.tidy_parseOCRText text) as (Hn & Hk & Hv).
  fold ind in Hn, Hk, Hv. repeat split; auto.
  - intros k v H. apply IndicatorFacts.get_In in H. eapply Hv. exact H.
  - change 5 with (List.length Glossary.indicator_names).
    apply NoDup_incl_length; [exact Hn|]. intros k. apply Hk.
Qed.

(** X4. MACD is recorded exactly when [macdPattern] matches somewhere in
    the text: the value is the number read off the first match's capture,
    which is never NaN, and the loop over the moving averages does not
    overwrite it. *)
Theorem macd_recorded_iff_pattern_matches (text : jsstring) :
  let ind := OCR.indicators (OCR.extractedData (OCR.parseOCRText text)) in
  match RegExp.exec OCR.macdPattern text with
  | Some m =>
      exists g, RegExp.group 1 m = Some g
             /\ Number.isNaN (Glossary.captured_number g) = false
             /\ Obj.get Glossary.MACD ind = Some (Glossary.captured_number g)
  | None => Obj.get Glossary.MACD ind = None
  end.
Proof.
  intros ind. unfold ind, OCR.parseOCRText. cbn [OCR.extractedData OCR.indicators].
  rewrite IndicatorFacts.extractMAs_other
    by (simpl; intros [H|[H|[H|[]]]]; discriminate).
  unfold OCR.extractMACD, OCR.truthy_group.
  destruct (RegExp.exec OCR.macdPattern text) as [m|] eqn:E.
  - apply IndicatorFacts.exec_match_at in E. destruct E as (i & s & E).
    apply IndicatorFacts.macdPattern_value in E. destruct E as (c & g & Hg & Hn).
    rewrite Hg. exists (c :: g). split; [reflexivity|]. split; [exact Hn|].
    change (Number.parseFloat (OCR.comma_to_dot (c :: g)))
      with (Glossary.captured_number (c :: g)).
    rewrite Hn. cbn [negb]. apply ObjFacts.get_set_same.
  - rewrite IndicatorFacts.extractRSI_other by discriminate. reflexivity.
Qed.

(** X5. For each of MA, SMA and EMA the recorded value is that of the last
    occurrence in the text: later matches of [maPattern] with the same tag
    overwrite earlier ones, whatever the case of the tag. *)
Theorem moving_average_last_occurrence_wins (text tag : jsstring) :
  In tag Glossary.ma_names ->
  Obj.get tag (OCR.indicators (OCR.extractedData (OCR.parseOCRText text)))
  = Glossary.last_of (Glossary.ma_values tag text).
Proof.
  intros Htag. unfold OCR.parseOCRText. cbn [OCR.extractedData OCR.indicators].
  unfold OCR.extractMAs, Glossary.ma_values.
  rewrite IndicatorFacts.fold_recordMA_get
    by (intros m Hm; eapply RegExpFacts.scan_In; exact Hm).
  destruct (Glossary.last_of _); [reflexivity|].
  rewrite IndicatorFacts.extractMACD_other, IndicatorFacts.extractRSI_other.
  - reflexivity.
  - simpl in Htag. destruct Htag as [<-|[<-|[<-|[]]]]; discriminate.
  - simpl in Htag. destruct Htag as [<-|[<-|[<-|[]]]]; discriminate.
Qed.

Lemma moving_average_last_occurrence_wins_witness :
  let text := JsString.str "EMA 1.5 sma=7 ema: 2.5" in
  let tag := JsString.str "EMA" in
  In tag Glossary.ma_names
  /\ Obj.get tag (OCR.indicators (OCR.extractedData (OCR.parseOCRText text)))
     = Glossary.last_of (Glossary.ma_values tag text).
Proof.
  cbv zeta.
  assert (H : In (JsString.str "EMA") Glossary.ma_names).
  { simpl. auto. }
  split; [exact H|].
  exact (@moving_average_last_occurrence_wins
           (JsString.str "EMA 1.5 sma=7 ema: 2.5") _ H).
Defined.

(** X6. A text without any digit yields no data at all: no price level, no
    indicator, and [hasData] false, the same extracted data as the empty
    result of a failed OCR run. *)
Theorem digit_free_text_has_no_data (text : jsstring) :
  Glossary.digit_free text ->
  OCR.extractedData (OCR.parseOCRText text)
  = OCR.extractedData Service.emptyOCRResult.
Proof.
  intros Hf. unfold OCR.parseOCRText. cbn [OCR.extractedData Service.emptyOCRResult].
  assert (Hp : OCR.extractPrices text = []).
  { unfold OCR.extractPrices, OCR.allPrices.
    rewrite DigitFacts.flat_map_nil; [reflexivity|].
    intros r Hr. unfold RegExp.match_g.
    rewrite DigitFacts.match_all_digit_free; [reflexivity| |exact Hf].
    pose proof DigitFacts.needs_digit_pricePatterns as H.
    rewrite Forall_forall in H. auto. }
  assert (Hr : OCR.extractRSI text OCR.rsiPatterns [] = []).
  { pose proof DigitFacts.needs_digit_rsiPatterns as H.
    induction H as [|r rs Hr _ IH]; [reflexivity|]. cbn [OCR.extractRSI].
    unfold OCR.rsi_of_pattern at 1. unfold RegExp.exec.
    rewrite DigitFacts.match_all_digit_free by assumption. exact IH. }
  assert (Hm : OCR.extractMACD text [] = []).
  { unfold OCR.extractMACD, RegExp.exec.
    rewrite DigitFacts.match_all_digit_free;
      [reflexivity|exact DigitFacts.needs_digit_macdPattern|exact Hf]. }
  assert (Ha : OCR.extractMAs text [] = []).
  { unfold OCR.extractMAs.
    rewrite DigitFacts.match_all_digit_free;
      [reflexivity|exact DigitFacts.needs_digit_maPattern|exact Hf]. }
  rewrite Hp, Hr, Hm, Ha. reflexivity.
Qed.

Lemma digit_free_text_has_no_data_witness :
  Glossary.digit_free (JsString.str "Gold spot, hourly chart")
  /\ OCR.extractedData (OCR.parseOCRText (JsString.str "Gold spot, hourly chart"))
     = OCR.extractedData Service.emptyOCRResult.
Proof.
  assert (H : Glossary.digit_free (JsString.str "Gold spot, hourly chart")).
  { unfold Glossary.digit_free. simpl. repeat constructor. }
  split; [exact H|].
  exact (@digit_free_text_has_no_data _ H).
Defined.

(** X7. When reading the metadata, queueing each operation and producing
    the output all succeed, [preprocessImage] returns what [toBuffer] makes
    of the image with the operations queued in this order: the resize to
    2000 by 2000 only when a side exceeds 2000, then grayscale,
    normalisation, sharpening and the median filter. *)
Theorem preprocessImage_returns_processed
    (rt : Service.Runtime) (image out : Service.bytes) (info : Service.ImageInfo)
    (w : Service.World) :
  Service.sharp_metadata rt image = inr info ->
  (forall k op,
     nth_error (Spec.sharp_ops info) k = Some op ->
     Service.sharp_op rt op (image, firstn k (Spec.sharp_ops info)) = None) ->
  Service.sharp_toBuffer rt (image, Spec.sharp_ops info) = inr out ->
  Service.preprocessImage rt image w = (inr out, w).
Proof.
  intros Hi Hops Hout.
  unfold Service.preprocessImage, Service.preprocessImage_try.
  ServiceFacts.unfold_m. rewrite Hi.
  unfold Spec.sharp_ops in Hops, Hout.
  destruct (Service.exceeds_2000 (Service.width info)
            || Service.exceeds_2000 (Service.height info)).
  - pose proof (Hops 0 _ eq_refl) as H0. pose proof (Hops 1 _ eq_refl) as H1.
    pose proof (Hops 2 _ eq_refl) as H2. pose proof (Hops 3 _ eq_refl) as H3.
    pose proof (Hops 4 _ eq_refl) as H4.
    cbn [firstn app] in H0, H1, H2, H3, H4, Hout.
    rewrite H0. cbn [fst snd app]. rewrite H1. cbn [fst snd app].
    rewrite H2. cbn [fst snd app]. rewrite H3. cbn [fst snd app].
    rewrite H4. cbn [fst snd app]. rewrite Hout. reflexivity.
  - pose proof (Hops 0 _ eq_refl) as H0. pose proof (Hops 1 _ eq_refl) as H1.
    pose proof (Hops 2 _ eq_refl) as H2. pose proof (Hops 3 _ eq_refl) as H3.
    cbn [firstn app] in H0, H1, H2, H3, Hout.
    rewrite H0. cbn [fst snd app]. rewrite H1. cbn [fst snd app].
    rewrite H2. cbn [fst snd app]. rewrite H3. cbn [fst snd app].
    rewrite Hout. reflexivity.
Qed.

Lemma preprocessImage_returns_processed_witness :
  let info := {| Service.width := Some 800%Z; Service.height := Some 600%Z |} in
  Service.sharp_metadata Spec.demo_runtime [255; 216; 255]%N = inr info
  /\ Service.preprocessImage Spec.demo_runtime [255; 216; 255]%N Spec.initial_world
     = (inr [255; 216; 255]%N, Spec.initial_world).
Proof.
  cbv zeta. split; [reflexivity|].
  apply (@preprocessImage_returns_processed Spec.demo_runtime [255; 216; 255]%N
           [255; 216; 255]%N
           {| Service.width := Some 800%Z; Service.height := Some 600%Z |}
           Spec.initial_world).
  - reflexivity.
  - intros k op _. reflexivity.
  - reflexivity.
Defined.

(** X8. When no OCR session can be opened, [extractChartDataWithOCR]
    returns the empty result and leaves the world as it was: nothing is
    terminated, since there is no session. *)
Theorem ocr_without_session_gives_empty_result
    (rt : Service.Runtime) (image : Service.bytes) (w : Service.World)
    (e : Service.Error) :
  Service.createWorker rt Constants.OCR_LANGUAGE
    (Service.acquisitions (Service.trace w)) = Some e ->
  Service.extractChartDataWithOCR rt image w = (inr Service.emptyOCRResult, w).
Proof.
  intros Hc. unfold Service.extractChartDataWithOCR, Service.OCR_createWorker.
  ServiceFacts.unfold_m. rewrite Hc. reflexivity.
Qed.

Lemma ocr_without_session_gives_empty_result_witness :
  Service.createWorker Accounting.no_worker_runtime Constants.OCR_LANGUAGE 0
  = Some (Service.mkError (JsString.str "Failed to load language data"))
  /\ Service.extractChartDataWithOCR Accounting.no_worker_runtime [255; 216; 255]%N
       Spec.initial_world
     = (inr Service.emptyOCRResult, Spec.initial_world).
Proof.
  split; [reflexivity|].
  exact (@ocr_without_session_gives_empty_result Accounting.no_worker_runtime
           [255; 216; 255]%N Spec.initial_world _ eq_refl).
Defined.

(** X9. Whatever the request and whatever the libraries do,
    [analyzeTradingChart] throws nothing and returns an object whose
    [decision] and [vision_summary] are both truthy: its result always
    passes the structure check that the validator applies to a reply. *)
Theorem analysis_result_has_required_fields
    (rt : Service.Runtime) (req : Service.AnalysisRequest) (w : Service.World) :
  exists o,
    fst (Service.analyzeTradingChart rt req w) = inr (Js.Object o)
    /\ Spec.has_required_fields o = true.
Proof.
  destruct (CallFacts.analyzeTradingChart_account rt req w)
    as (result & reads & evs & Hrun & _ & _ & _ & o & -> & Ho).
  exists o. rewrite Hrun. split; [reflexivity|exact Ho].
Qed.

(** X10. Every call of [analyzeTradingChart] takes exactly one request id
    and reads the clock at least three and at most five times; a request
    that fails the input check reads it exactly three times. *)
Theorem analysis_call_takes_one_request_id
    (rt : Service.Runtime) (req : Service.AnalysisRequest) (w : Service.World) :
  let w' := snd (Service.analyzeTradingChart rt req w) in
  Service.requestCount w' = (Service.requestCount w + 1)%Z
  /\ Service.clockReads w + 3 <= Service.clockReads w' <= Service.clockReads w + 5
  /\ (forall e, Spec.input_check req = inl e ->
      Service.clockReads w' = Service.clockReads w + 3).
Proof.
  destruct (CallFacts.analyzeTradingChart_account rt req w)
    as (result & reads & evs & Hrun & Hreads & _ & Hbad & _).
  cbv zeta. rewrite Hrun. cbn [snd Accounting.after_call Service.requestCount
                                Service.clockReads].
  split; [reflexivity|]. split; [lia|].
  intros e He. destruct (Hbad e He) as [_ ->]. reflexivity.
Qed.

(** X11. A call of [analyzeTradingChart] opens at most one OCR session,
    and a session it opens sees [terminate] called once or twice before
    the call returns; a request that fails the input check opens none. *)
Theorem analysis_call_session_accounting
    (rt : Service.Runtime) (req : Service.AnalysisRequest) (w : Service.World) :
  let w' := snd (Service.analyzeTradingChart rt req w) in
  let id := Service.acquisitions (Service.trace w) in
  exists evs,
    Service.trace w' = evs ++ Service.trace w
    /\ Accounting.session_events id evs
    /\ Service.acquisitions evs <= 1
    /\ Service.acquisitions evs <= Service.terminate_calls id evs <= 2
    /\ (forall e, Spec.input_check req = inl e -> evs = []).
Proof.
  destruct (CallFacts.analyzeTradingChart_account rt req w)
    as (result & reads & evs & Hrun & _ & Hev & Hbad & _).
  cbv zeta. rewrite Hrun. cbn [snd Accounting.after_call Service.trace].
  exists evs. split; [reflexivity|]. split; [exact Hev|].
  assert (Hcount : Service.acquisitions evs <= 1
                   /\ Service.acquisitions evs
                      <= Service.terminate_calls
                           (Service.acquisitions (Service.trace w)) evs <= 2).
  { destruct Hev as [->|[(b & ->)|(b & ->)]]; cbn; rewrite ?Nat.eqb_refl; lia. }
  destruct Hcount as [H1 H2]. split; [exact H1|]. split; [exact H2|].
  intros e He. destruct (Hbad e He) as [-> _]. reflexivity.
Qed.

(** X12. [testConnection] throws nothing and takes one request id from the
    counter it shares with the analysis. It reports [ok] exactly when the
    models endpoint answered with status 200; a status of 500 or more is
    refused by [validateStatus] and reported as a failed connection, with
    the clock read twice instead of once. *)
Theorem testConnection_reports_status
    (rt : Service.Runtime) (transport : Service.Error + Z * Js.value)
    (rejection : Z -> Js.value -> Service.Error) (w : Service.World) :
  exists o w',
    Connection.testConnection rt transport rejection w = (inr (Js.Object o), w')
    /\ Service.requestCount w' = (Service.requestCount w + 1)%Z
    /\ Service.trace w' = Service.trace w
    /\ Spec.prop "requestId" o = Js.Num (Number.of_Z (Service.requestCount w + 1))
    /\ (Spec.prop "ok" o = Js.Bool true <-> exists data, transport = inr (200%Z, data))
    /\ (Spec.prop "ok" o = Js.Bool true ->
        Spec.prop "message" o = Js.Str Connection.operational
        /\ Service.clockReads w' = S (Service.clockReads w))
    /\ (forall status data,
          transport = inr (status, data) -> (500 <= status)%Z ->
          Spec.prop "ok" o = Js.Bool false
          /\ Spec.prop "message" o
             = Js.Str (JsString.str "API connection failed: "
                       ++ Service.message (rejection status data))
          /\ Service.clockReads w' = S (S (Service.clockReads w))).
Proof.
  rewrite ConnectionFacts.testConnection_run. cbv zeta.
  unfold Connection.client_get.
  destruct transport as [e|[status data]].
  - do 2 eexists. split; [reflexivity|].
    repeat split; try discriminate.
    intros (data & H). discriminate.
  - destruct (Z.ltb_spec status 500) as [Hlt|Hge].
    + do 2 eexists. split; [reflexivity|].
      split; [reflexivity|]. split; [reflexivity|]. split; [reflexivity|].
      change (Spec.prop "ok" _) with (Js.Bool (status =? 200)%Z).
      change (Spec.prop "message" _)
        with (Js.Str (if (status =? 200)%Z then Connection.operational
                      else Connection.connection_issue)).
      split; [|split].
      * split.
        -- intros H. injection H as H. apply Z.eqb_eq in H. subst. eauto.
        -- intros (d & H). injection H as -> _. reflexivity.
      * intros H. injection H as ->. split; reflexivity.
      * intros s d H Hs. injection H as -> _. lia.
    + do 2 eexists. split; [reflexivity|].
      split; [reflexivity|]. split; [reflexivity|]. split; [reflexivity|].
      split; [|split].
      * split; [discriminate|]. intros (d & H). injection H as -> _. lia.
      * discriminate.
      * intros s d H _. injection H as -> ->. repeat split.
Qed.

(** X13. A key that the start-up check of [server.js] lets through is let
    through by the constructor of the service as well, so the constructor
    never stops a server that got that far; the key as committed is
    stopped by both. *)
Theorem server_key_check_covers_constructor (key : jsstring) :
  Connection.server_rejects key = false ->
  Connection.constructor_rejects key = false
  /\ Connection.server_rejects Config.DEEPSEEK_API_KEY = true
  /\ Connection.constructor_rejects Config.DEEPSEEK_API_KEY = true.
Proof.
  intros H. split; [|split; reflexivity].
  unfold Connection.server_rejects, Connection.constructor_rejects in *.
  destruct key as [|c key]; [discriminate|].
  destruct (JsString.eqb (c :: key) (JsString.str "sk-54c73**********1a40")) eqn:E;
    [|reflexivity].
  apply JsStringFacts.eqb_eq in E. rewrite E in H. vm_compute in H. discriminate.
Qed.

Lemma server_key_check_covers_constructor_witness :
  Connection.server_rejects (JsString.str "sk-0f1e2d3c4b5a69788796a5b4c3d2e1f0") = false
  /\ Connection.constructor_rejects (JsString.str "sk-0f1e2d3c4b5a69788796a5b4c3d2e1f0")
     = false.
Proof.
  split; [reflexivity|].
  exact (proj1 (@server_key_check_covers_constructor
                  (JsString.str "sk-0f1e2d3c4b5a69788796a5b4c3d2e1f0") eq_refl)).
Defined.

(** X14. Whenever the handler of [/api/analyze] gets as far as calling the
    service, the argument meets what the service expects: the symbol is a
    trading pair, the timeframe and the trade type are among the allowed
    ones, the notes are at most 500 code units long and the image is the
    uploaded buffer. The size that the upload reports ([req.file.size]) is
    at most [MAX_FILE_SIZE], and so is the length of the buffer whenever
    the reported size is that length. The only input error the service can
    then raise is that of an empty buffer; its own symbol check never
    fails. *)
Theorem handler_calls_service_with_valid_arguments
    (rt : Service.Runtime) (toUpperCase toLowerCase : jsstring -> jsstring)
    (req : Server.HttpRequest) (w w' : Service.World)
    (f : Server.Upload) (params : Service.AnalysisRequest) :
  Server.validation rt toUpperCase toLowerCase req w = (inr (inr (f, params)), w') ->
  w' = w
  /\ Server.file req = Some f
  /\ (Z.of_N (Server.size f) <= Config.MAX_FILE_SIZE)%Z
  /\ (Server.size f = N.of_nat (List.length (Server.buffer f)) ->
      (Z.of_nat (List.length (Server.buffer f)) <= Config.MAX_FILE_SIZE)%Z)
  /\ Service.imageBuffer params = Some (Server.buffer f)
  /\ Service.is_trading_pair (Service.symbol params) = true
  /\ In (Service.timeframe params) Config.TIMEFRAMES
  /\ In (Service.tradeType params) Config.TRADE_TYPES
  /\ (exists notes,
        Service.extraNotes params = Some notes /\ List.length notes <= 500)
  /\ (forall e, Spec.input_check params = inl e ->
      Server.buffer f = []
      /\ e = Service.mkError (JsString.str "Empty image buffer")).
Proof.
  intros Hv.
  destruct (ServerFacts.validation_outcome rt toUpperCase toLowerCase req w)
    as [(resp & w1 & H & _)|[(e & H & _)|(f1 & p1 & H & Hacc)]];
    rewrite H in Hv; try discriminate.
  injection Hv as -> -> ->.
  destruct Hacc as (Hf & Hsize & Hp & H1 & H2 & H3).
  destruct (ServerFacts.parameters_returns _ _ _ _ _ Hp) as (Hbuf & Hnotes).
  split; [reflexivity|]. split; [exact Hf|]. split; [exact Hsize|].
  split; [intros Hlen; rewrite Hlen in Hsize; lia|].
  split; [exact Hbuf|]. split; [exact H1|].
  split; [apply ServerFacts.includes_In; exact H2|].
  split; [apply ServerFacts.includes_In; exact H3|].
  split; [exact Hnotes|].
  intros e He. unfold Spec.input_check in He. rewrite Hbuf in He.
  change (Service.is_trading_pair (Service.symbol params))
    with (Server.includes Constants.TRADING_PAIRS (Service.symbol params)) in He.
  rewrite H1 in He. destruct (Server.buffer f) as [|b bs]; [|discriminate].
  injection He as <-. auto.
Qed.

Lemma handler_calls_service_with_valid_arguments_witness :
  exists f params,
    Server.validation Spec.demo_runtime JsString.toUpperCase Server.ascii_lower
      (Server.demo_upload [255; 216; 255]%N) Spec.initial_world
    = (inr (inr (f, params)), Spec.initial_world)
    /\ Service.is_trading_pair (Service.symbol params) = true
    /\ In (Service.timeframe params) Config.TIMEFRAMES
    /\ (Z.of_nat (List.length (Server.buffer f)) <= Config.MAX_FILE_SIZE)%Z.
Proof.
  do 2 eexists. split; [reflexivity|].
  pose proof (@handler_calls_service_with_valid_arguments Spec.demo_runtime
                JsString.toUpperCase Server.ascii_lower
                (Server.demo_upload [255; 216; 255]%N)
                Spec.initial_world Spec.initial_world _ _ eq_refl) as H.
  destruct H as (_ & _ & _ & Hlen & _ & Hpair & Htime & _).
  split; [exact Hpair|]. split; [exact Htime|]. apply Hlen. reflexivity.
Defined.

(** X15. The handler of [/api/analyze] throws nothing and answers with
    status 200, 400, 413 or 500. It answers 200 exactly when the request
    passes its checks, whether or not the analysis behind it succeeded,
    and then the service has taken one request id; otherwise the service
    is not called. A status of 500 arises only when a field of the form
    is set to something that is not a string. *)
Theorem handler_always_answers
    (rt : Service.Runtime) (toUpperCase toLowerCase : jsstring -> jsstring)
    (req : Server.HttpRequest) (w : Service.World) :
  exists resp w',
    Server.analyze rt toUpperCase toLowerCase req w = (inr resp, w')
    /\ In (Server.status resp) [200; 400; 413; 500]%Z
    /\ (Server.status resp = 200%Z
        <-> exists f params, Server.accepted rt toUpperCase toLowerCase req f params)
    /\ (Server.status resp = 500%Z -> Server.malformed req)
    /\ Service.requestCount w'
       = (Service.requestCount w + (if Server.status resp =? 200 then 1 else 0))%Z.
Proof.
  destruct (ServerFacts.validation_outcome rt toUpperCase toLowerCase req
              (Service.tick w))
    as [(resp & w1 & H & Hst & Hrc & _ & Hno)|[(e & H & Hmal & Hno)|(f & p & H & Hacc)]].
  - exists resp, w1. split.
    { unfold Server.analyze, Service.Date_now. cbv [Service.bind Service.try_catch
        Service.ret]. rewrite H. reflexivity. }
    split; [destruct Hst as [->| ->]; simpl; auto|].
    split.
    { split; [intros E; rewrite E in Hst; destruct Hst; discriminate|].
      intros (f & p & Hacc). destruct (Hno f p Hacc). }
    split; [intros E; rewrite E in Hst; destruct Hst; discriminate|].
    rewrite Hrc. destruct Hst as [->| ->]; simpl; lia.
  - do 2 eexists. split.
    { unfold Server.analyze, Server.analysis_error, Service.timestamp_now,
        Service.Date_now.
      cbv [Service.bind Service.try_catch Service.ret]. rewrite H. reflexivity. }
    cbn [Server.status Server.respond].
    destruct (Connection.includes (JsString.str "Invalid") (Service.message e)).
    + split; [simpl; auto|]. split.
      { split; [discriminate|]. intros (f & p & Hacc). destruct (Hno f p Hacc). }
      split; [discriminate|]. simpl. lia.
    + split; [simpl; auto|]. split.
      { split; [discriminate|]. intros (f & p & Hacc). destruct (Hno f p Hacc). }
      split; [intros _; exact Hmal|]. simpl. lia.
  - destruct (ServerFacts.analyze_accepted w Hacc)
      as (o & reads & evs & _ & _ & _ & _ & _ & Hrun).
    do 2 eexists. split; [exact Hrun|]. cbn [Server.status Service.requestCount].
    split; [simpl; auto|]. split; [split; eauto|]. split; [discriminate|]. reflexivity.
Qed.

(** X16. The answer to a request that passes the checks is the result of
    the service with its [metadata] replaced: every other property is the
    service's, [decision] and [vision_summary] are truthy, and the
    [metadata] carries the request id of the server (a string, in place of
    the service's count), the normalised symbol, timeframe and trade type,
    the type of the file and the disclaimer. *)
Theorem accepted_request_answered_with_metadata
    (rt : Service.Runtime) (toUpperCase toLowerCase : jsstring -> jsstring)
    (req : Server.HttpRequest) (w : Service.World)
    (f : Server.Upload) (params : Service.AnalysisRequest) :
  Server.accepted rt toUpperCase toLowerCase req f params ->
  exists o o' w',
    fst (Service.analyzeTradingChart rt params (Service.tick w)) = inr (Js.Object o)
    /\ Server.analyze rt toUpperCase toLowerCase req w
       = (inr {| Server.status := 200; Server.json := Js.Object o' |}, w')
    /\ (forall k, k <> JsString.str "metadata" -> Obj.get k o' = Obj.get k o)
    /\ Spec.has_required_fields o' = true
    /\ Spec.path ["metadata"; "requestId"]%string (Js.Object o')
       = Js.Str (Server.requestId req)
    /\ Spec.path ["metadata"; "symbol"]%string (Js.Object o')
       = Js.Str (Service.symbol params)
    /\ Spec.path ["metadata"; "timeframe"]%string (Js.Object o')
       = Js.Str (Service.timeframe params)
    /\ Spec.path ["metadata"; "tradeType"]%string (Js.Object o')
       = Js.Str (Service.tradeType params)
    /\ Spec.path ["metadata"; "fileType"]%string (Js.Object o')
       = Js.Str (Server.mimetype f)
    /\ Spec.path ["metadata"; "disclaimer"]%string (Js.Object o')
       = Js.Str Constants.DISCLAIMER.
Proof.
  intros Hacc.
  destruct (ServerFacts.analyze_accepted w Hacc)
    as (o & reads & evs & Hcall & _ & _ & _ & Ho & Hrun).
  do 3 eexists. split; [rewrite Hcall; reflexivity|]. split; [exact Hrun|].
  split; [intros k Hk; apply ObjFacts.get_set_other; congruence|].
  split; [apply CallFacts.with_metadata_fields; exact Ho|].
  rewrite !ServerFacts.path_into_metadata.
  match goal with
  | |- context [Server.request_metadata ?old ?f ?p ?r ?t ?s] =>
      pose proof (ServerFacts.request_metadata_entries old f p r t s) as H
  end.
  cbv zeta in H. intuition.
Qed.

Lemma accepted_request_answered_with_metadata_witness :
  exists f params o',
    Server.accepted Spec.demo_runtime JsString.toUpperCase Server.ascii_lower
      (Server.demo_upload [255; 216; 255]%N) f params
    /\ fst (Server.demo_analyze (Server.demo_upload [255; 216; 255]%N)
              Spec.initial_world)
       = inr {| Server.status := 200; Server.json := Js.Object o' |}
    /\ Spec.path ["metadata"; "symbol"]%string (Js.Object o')
       = Js.Str (JsString.str "EURUSD").
Proof.
  assert (Hacc : Server.accepted Spec.demo_runtime JsString.toUpperCase
                   Server.ascii_lower (Server.demo_upload [255; 216; 255]%N)
                   {| Server.size := 3; Server.mimetype := JsString.str "image/png";
                      Server.buffer := [255; 216; 255]%N |}
                   {| Service.imageBuffer := Some [255; 216; 255]%N;
                      Service.symbol := JsString.str "EURUSD";
                      Service.timeframe := JsString.str "H4";
                      Service.tradeType := JsString.str "intraday";
                      Service.extraNotes := Some [] |}).
  { unfold Server.accepted. repeat split. vm_compute. discriminate. }
  destruct (@accepted_request_answered_with_metadata Spec.demo_runtime
              JsString.toUpperCase Server.ascii_lower
              (Server.demo_upload [255; 216; 255]%N) Spec.initial_world _ _ Hacc)
    as (o & o' & w' & _ & Hrun & _ & _ & _ & Hsym & _).
  do 2 eexists. exists o'. split; [exact Hacc|].
  unfold Server.demo_analyze. rewrite Hrun. split; [reflexivity|exact Hsym].
Defined.

(** X17. An upload of zero bytes passes the checks of the handler, so it is
    answered with status 200; what it carries is the fallback of the
    service, with the action HOLD and the message of the empty buffer, under
    two request ids: the service's count in [error] and the server's id in
    [metadata]. No OCR session is opened for it. *)
Theorem empty_upload_answered_200_with_fallback
    (rt : Service.Runtime) (toUpperCase toLowerCase : jsstring -> jsstring)
    (req : Server.HttpRequest) (w : Service.World)
    (f : Server.Upload) (params : Service.AnalysisRequest) :
  Server.accepted rt toUpperCase toLowerCase req f params ->
  Server.buffer f = [] ->
  exists resp w',
    Server.analyze rt toUpperCase toLowerCase req w = (inr resp, w')
    /\ Server.status resp = 200%Z
    /\ Spec.path ["decision"; "action"]%string (Server.json resp)
       = Js.Str (JsString.str "HOLD")
    /\ Spec.path ["error"; "message"]%string (Server.json resp)
       = Js.Str (JsString.str "Empty image buffer")
    /\ Spec.path ["error"; "requestId"]%string (Server.json resp)
       = Js.Num (Number.of_Z (Service.requestCount w + 1))
    /\ Spec.path ["metadata"; "requestId"]%string (Server.json resp)
       = Js.Str (Server.requestId req)
    /\ Service.trace w' = Service.trace w.
Proof.
  intros Hacc Hempty.
  destruct (ServerFacts.analyze_accepted w Hacc)
    as (o & reads & evs & Hcall & _ & _ & Hbad & _ & Hrun).
  destruct Hacc as (_ & _ & Hp & _).
  destruct (ServerFacts.parameters_returns _ _ _ _ _ Hp) as (Hbuf & _).
  rewrite Hempty in Hbuf.
  assert (Hin : Spec.input_check params
                = inl (Service.mkError (JsString.str "Empty image buffer"))).
  { unfold Spec.input_check. rewrite Hbuf. reflexivity. }
  destruct (Hbad _ Hin) as [-> ->].
  pose proof (ServiceFacts.analyzeTradingChart_run rt params (Service.tick w)) as Hfb.
  cbv zeta in Hfb. rewrite Hin in Hfb. destruct Hfb as (_ & w1 & Hfb).
  rewrite Hcall in Hfb.
  assert (Ho : Js.Object o
               = Service.fallback_object
                   (Service.mkError (JsString.str "Empty image buffer"))
                   (Service.requestCount (Service.tick w) + 1)
                   (Service.toISOString rt
                      (Service.clock rt (S (S (Service.clockReads (Service.tick w))))))).
  { congruence. }
  clear Hfb. unfold Service.fallback_object in Ho. injection Ho as ->.
  do 2 eexists. split; [exact Hrun|]. cbn [Server.status Server.json Service.trace app].
  split; [reflexivity|]. split; [reflexivity|]. split; [reflexivity|].
  split; [reflexivity|]. split; [|reflexivity].
  rewrite ServerFacts.path_into_metadata.
  match goal with
  | |- context [Server.request_metadata ?old ?f ?p ?r ?t ?s] =>
      pose proof (ServerFacts.request_metadata_entries old f p r t s) as H
  end.
  cbv zeta in H. intuition.
Qed.

Lemma empty_upload_answered_200_with_fallback_witness :
  exists f params resp,
    Server.accepted Spec.demo_runtime JsString.toUpperCase Server.ascii_lower
      (Server.demo_upload []) f params
    /\ Server.buffer f = []
    /\ fst (Server.demo_analyze (Server.demo_upload []) Spec.initial_world) = inr resp
    /\ Server.status resp = 200%Z
    /\ Spec.path ["decision"; "action"]%string (Server.json resp)
       = Js.Str (JsString.str "HOLD").
Proof.
  assert (Hacc : Server.accepted Spec.demo_runtime JsString.toUpperCase
                   Server.ascii_lower (Server.demo_upload [])
                   {| Server.size := 0; Server.mimetype := JsString.str "image/png";
                      Server.buffer := [] |}
                   {| Service.imageBuffer := Some [];
                      Service.symbol := JsString.str "EURUSD";
                      Service.timeframe := JsString.str "H4";
                      Service.tradeType := JsString.str "intraday";
                      Service.extraNotes := Some [] |}).
  { unfold Server.accepted. repeat split. vm_compute. discriminate. }
  destruct (@empty_upload_answered_200_with_fallback Spec.demo_runtime
              JsString.toUpperCase Server.ascii_lower
              (Server.demo_upload []) Spec.initial_world _ _ Hacc eq_refl)
    as (resp & w' & Hrun & Hst & Hact & _).
  do 2 eexists. exists resp. split; [exact Hacc|]. split; [reflexivity|].
  unfold Server.demo_analyze. rewrite Hrun. split; [reflexivity|].
  split; [exact Hst|exact Hact].
Defined.

(** X18. An error that is not a [MulterError] passes the first
    error-handling middleware and is answered by the general one with
    status 500 and the fixed server-error message: in the committed
    configuration its own message is never sent. That is what happens to
    the error that [fileFilter] raises for a file type that is not
    allowed. *)
Theorem rejected_file_type_answered_500
    (rt : Service.Runtime) (err : Server.Failure) (req : Server.HttpRequest)
    (w : Service.World) :
  Server.multer_code err = None ->
  Server.handle_error rt err req w
  = (inr (Server.respond 500
            [ Service.field "error" (Js.Str Config.SERVER_ERROR);
              Service.field "code" (Service.text "INTERNAL_ERROR");
              Service.field "requestId" (Js.Str (Server.requestId req));
              Service.field "timestamp"
                (Js.Str (Service.toISOString rt
                           (Service.clock rt (Service.clockReads w)))) ]),
     Service.tick w)
  /\ forall type,
       Server.includes Config.ALLOWED_IMAGE_TYPES type = false ->
       exists err',
         Server.fileFilter type = Some err'
         /\ Server.multer_code err' = None
         /\ Server.failure_message err' = Config.INVALID_FILE_TYPE.
Proof.
  intros Hcode. split.
  - unfold Server.handle_error, Server.multer_error_handler,
      Server.general_error_handler, Service.timestamp_now, Service.Date_now.
    rewrite Hcode. reflexivity.
  - intros type Htype. unfold Server.fileFilter. rewrite Htype.
    eexists. repeat split.
Qed.

Lemma rejected_file_type_answered_500_witness :
  let err := {| Server.multer_code := None;
                Server.failure_message := Config.INVALID_FILE_TYPE |} in
  Server.multer_code err = None
  /\ fst (Server.handle_error Spec.demo_runtime err (Server.demo_upload [])
            Spec.initial_world)
     = inr (Server.respond 500
              [ Service.field "error" (Js.Str Config.SERVER_ERROR);
                Service.field "code" (Service.text "INTERNAL_ERROR");
                Service.field "requestId" (Js.Str (JsString.str "lq3xk2a8f0"));
                Service.field "timestamp" (Js.Str (JsString.str "1700000000000")) ]).
Proof.
  cbv zeta. split; [reflexivity|].
  rewrite (proj1 (@rejected_file_type_answered_500 Spec.demo_runtime
                    {| Server.multer_code := None;
                       Server.failure_message := Config.INVALID_FILE_TYPE |}
                    (Server.demo_upload []) Spec.initial_world eq_refl)).
  reflexivity.
Defined.

(** X19. The health endpoint never answers 503: because [testConnection]
    throws nothing, its [catch] block is not reached, and the answer is
    200 with the status "healthy" also when the connection test failed.
    The outcome of the test is under [api.deepseek]. *)
Theorem health_always_healthy
    (rt : Service.Runtime) (transport : Service.Error + Z * Js.value)
    (rejection : Z -> Js.value -> Service.Error) (uptime memoryUsage : Js.value)
    (req : Server.HttpRequest) (w : Service.World) :
  exists resp w',
    Server.health rt transport rejection uptime memoryUsage req w = (inr resp, w')
    /\ Server.status resp = 200%Z
    /\ Spec.path ["status"]%string (Server.json resp) = Js.Str (JsString.str "healthy")
    /\ inr (Spec.path ["api"; "deepseek"]%string (Server.json resp))
       = fst (Connection.testConnection rt transport rejection w)
    /\ (Spec.path ["api"; "deepseek"; "ok"]%string (Server.json resp) = Js.Bool true
        <-> exists data, transport = inr (200%Z, data)).
Proof.
  unfold Server.health, Service.timestamp_now, Service.Date_now.
  cbv [Service.bind Service.try_catch Service.ret].
  rewrite ConnectionFacts.testConnection_run. cbv zeta.
  unfold Connection.client_get.
  destruct transport as [e|[status data]].
  - do 2 eexists. split; [reflexivity|]. split; [reflexivity|].
    split; [reflexivity|]. split; [reflexivity|].
    split; [discriminate|]. intros (d & H). discriminate.
  - destruct (Z.ltb_spec status 500) as [Hlt|Hge].
    + do 2 eexists. split; [reflexivity|]. split; [reflexivity|].
      split; [reflexivity|]. split; [reflexivity|].
      change (Spec.path ["api"; "deepseek"; "ok"]%string _)
        with (Js.Bool (status =? 200)%Z).
      split.
      * intros H. injection H as H. apply Z.eqb_eq in H. subst. eauto.
      * intros (d & H). injection H as -> _. reflexivity.
    + do 2 eexists. split; [reflexivity|]. split; [reflexivity|].
      split; [reflexivity|]. split; [reflexivity|].
      split; [discriminate|]. intros (d & H). injection H as -> _. lia.
Qed.

(** X20. Whatever happens to the OCR session, [extractChartDataWithOCR]
    returns a result within the bounds of the parser: at most 1500 code
    units of raw text, at most 15 price levels, indicators under the five
    known names without NaN, and no labels. *)
Theorem ocr_result_within_bounds
    (rt : Service.Runtime) (image : Service.bytes) (w : Service.World) :
  exists res,
    fst (Service.extractChartDataWithOCR rt image w) = inr res
    /\ List.length (OCR.rawText res) <= 1500
    /\ List.length (OCR.priceLevels (OCR.extractedData res)) <= 15
    /\ Glossary.tidy_indicators (OCR.indicators (OCR.extractedData res))
    /\ OCR.labels (OCR.extractedData res) = [].
Proof.
  destruct (CallFacts.extractChartDataWithOCR_result rt image w) as [H|(text & H)];
    rewrite H; eexists; (split; [reflexivity|]).
  - cbn. repeat split; try lia; try constructor; simpl; tauto.
  - split; [apply firstn_le_length|]. split; [apply firstn_le_length|].
    split; [apply IndicatorFacts.tidy_parseOCRText|reflexivity].
Qed.

(** X21. A reply without a backtick that does not begin with the letter j
    or J passes through the cleaning of the validator with nothing but
    its surrounding white space removed. *)
Theorem plain_reply_is_only_trimmed (content : jsstring) :
  Glossary.class_free Glossary.is_backtick content ->
  Glossary.starts_json_tag content = false ->
  Service.clean_content content = JsString.trim content.
Proof.
  intros Hfree Htag. unfold Service.clean_content. cbv zeta.
  assert (Hstart : forall w r,
            Glossary.starts_in Glossary.is_backtick
              (RegExp.Seq (RegExp.Seq (RegExp.chari 96) w) r)).
  { intros w r. apply MatchFacts.starts_in_seq, MatchFacts.starts_in_seq.
    eapply FenceFacts.starts_in_weaken; [|apply FenceFacts.starts_in_class].
    apply FenceFacts.chari_backtick. }
  rewrite (@FenceFacts.remove_all_class_free Glossary.is_backtick
             (RegExp.Seq (RegExp.stri "```json") (RegExp.star RegExp.space)) content)
    by (try apply Hstart; exact Hfree).
  rewrite (@FenceFacts.remove_all_class_free Glossary.is_backtick
             (RegExp.Seq (RegExp.stri "```") (RegExp.star RegExp.space)) content)
    by (try apply Hstart; exact Hfree).
  f_equal. unfold RegExp.remove_first, RegExp.exec, RegExp.match_all.
  cbn [RegExp.seqs].
  destruct content as [|c content].
  - reflexivity.
  - cbn [RegExp.scan]. unfold RegExp.match_at at 1.
    cbn [RegExp.run RegExp.pos Nat.eqb flat_map].
    rewrite FenceFacts.run_json_tag by exact Htag. cbn [flat_map app].
    rewrite FenceFacts.scan_bol_later. reflexivity.
Qed.

Lemma plain_reply_is_only_trimmed_witness :
  let content := JsString.dq " {'decision': {'action': 'BUY'}} " in
  Glossary.class_free Glossary.is_backtick content
  /\ Glossary.starts_json_tag content = false
  /\ Service.clean_content content = JsString.trim content.
Proof.
  cbv zeta.
  assert (H : Glossary.class_free Glossary.is_backtick
                (JsString.dq " {'decision': {'action': 'BUY'}} ")).
  { unfold Glossary.class_free. simpl. repeat constructor. }
  split; [exact H|]. split; [reflexivity|].
  exact (@plain_reply_is_only_trimmed _ H eq_refl).
Defined.

(** X22. [analyzeWithAI] throws only when the request to the reasoning
    service itself fails, and then with the message of that failure behind
    the prefix "AI service error: ". A reply that fails validation is not
    thrown but answered with the fallback, so that everything
    [analyzeWithAI] returns has a truthy [decision] and [vision_summary]. *)
Theorem analyzeWithAI_throws_only_transport_failures
    (rt : Service.Runtime) (ocrData : OCR.OCRResult)
    (symbol timeframe tradeType : jsstring) (extraNotes : option jsstring)
    (requestId : Z) (w : Service.World) :
  let prompt := Spec.prompt_in rt ocrData symbol timeframe tradeType extraNotes w in
  match fst (Service.analyzeWithAI rt ocrData symbol timeframe tradeType extraNotes
               requestId w) with
  | inl e =>
      exists cause,
        Service.client_post rt prompt = inl cause
        /\ Service.message e
           = JsString.str "AI service error: " ++ Service.message cause
  | inr v =>
      exists data o,
        Service.client_post rt prompt = inr data
        /\ v = Js.Object o /\ Spec.has_required_fields o = true
  end.
Proof.
  cbv zeta. rewrite ServiceFacts.analyzeWithAI_run.
  destruct (Service.client_post rt _) as [cause|data].
  - cbn [fst]. exists cause. split; reflexivity.
  - destruct (Service.parseAIResponse_try rt data) as [e|v] eqn:Hv; cbn [fst].
    + destruct (CallFacts.fallback_object_fields e requestId
                  (Service.toISOString rt
                     (Service.clock rt (S (Service.clockReads w)))))
        as (o & Ho & Hf).
      exists data, o. split; [reflexivity|]. split; [exact Ho|exact Hf].
    + apply CallFacts.parseAIResponse_try_accepts in Hv.
      destruct Hv as (o & -> & Hf). exists data, o. auto.
Qed.
